(* ===== verification/_CoqProject ===== *)
-Q . S2P
Prelude.v
Schema.v
Fixtures.v
Partition.v
Search.v
View.v
Rendered.v
Model.v
Effects.v
Worlds.v
Steps.v
Sidebar.v
Faults.v
Timeline.v
Lifecycle.v
Pending.v
Imports.v
Database.v
Documents.v
Store.v
Request.v
Writes.v
