(* ===== verification/Prelude.v ===== *)
(** * CommUnityHub server sidebar: a verification development

    ** The program

    The program is one server-rendered view of a Discord-like community
    application, [src/components/server/server-sidebar.tsx] (306 lines).  The
    function [ServerSidebar] (lines 45-304) is given a server id and

    - asks the session who the viewer is ([currentProfile()], line 46) and
      leaves with [redirect("/")] when there is none (lines 48-50);
    - reads the server in one query ([db.server.findUnique], lines 52-71),
      channels ordered by creation time and members joined to their profiles
      and ordered by role, and leaves with [redirect("/")] when there is no
      such server (lines 73-75);
    - splits the channels into five lists by type (lines 77-89 and 95-97),
      drops the viewer from the member list (lines 91-93) and looks the
      viewer's role up (lines 99-101);
    - returns the element tree of the sidebar (lines 104-303): a header, a
      search box over six groups of entries with icons from the two tables of
      lines 29-43, then one section per non-empty channel list in a fixed
      order, the todo section with a progress widget for administrators and
      moderators, and a member section.

    The module imports twenty-two names (lines 1-23), declares the props
    interface and the two icon tables before the function, and exports the
    function as its default export (line 306).

    The session, the ORM client, the router and the child components live
    outside [src/]; the view constructs or calls them and nothing more.

    ** The files, in the order they are compiled

    - [Prelude] (this file).  The libraries every file shares, the scope
      [sidebar_scope], the hint databases [sidebar], [run] and [attempt], the
      tactics [run_simpl] and [decide_it], and the list facts that are shared:
      [array_find] and [truthy_length] (JavaScript's [find] and the truthiness
      of [length]), [having_key]/[groups] (a list split by the value of a key
      is a permutation of the list), [ordered_by] (sortedness by a key, kept by
      sublists, filters and concatenation of groups), and [find] in a list
      that grew, was filtered or was mapped.
    - [Schema].  The enumerations [ChannelType] and [MemberRole] and the
      records [Profile], [Channel], [Member], [Server] with the columns the
      view reads; [role_le], the order a query sorts roles in;
      [ServerIntegrity], the key constraints of a fetched server.  Servers
      are compared by [≡] up to the order of their rows, with [Proper]
      instances for the projections and for [ServerIntegrity].
    - [Fixtures].  Concrete servers ([hub], [studio], [solo]) and profiles the
      witnesses evaluate the definitions on.
    - [Partition].  Lines 77-101: [textChannels], [audioChannels],
      [videoChannels], [slateChannels], [todoChannels], [members], [role], each
      the filter or find of the source.  Theorems: the five lists partition the
      channels (each channel in exactly one, disjoint, lengths add up), keep
      order and key uniqueness; [members] drops exactly the viewer's rows;
      [role] is defined exactly for members, is the role of a membership, and
      on a role-ordered list is the most privileged one.
    - [Search].  Lines 5-13, 29-43 and 109-166: the icons, [iconMap] and
      [roleIconMap] as finite maps from enumeration values with JavaScript's
      lookup ([object_get]), the entries [channelEntry] and [memberEntry], and
      [searchData], the six groups passed to the search box.  Theorems: every
      entry gets its icon from a table that has the key (guests get [null]),
      the index holds every channel once and no membership of the viewer, and
      an entry of the index leads back to its channel ([channelById]).
    - [View].  Lines 104-303: the JSX as a value of [Element], one constructor
      per component the source uses, with [jsx_and] for [cond && element];
      [textSection] ... [membersSection] are the six guarded blocks and
      [sidebarView] the whole tree.  The file holds definitions only.
    - [Rendered].  What a tree shows: [nodes] lists the nodes of a tree in
      document order, skipping [false] and splicing arrays as React does;
      [renderedSections], [renderedChannels], [renderedMembers] and
      [renderedProgress] read the section headers, rows and widgets off it;
      [channelSection] is the common form of the five channel sections.
      Theorems: which headers appear and in which order, every channel has
      one row, rows are grouped by type, the progress widget appears exactly
      for administrators and moderators on a server with a todo channel, no
      row shows the viewer, the props of every row, and the agreement of the
      search index with the rows.
    - [Model].  The sidebar as the specification describes it (steps 4 to 9
      of its logic): [Panel], the header, the search index and the blocks of
      rows under section headers, built by [spec.panel] from groups by type,
      the members without the viewer's memberships, the role of the first
      membership, and icons as functions of the enumerations.  [abstract]
      reads a panel off an element tree.  Theorems: the tree the component
      builds abstracts to the panel of the specification (refinement); every
      row is under the header of its own kind; a block lists exactly the
      channels of its type; the outline of the panel is invariant under
      permutation of the fetched rows ([Proper] instances for [≡ₚ]).
    - [Effects].  The three collaborator calls as the type [Call], programs as
      finite trees of calls ([Prog], a free monad), [run] against an
      environment [Env] that answers and records the calls; [redirect] is a
      call without answer, so what follows it never runs.  Programs are
      compared by [≡] (same run in every environment); the monad laws and the
      [Proper] instance of bind hold up to it.
    - [Worlds].  The two complications of an [await]: the promise may be
      rejected, and other requests run while it is pending.  [World] answers
      a call with a [Settled] promise and [attempt] runs a program in it,
      ending with a [Completion], which adds failure to the outcomes of
      [Effects]; a [Timeline] gives the world at every instant and
      [attemptFrom] settles each call at the instant it is made.  The three
      semantics form a tower: [attemptFrom] on a constant timeline is
      [attempt], and [attempt] without rejections is [run].  Theorems: these
      two inclusions; a run sees the timeline at the instants of its calls
      only; a trace holds at most one rejection, its last call.
    - [Steps].  The runs of [Worlds] one call at a time: a [State] is a
      running program with the calls made so far, a render left by a
      redirect, or one broken by a rejection; [step] is the transition
      relation on a timeline, [stepf] the same as a function and [exec] its
      iteration.  Theorems: determinism, final states are the normal forms,
      strong normalisation, and agreement with [attemptFrom].
    - [Sidebar].  Lines 25-27 and 45-304: [ServerSidebarProps], [serverQuery]
      (the literal argument of lines 52-71) and [ServerSidebar], the two
      guards, the query and the view composed as in the source.  [resolve] and
      [present] are the contract: the result
      [NotAuthenticated | NotFound | Ready] decided without effects, and its
      presentation; [resolveM] and [presentM] are the same two steps as
      programs.  Theorems: the component refines the contract and is
      equivalent to [resolveM] followed by [presentM]; its trace and outcome
      on each of the three branches; at most one database read; a viewer
      without membership is served like a member.
    - [Faults].  The component when a collaborator fails.  It has no handler
      around its two [await]s, so a rejection ends the render;
      [resolveUnder] is the contract of [Sidebar] extended with that case.
      Theorems: the component implements the extended contract, with its
      calls in every case; a rejected query fails the render of a viewer
      after two calls, without redirect; a render returns the whole view or
      none.
    - [Timeline].  The component while the world changes.  Theorems: a
      render on a timeline is its render in the world made of the session
      of the first instant and the database of the second ([seen]), so a
      view comes from one state of the database; timelines that agree on
      these two answers give the same run.
    - [Lifecycle].  The component under the step semantics, on every
      timeline: [start], the call protocol as an automaton ([Phase],
      [advance], [phaseOf]), and the theorems about every state a render
      can reach: the calls follow the protocol and the phase tells how the
      render ended (safety), and it always goes on to the completion the
      extended contract decides (liveness).  Every promise settles on a
      timeline, so a render makes at most three steps there.
    - [Pending].  The component when a promise never settles: the source
      sets no timeout on its two [await]s.  [await] is [Worlds.attempt]
      with promises that stay pending; a program that awaits one hangs on
      it.  Theorems: [await] is [attempt] where every promise settles, and
      a program that ends under [await] ends as [attempt] says; the
      component ends exactly when the promise of the session lookup
      settles and, for a viewer, that of the query does (termination), so
      a database that never answers does not keep a request without viewer
      from being redirected.
    - [Imports].  Lines 1-23 and 306: the import declarations ([imports]),
      the declarations of the module ([declarations]) and its default export
      ([exportDefault]); the name the source uses for each call, icon and
      component of the model ([callee], [iconName], [tagName]: labels of the
      constructors, not translations of code) and the names a render refers
      to ([renderNames]).  Theorems: every name a render
      refers to is bound; the imports no render refers to are exactly
      [channel] and [ProgressBar]; no name is bound twice, the export is
      declared, and the icon tables are declared before the component.
    - [Database].  The interface [DataAccess]: what the component relies on
      from [findUnique] (the server has the requested id, satisfies the key
      constraints, and comes with channels and members in the requested
      order).  The theorems of [Request] are proved against it; [Documents]
      and [Store] implement it.
    - [Documents].  The database as the specification describes it: a
      collection of server records with nested channels and members
      ([Documents]), read by [docs_findUnique], which looks a server up by id
      and orders its rows ([sortedServer]).  The writes the data model allows
      ([Write]: a server created or deleted; a channel created or deleted; a
      member added, removed or given another role) are performed by [write],
      which refuses a write that would break a constraint; [history] is the
      collection after the first [t] writes of a list.  Theorems: the read
      implements the interface; every accepted write keeps [DocumentsValid],
      so it holds at every instant of every history; a write changes what is
      stored under the id it is about, as [written] says, and nothing else.
    - [Store].  The relational tables behind the documents: [Store], its
      constraints [StoreValid] (primary keys and the foreign key of a
      member) and [store_findUnique], the read with its nested includes
      (select by key, join to the profile, sort).  [documents] is the
      collection a store holds.  Theorems: the read of a store is the read
      of its documents and valid tables hold valid documents (refinement),
      from which the laws of the interface follow for the store; [tables]
      stores one server, and reading it back gives the server with its rows
      sorted.
    - [Request].  The component run against any implementation of
      [DataAccess]: the view shows the requested server, rows in creation
      order, the most privileged role of the viewer, distinct React keys; a
      server stored and then requested is shown with every channel and
      every other member it was stored with, each with its profile; a view
      returned while the database changes or is unreachable is the view of
      a request against the database of one instant; and the scenarios of
      the specification evaluated on a concrete store.
    - [Writes].  The component among the writes of [Documents]: a render of
      one server does not depend on writes to another; the render after a
      write shows what was written, or redirects after a deletion; every
      view returned during a history of writes that starts from a valid
      database has distinct keys.

    ** Correspondence with the source

    Names are those of the source.  An [await] is a bind of [Prog]; a
    [return redirect(..)] is [redirect]; [xs.filter(p)] is stdpp's [filter],
    [xs.map(f)] its [fmap], [xs.find(p)] is [array_find], [!!xs?.length] is
    [truthy_length], [obj[key]] is [object_get].  The optional chains
    [server?.channels] of the source are taken after the guard of lines 73-75,
    where [server] is defined, so they are plain field accesses.  The value of
    [role] may be [undefined]: it is an [option MemberRole] all the way into
    the props.  Class names and labels are the strings of the source.  An
    import declaration is a record of [Imports.imports]; a rejected promise
    is [Worlds.Rejected], and awaiting it ends [Worlds.attempt].

    ** Assumptions

    - The schema is not under [src/]; types follow the data model of the
      specification.  A member comes joined to its profile because the query
      asks for it ([include: { profile: true }]); the record therefore has the
      profile as a field, and [ServerIntegrity] says it is the one the foreign
      key names and that a profile id names one profile.
    - [orderBy: { role: "asc" }] sorts by the position of the role in its
      enumeration, ADMIN first ([role_rank]), as a database does that
      stores the enumeration as an enumerated type.  The theorems that say
      the role found is the most privileged one rest on it;
      [Partition.role_least] holds for whatever order the query sorts in,
      and [Partition.role_ordered_by_name] shows what a database that
      compares roles by name would give.
    - Creation times are integers ([Z]); only their order is used.
    - Each awaited call takes one instant of a [Timeline]; what other
      requests do is seen only as the change of the environment from one
      instant to the next.
    - A rejection carries a reason, a string; the component never inspects
      it.
    - In [Worlds], [Steps], [Timeline] and [Lifecycle] every awaited promise
      settles, so the renders of these files always end; [Pending] drops
      that assumption.  A promise that is pending there never settles: how
      long a promise that does settle takes is not modelled.
    - A member row whose profile is missing from the profile table is not
      returned by the read of [Store]; the foreign key of [StoreValid] rules
      such rows out.
    - The writes of [Documents] are the ones the data model allows, each
      atomic and each refused as a whole when it would break a constraint;
      which of them the other routes of the application make is not known
      from [src/], and no theorem depends on it: the theorems of [Writes]
      hold for every list of writes.

    ** Bounds and fuel

    Every definition is structurally recursive or a composition of list
    functions, so every function is total and the theorems about results
    need no termination side condition.  Programs are finite trees; the
    component makes at most three calls.  The one counter of the development
    is the number of steps of [Steps.exec]: [exec n] makes at most [n] steps
    and stays where the run ends, and three are enough for every render on
    every timeline ([Lifecycle.exec_start_result]), which is why the states
    a render can reach are enumerated with [n ≤ 3].  Instants are natural
    numbers; a render that starts at [t] makes its calls at [t], [t + 1]
    and [t + 2].  A history of writes is a finite list; at an instant past
    its end the database is as the last write left it.

    ** Not modelled

    What the child components render from their props and the styling
    behaviour of the class names: the components are outside [src/] and the
    file only constructs them.  How the router carries a redirect out, and
    what the framework shows when a render fails.  The session mechanism
    behind [currentProfile], of which only the answer is known.  Of the
    database client: the other queries, transactions, connection handling,
    and writes on the relational tables (writes are modelled on the
    documents, the level the component reads at).  None of these is in
    [src/], and the specification says no more about them than is modelled
    here, so nothing further of them can be modelled faithfully.  With these
    exceptions every line of the source that has behaviour is modelled; the
    lines the map leaves out are blank or hold a closing bracket. *)

From stdpp Require Export ssreflect list sorting strings finite.
Set Warnings "-rewrite-rw".

Declare Scope sidebar_scope.
Delimit Scope sidebar_scope with sidebar.

Create HintDb sidebar discriminated.
Create Rewrite HintDb run.
Create Rewrite HintDb attempt.

(** [run_simpl] evaluates the run of a program along the equations of [run]. *)
Ltac run_simpl := autorewrite with run; simpl.

(** [decide_it] proves a closed decidable proposition by evaluating its
    decision procedure. *)
Ltac decide_it := by apply (bool_decide_unpack _).

(** ** JavaScript arrays as lists *)

Section js_array.
Context {A : Type}.
Implicit Types (l : list A) (x : A).

(** [l.find(p)]: the first element that satisfies [p], [undefined] ([None])
    when there is none. *)
Definition array_find (P : A → Prop) `{!∀ x, Decision (P x)} l : option A :=
  snd <$> list_find P l.

(** [!!l.length]: a length is truthy when it is not zero. *)
Definition truthy_length l : bool := bool_decide (length l ≠ 0).

End js_array.

Section js_array_facts.
Context {A : Type} (P : A → Prop) `{!∀ x, Decision (P x)}.
Implicit Types (l : list A) (x : A).

Lemma array_find_nil : array_find P [] = None.
Proof. done. Qed.

Lemma array_find_cons x l :
  array_find P (x :: l) = if decide (P x) then Some x else array_find P l.
Proof.
  rewrite /array_find /=. case_decide; first done.
  by destruct (list_find P l) as [[??]|].
Qed.

Lemma array_find_Some l x :
  array_find P l = Some x ↔
  ∃ l1 l2, l = l1 ++ x :: l2 ∧ P x ∧ Forall (λ y, ¬ P y) l1.
Proof.
  induction l as [|y l IH]; rewrite ?array_find_nil ?array_find_cons.
  - split; [done|]. by intros ([|??] & ? & ? & _).
  - case_decide as Hy.
    + split.
      * intros [= ->]. by exists [], l.
      * intros ([|z l1] & l2 & [= -> ->] & Hx & Hl1); first done.
        by apply Forall_cons_1 in Hl1 as [? _].
    + rewrite IH. split.
      * intros (l1 & l2 & -> & ? & ?). exists (y :: l1), l2. by repeat constructor.
      * intros ([|z l1] & l2 & [= -> ->] & Hx & Hl1); first done.
        apply Forall_cons_1 in Hl1 as [_ ?]. by exists l1, l2.
Qed.

Lemma array_find_None l : array_find P l = None ↔ Forall (λ y, ¬ P y) l.
Proof. by rewrite /array_find fmap_None list_find_None. Qed.

Lemma array_find_is_Some l : is_Some (array_find P l) ↔ Exists P l.
Proof.
  rewrite -not_eq_None_Some array_find_None Forall_Exists_neg.
  destruct (decide (Exists P l)); naive_solver.
Qed.

Lemma array_find_elem_of l x : array_find P l = Some x → x ∈ l ∧ P x.
Proof.
  intros (l1 & l2 & -> & ? & _)%array_find_Some. split; [|done].
  apply elem_of_app. right. by left.
Qed.

End js_array_facts.

(** ** [omap] over a mapped list *)

Section omap.
Context {A B C : Type} (sel : B → option C).
Implicit Types (l : list A) (f : A → B).

Lemma omap_cons (x : B) (k : list B) :
  omap sel (x :: k) = if sel x is Some y then y :: omap sel k else omap sel k.
Proof. done. Qed.

Lemma omap_fmap_Some f (g : A → C) l :
  (∀ x, sel (f x) = Some (g x)) → omap sel (f <$> l) = g <$> l.
Proof.
  intros Hf. induction l as [|x l IH]; [done|].
  by rewrite fmap_cons omap_cons Hf IH.
Qed.

Lemma omap_fmap_Some_on f (g : A → C) l :
  Forall (λ x, sel (f x) = Some (g x)) l → omap sel (f <$> l) = g <$> l.
Proof.
  induction 1 as [|x l Hx _ IH]; [done|]. by rewrite !fmap_cons omap_cons Hx IH.
Qed.

Lemma omap_fmap_None f l : (∀ x, sel (f x) = None) → omap sel (f <$> l) = [].
Proof.
  intros Hf. induction l as [|x l IH]; [done|].
  by rewrite fmap_cons omap_cons Hf IH.
Qed.

End omap.

(** ** Conditional singletons

    [cond(x) && <X/>] for each [x] of a list leaves the [X] of those [x] that
    pass the test, in order. *)

Lemma mjoin_if_singleton {A B} (b : A → bool) (g : A → B) (l : list A) :
  mjoin ((λ x, if b x then [g x] else []) <$> l) = g <$> filter (λ x, b x) l.
Proof.
  induction l as [|x l IH]; [done|].
  rewrite fmap_cons filter_cons /= IH. by destruct (b x).
Qed.

(** ** Keys

    A list whose keys are duplicate-free determines an element by its key. *)

Lemma NoDup_fmap_eq {A B} (f : A → B) (l : list A) (x y : A) :
  NoDup (f <$> l) → x ∈ l → y ∈ l → f x = f y → x = y.
Proof.
  induction l as [|z l IH]; [by intros _ ?%elem_of_nil|].
  rewrite fmap_cons NoDup_cons.
  intros [Hz ?] [->|Hx]%elem_of_cons [->|Hy]%elem_of_cons Heq; [done| | |by apply IH].
  - destruct Hz. rewrite Heq. by apply list_elem_of_fmap_2.
  - destruct Hz. rewrite -Heq. by apply list_elem_of_fmap_2.
Qed.

(** Looking an element up by its key finds it when keys are unique. *)
Lemma array_find_unique {A B} `{!EqDecision B} (f : A → B) (l : list A) (x : A) :
  NoDup (f <$> l) → x ∈ l → array_find (λ y, f y = f x) l = Some x.
Proof.
  intros Hnd Hx.
  destruct (array_find (λ y, f y = f x) l) as [y|] eqn:Hy.
  - apply array_find_elem_of in Hy as [Hy Heq].
    by rewrite (NoDup_fmap_eq f l y x).
  - apply array_find_None in Hy. rewrite ->Forall_forall in Hy. by destruct (Hy x).
Qed.

Lemma Forall_sublist {A} (P : A → Prop) (l1 l2 : list A) :
  l1 `sublist_of` l2 → Forall P l2 → Forall P l1.
Proof.
  rewrite !Forall_forall=> Hsub Hl2 x Hx. by eapply Hl2, elem_of_sublist.
Qed.

Lemma filter_mjoin {A} (P : A → Prop) `{!∀ x, Decision (P x)}
    (ls : list (list A)) :
  filter P (mjoin ls) = mjoin (filter P <$> ls).
Proof.
  induction ls as [|l ls IH]; [done|]. by rewrite /= filter_app IH.
Qed.

Lemma fmap_mjoin {A B} (f : A → B) (ls : list (list A)) :
  f <$> mjoin ls = mjoin (fmap f <$> ls).
Proof. induction ls as [|l ls IH]; [done|]. by rewrite /= fmap_app IH. Qed.

(** ** [filter] at its two extremes *)

Section filter_extremes.
Context {A : Type} (P : A → Prop) `{!∀ x, Decision (P x)}.
Implicit Types (l : list A).

Lemma filter_all l : Forall P l → filter P l = l.
Proof.
  induction 1 as [|x l ? _ IH]; [done|]. by rewrite filter_cons decide_True // IH.
Qed.

Lemma filter_none l : Forall (λ x, ¬ P x) l → filter P l = [].
Proof.
  induction 1 as [|x l ? _ IH]; [done|]. by rewrite filter_cons decide_False.
Qed.

(** Removing the elements that satisfy [P] is keeping the others. *)
Lemma list_difference_filter `{!EqDecision A} l :
  list_difference l (filter P l) = filter (λ x, ¬P x) l.
Proof.
  assert (∀ k, (∀ x, x ∈ k → x ∈ filter P l ↔ P x) →
    list_difference k (filter P l) = filter (λ x, ¬P x) k) as Hgen.
  { induction k as [|x k IH]; intros Hk; [done|].
    rewrite /= filter_cons IH; [|intros y Hy; apply Hk; by right].
    pose proof (Hk x (list_elem_of_here _ _)) as Hx.
    case_decide; case_decide; tauto. }
  apply Hgen=> x Hx. rewrite list_elem_of_filter. tauto.
Qed.

Lemma filter_nil_Forall l : filter P l = [] ↔ Forall (λ x, ¬ P x) l.
Proof.
  split; [|apply filter_none]. intros Hnil. apply Forall_forall=> x Hx HP.
  by eapply filter_nil_not_elem_of.
Qed.

(** [find] is the head of [filter]. *)
Lemma array_find_head_filter l : array_find P l = head (filter P l).
Proof.
  induction l as [|x l IH]; [done|].
  rewrite array_find_cons filter_cons. by case_decide.
Qed.

(** [find] in an array that grew at its end, that was filtered, and that was
    mapped by a function that leaves the matches alone. *)
Lemma array_find_app l k :
  array_find P (l ++ k) =
  match array_find P l with Some x => Some x | None => array_find P k end.
Proof.
  induction l as [|x l IH]; [done|].
  rewrite /= !array_find_cons. by case_decide.
Qed.

Lemma array_find_filter (Q : A → Prop) `{!∀ x, Decision (Q x)} l :
  (∀ x, P x → Q x) → array_find P (filter Q l) = array_find P l.
Proof.
  intros HPQ. induction l as [|x l IH]; [done|].
  rewrite filter_cons array_find_cons.
  destruct (decide (Q x)) as [HQ|HQ]; [by rewrite array_find_cons IH|].
  rewrite decide_False //. by intros ?%HPQ.
Qed.

Lemma array_find_filter_None (Q : A → Prop) `{!∀ x, Decision (Q x)} l :
  (∀ x, P x → ¬ Q x) → array_find P (filter Q l) = None.
Proof.
  intros HPQ. apply array_find_None, Forall_forall=> x.
  intros [??]%list_elem_of_filter ?. by eapply HPQ.
Qed.

Lemma array_find_fmap_stable (f : A → A) l :
  (∀ x, P (f x) ↔ P x) →
  array_find P (f <$> l) = f <$> array_find P l.
Proof.
  intros Hf. induction l as [|x l IH]; [done|].
  rewrite fmap_cons !array_find_cons.
  case_decide as Hfx; rewrite ->Hf in Hfx; by case_decide.
Qed.

End filter_extremes.

(** [find] through a map. *)
Lemma array_find_fmap {A B} (P : B → Prop) `{!∀ y, Decision (P y)}
    (f : A → B) (l : list A) :
  array_find P (f <$> l) = f <$> array_find (λ x, P (f x)) l.
Proof.
  induction l as [|x l IH]; [done|].
  rewrite fmap_cons !array_find_cons. by case_decide.
Qed.

Lemma truthy_length_true {A} (l : list A) : truthy_length l = true ↔ l ≠ [].
Proof. rewrite /truthy_length bool_decide_eq_true. by destruct l. Qed.

Lemma truthy_length_false {A} (l : list A) : truthy_length l = false ↔ l = [].
Proof. rewrite /truthy_length bool_decide_eq_false. destruct l; naive_solver. Qed.

(** ** Lists ordered by a key

    [orderBy: { field: "asc" }] promises a list whose [field]s do not decrease.
    [ordered_by R key l]: every element is [R]-below the ones after it, compared
    on [key]. *)

Definition by_key {A B} (R : relation B) (key : A → B) : relation A :=
  λ x y, R (key x) (key y).

Definition ordered_by {A B} (R : relation B) (key : A → B) : list A → Prop :=
  StronglySorted (by_key R key).

#[export] Instance by_key_dec {A B} (R : relation B) `{!RelDecision R}
  (key : A → B) : RelDecision (by_key R key).
Proof. rewrite /by_key=> ??. apply _. Defined.

#[export] Instance by_key_trans {A B} (R : relation B) `{!Transitive R}
  (key : A → B) : Transitive (by_key R key).
Proof. rewrite /by_key=> x y z ??. by trans (key y). Qed.

#[export] Instance by_key_total {A B} (R : relation B) `{!Total R}
  (key : A → B) : Total (by_key R key).
Proof. rewrite /by_key=> x y. apply (total R). Qed.

#[export] Instance ordered_by_dec {A B} (R : relation B) `{!RelDecision R}
  (key : A → B) l : Decision (ordered_by R key l).
Proof. rewrite /ordered_by. apply _. Defined.

(** Sorting by a key yields a list ordered by that key. *)
Lemma merge_sort_ordered_by {A B} (R : relation B)
    `{!RelDecision R, !Transitive R, !Total R} (key : A → B) (l : list A) :
  ordered_by R key (merge_sort (by_key R key) l).
Proof. apply StronglySorted_merge_sort; apply _. Qed.

Section ordered.
Context {A B : Type} (R : relation B) (key : A → B).
Implicit Types (l : list A) (x : A).

Lemma ordered_by_sublist l1 l2 :
  l1 `sublist_of` l2 → ordered_by R key l2 → ordered_by R key l1.
Proof.
  rewrite /ordered_by. intros Hsub.
  induction Hsub as [|x l1 l2 Hsub IH|x l1 l2 Hsub IH];
    rewrite ?StronglySorted_cons; [done| |by intros [_ ?%IH]].
  intros [Hx ?]. split; [|by apply IH].
  apply Forall_forall=> y Hy. rewrite ->Forall_forall in Hx.
  by eapply Hx, elem_of_sublist.
Qed.

Lemma ordered_by_filter (P : A → Prop) `{!∀ x, Decision (P x)} l :
  ordered_by R key l → ordered_by R key (filter P l).
Proof. apply ordered_by_sublist, sublist_filter. Qed.

(** On an ordered list, [find] returns a least element among the matches. *)
Lemma array_find_ordered_least `{!Reflexive R}
    (P : A → Prop) `{!∀ x, Decision (P x)} l x y :
  ordered_by R key l → array_find P l = Some x → y ∈ l → P y →
  R (key x) (key y).
Proof.
  intros Hl (l1 & l2 & -> & Hx & Hl1)%array_find_Some Hy HPy.
  apply StronglySorted_app_1_r, StronglySorted_cons in Hl as [Hl2 _].
  apply elem_of_app in Hy as [Hy|[->|Hy]%elem_of_cons]; [|done|].
  - by eapply Forall_forall in Hl1.
  - by eapply Forall_forall in Hl2.
Qed.

End ordered.

#[export] Hint Resolve ordered_by_sublist ordered_by_filter : sidebar.

(** Blocks laid out along an ordered list of keys, each block holding elements
    of its key only, form an ordered list. *)
Lemma ordered_by_mjoin {A K} (R : relation K) `{!Reflexive R} (key : A → K)
    (block : K → list A) (ks : list K) :
  (∀ k x, x ∈ block k → key x = k) →
  StronglySorted R ks → ordered_by R key (mjoin (block <$> ks)).
Proof.
  rewrite /ordered_by /by_key.
  intros Hblock. induction 1 as [|k ks _ IH Hk]; [constructor|].
  rewrite fmap_cons /=. apply StronglySorted_app_2; [|clear IH Hk|done].
  - intros x y ->%Hblock (l & Hy & (k' & -> & Hk')%list_elem_of_fmap)%list_elem_of_join.
    apply Hblock in Hy as ->. by eapply Forall_forall in Hk.
  - assert (Forall (λ x, key x = k) (block k)) as Hall.
    { apply Forall_forall=> x. apply Hblock. }
    induction Hall as [|x l Hx Hl IHl]; constructor; [done|].
    eapply Forall_impl; [done|]. by intros y ->; rewrite /= Hx.
Qed.

(** ** Grouping a list by a key

    [l.filter(x => key(x) === k)] for each [k] of a list of keys: the groups are
    pairwise disjoint, and together they are the list again, up to order. *)

Section group_by.
Context {A K : Type} `{!EqDecision K} (key : A → K).
Implicit Types (l : list A) (k : K) (ks : list K).

Definition having_key k l : list A := filter (λ x, key x = k) l.

Definition groups ks l : list (list A) := (λ k, having_key k l) <$> ks.

Lemma elem_of_having_key k l x : x ∈ having_key k l ↔ key x = k ∧ x ∈ l.
Proof. by rewrite /having_key list_elem_of_filter. Qed.

Lemma having_key_nil k : having_key k [] = [].
Proof. done. Qed.

Lemma having_key_cons k x l :
  having_key k (x :: l) =
  if decide (key x = k) then x :: having_key k l else having_key k l.
Proof. by rewrite /having_key filter_cons. Qed.

Lemma having_key_disjoint k1 k2 l :
  k1 ≠ k2 → having_key k1 l ## having_key k2 l.
Proof. intros ? x [??]%elem_of_having_key [??]%elem_of_having_key. congruence. Qed.

Lemma having_key_fresh k x l :
  key x ≠ k → having_key k (x :: l) = having_key k l.
Proof. intros. rewrite having_key_cons. by case_decide. Qed.

Lemma groups_cons_notin ks x l :
  key x ∉ ks → groups ks (x :: l) = groups ks l.
Proof.
  intros Hx. apply list_fmap_ext=> i k Hk. apply having_key_fresh.
  intros <-. apply Hx. by eapply list_elem_of_lookup_2.
Qed.

Lemma groups_cons_Permutation ks x l :
  NoDup ks → key x ∈ ks → mjoin (groups ks (x :: l)) ≡ₚ x :: mjoin (groups ks l).
Proof.
  induction 1 as [|k ks Hk ? IH]; [by intros ?%elem_of_nil|].
  rewrite /= having_key_cons -/(groups ks (x :: l)) -/(groups ks l).
  intros [<-|Hx]%elem_of_cons.
  - by rewrite decide_True // groups_cons_notin.
  - rewrite decide_False; last by intros <-.
    by rewrite IH // Permutation_middle.
Qed.

(** The groups of a duplicate-free list of keys that covers the keys of [l]
    are [l] again, up to order. *)
Lemma groups_Permutation ks l :
  NoDup ks → Forall (λ x, key x ∈ ks) l → mjoin (groups ks l) ≡ₚ l.
Proof.
  intros Hks. induction 1 as [|x l Hx _ IH].
  - rewrite /groups. induction ks as [|k ks IHks]; [done|].
    apply NoDup_cons in Hks as [_ ?]. by rewrite /= IHks.
  - by rewrite groups_cons_Permutation // IH.
Qed.

Lemma groups_length ks l :
  NoDup ks → Forall (λ x, key x ∈ ks) l →
  sum_list (length <$> groups ks l) = length l.
Proof.
  intros Hks Hl. by rewrite -length_join groups_Permutation.
Qed.

End group_by.
