(* ===== verification/Schema.v ===== *)
(** * Schema: the records the sidebar reads

    The view imports [ChannelType] and [MemberRole] from the ORM client and
    receives a server with its channels and members from one query.  This file
    holds those types as the view sees them: the two enumerations, and of each
    record the columns [server-sidebar.tsx] reads ([id], [name], [type],
    [createdAt], [role], [profileId], [profile.name]) plus the foreign key
    [serverId] the join needs.  The schema itself is outside [src/], so the
    types follow the data model of the specification.

    It also fixes the order the database sorts roles in (the order the
    enumeration declares them) and states the integrity a stored server has
    ([ServerIntegrity]): primary keys are unique, rows belong to the server,
    a member carries the profile its foreign key names, and a profile id
    names one profile. *)

From S2P Require Import Prelude.
Set Warnings "-rewrite-rw".

(** ** Enumerations *)

Inductive ChannelType := TEXT | AUDIO | VIDEO | SLATE | TODO.

Inductive MemberRole := ADMIN | MODERATOR | GUEST.

#[export] Instance ChannelType_eq_dec : EqDecision ChannelType.
Proof. solve_decision. Defined.

#[export] Instance MemberRole_eq_dec : EqDecision MemberRole.
Proof. solve_decision. Defined.

#[export] Instance ChannelType_finite : Finite ChannelType.
Proof.
  refine {| enum := [TEXT; AUDIO; VIDEO; SLATE; TODO] |}.
  - decide_it.
  - intros []; set_solver.
Defined.

#[export] Instance MemberRole_finite : Finite MemberRole.
Proof.
  refine {| enum := [ADMIN; MODERATOR; GUEST] |}.
  - decide_it.
  - intros []; set_solver.
Defined.

(** The value of an enumeration member at run time is its name: the view
    compares a role with the literals ["ADMIN"] and ["MODERATOR"]. *)
Definition MemberRole_value (r : MemberRole) : string :=
  match r with
  | ADMIN => "ADMIN"
  | MODERATOR => "MODERATOR"
  | GUEST => "GUEST"
  end.

(** [orderBy: { role: "asc" }] sorts by the position of the role in the
    enumeration. *)
Definition role_rank (r : MemberRole) : nat :=
  match r with
  | ADMIN => 0
  | MODERATOR => 1
  | GUEST => 2
  end.

Definition role_le : relation MemberRole := λ r1 r2, role_rank r1 ≤ role_rank r2.

(** ** Records *)

Record Profile := mkProfile {
  profile_id : string;
  profile_name : string;
}.

Record Channel := mkChannel {
  channel_id : string;
  channel_name : string;
  channel_type : ChannelType;
  channel_createdAt : Z;
  channel_serverId : string;
}.

(** A member as the query returns it, joined to its profile
    ([include: { profile: true }]). *)
Record Member := mkMember {
  member_id : string;
  member_role : MemberRole;
  member_profileId : string;
  member_serverId : string;
  member_profile : Profile;
}.

Record Server := mkServer {
  server_id : string;
  server_name : string;
  server_channels : list Channel;
  server_members : list Member;
}.

#[export] Instance Profile_eq_dec : EqDecision Profile.
Proof. solve_decision. Defined.

#[export] Instance Channel_eq_dec : EqDecision Channel.
Proof. solve_decision. Defined.

#[export] Instance Member_eq_dec : EqDecision Member.
Proof. solve_decision. Defined.

#[export] Instance Server_eq_dec : EqDecision Server.
Proof. solve_decision. Defined.

(** ** Integrity of a stored server *)

Record ServerIntegrity (s : Server) : Prop := {
  channel_ids_unique : NoDup (channel_id <$> server_channels s);
  member_ids_unique : NoDup (member_id <$> server_members s);
  channels_owned : Forall (λ c, channel_serverId c = server_id s) (server_channels s);
  members_owned : Forall (λ m, member_serverId m = server_id s) (server_members s);
  members_joined :
    Forall (λ m, profile_id (member_profile m) = member_profileId m) (server_members s);
  profiles_functional :
    Forall (λ m1, Forall (λ m2,
      member_profileId m1 = member_profileId m2 →
      member_profile m1 = member_profile m2) (server_members s))
      (server_members s);
}.

(** The viewer's membership rows of a server. *)
Definition memberships (viewer : Profile) (s : Server) : list Member :=
  filter (λ m, member_profileId m = profile_id viewer) (server_members s).

(** Two members with the same profile id carry the same profile. *)
Lemma same_profile (l : list Member) (m1 m2 : Member) :
  Forall (λ m1, Forall (λ m2,
    member_profileId m1 = member_profileId m2 →
    member_profile m1 = member_profile m2) l) l →
  m1 ∈ l → m2 ∈ l → member_profileId m1 = member_profileId m2 →
  member_profile m1 = member_profile m2.
Proof.
  rewrite Forall_forall=> Hl Hm1 Hm2. specialize (Hl m1 Hm1).
  rewrite ->Forall_forall in Hl. by apply Hl.
Qed.

Lemma profiles_functional_intro (l : list Member) :
  (∀ m1 m2, m1 ∈ l → m2 ∈ l → member_profileId m1 = member_profileId m2 →
            member_profile m1 = member_profile m2) →
  Forall (λ m1, Forall (λ m2,
    member_profileId m1 = member_profileId m2 →
    member_profile m1 = member_profile m2) l) l.
Proof.
  intros Hl. apply Forall_forall=> m1 ?. apply Forall_forall=> m2 ?. by apply Hl.
Qed.

(** ** The order on roles *)

#[export] Instance role_le_dec : RelDecision role_le.
Proof. rewrite /role_le=> ??. apply _. Defined.

#[export] Instance role_le_po : PartialOrder role_le.
Proof.
  rewrite /role_le. split; [split|].
  - by intros ?.
  - intros ???. lia.
  - intros [] []; simpl; (done || lia).
Qed.

#[export] Instance role_le_total : Total role_le.
Proof. rewrite /role_le=> ??. lia. Qed.

Lemma role_le_ADMIN r : role_le ADMIN r.
Proof. rewrite /role_le /=. lia. Qed.

Lemma role_le_GUEST r : role_le r GUEST.
Proof. rewrite /role_le. destruct r; simpl; lia. Qed.

#[export] Instance MemberRole_value_inj : Inj (=) (=) MemberRole_value.
Proof. by intros [] []. Qed.

(** Comparing a possibly missing role with an enumeration literal is comparing
    it with the enumeration member. *)
Lemma role_value_eq (role : option MemberRole) (r : MemberRole) :
  MemberRole_value <$> role = Some (MemberRole_value r) ↔ role = Some r.
Proof.
  destruct role as [r'|]; simpl; [|done].
  split; [by intros [= ->%(inj _)]|by intros [= ->]].
Qed.

#[export] Instance ServerIntegrity_dec s : Decision (ServerIntegrity s).
Proof.
  refine (cast_if (decide (
    NoDup (channel_id <$> server_channels s) ∧
    NoDup (member_id <$> server_members s) ∧
    Forall (λ c, channel_serverId c = server_id s) (server_channels s) ∧
    Forall (λ m, member_serverId m = server_id s) (server_members s) ∧
    Forall (λ m, profile_id (member_profile m) = member_profileId m)
      (server_members s) ∧
    Forall (λ m1, Forall (λ m2,
      member_profileId m1 = member_profileId m2 →
      member_profile m1 = member_profile m2) (server_members s))
      (server_members s)))).
  - abstract (by destruct_and!; split).
  - abstract (intros []; naive_solver).
Defined.

(** ** Servers up to the order of their rows

    The order in which the rows of a server are held is an accident of the
    store; two servers are equivalent when they have the same id, the same
    name and the same channels and members in some order. *)

#[export] Instance Server_equiv : Equiv Server := λ s1 s2,
  server_id s1 = server_id s2 ∧ server_name s1 = server_name s2 ∧
  server_channels s1 ≡ₚ server_channels s2 ∧
  server_members s1 ≡ₚ server_members s2.

#[export] Instance Server_equivalence : Equivalence (≡@{Server}).
Proof.
  split.
  - done.
  - by intros s1 s2 (? & ? & ? & ?).
  - intros s1 s2 s3 (? & ? & ? & ?) (? & ? & ? & ?).
    split_and!; by etrans.
Qed.

#[export] Instance server_id_proper : Proper ((≡) ==> (=)) server_id.
Proof. by intros s1 s2 (? & _). Qed.

#[export] Instance server_channels_proper : Proper ((≡) ==> (≡ₚ)) server_channels.
Proof. by intros s1 s2 (_ & _ & ? & _). Qed.

#[export] Instance server_members_proper : Proper ((≡) ==> (≡ₚ)) server_members.
Proof. by intros s1 s2 (_ & _ & _ & ?). Qed.

#[export] Instance memberships_proper viewer :
  Proper ((≡) ==> (≡ₚ)) (memberships viewer).
Proof. intros s1 s2 Hs. by rewrite /memberships Hs. Qed.

(** The integrity of a server does not depend on the order of its rows. *)
#[export] Instance ServerIntegrity_proper : Proper ((≡) ==> iff) ServerIntegrity.
Proof.
  assert (∀ s1 s2, s1 ≡ s2 → ServerIntegrity s1 → ServerIntegrity s2) as Hone.
  { intros s1 s2 Hs [Hc Hm Hco Hmo Hj Hf].
    pose proof Hs as (Hid & _ & Hcs & Hms).
    split; rewrite -?Hid -?Hcs -?Hms //.
    apply profiles_functional_intro=> m1 m2 Hm1 Hm2.
    rewrite <-Hms in Hm1, Hm2. by apply (same_profile _ m1 m2 Hf). }
  intros s1 s2 Hs. split; apply Hone; [done|by symmetry].
Qed.

#[export] Hint Resolve role_le_ADMIN role_le_GUEST : sidebar.
