(* ===== verification/Fixtures.v ===== *)
(** * Fixtures: concrete profiles and servers

    The inputs the witnesses of the development evaluate the view on.  [hub]
    is the server of the specification's example (channels TEXT, TEXT, AUDIO);
    [studio] has a channel of every type, a viewer with two memberships and
    members in ascending role order; [solo] has the viewer as its only member
    and no channel. *)

From S2P Require Import Prelude Schema.
Set Warnings "-rewrite-rw".

Open Scope Z_scope.

Definition alice : Profile := mkProfile "p-alice" "Alice".
Definition bob : Profile := mkProfile "p-bob" "Bob".
Definition carol : Profile := mkProfile "p-carol" "Carol".
Definition dave : Profile := mkProfile "p-dave" "Dave".

Definition general : Channel := mkChannel "c-general" "general" TEXT 100 "s-hub".
Definition random : Channel := mkChannel "c-random" "random" TEXT 200 "s-hub".
Definition lounge : Channel := mkChannel "c-lounge" "lounge" AUDIO 300 "s-hub".

Definition hub_alice : Member := mkMember "m-1" ADMIN "p-alice" "s-hub" alice.
Definition hub_bob : Member := mkMember "m-2" MODERATOR "p-bob" "s-hub" bob.
Definition hub_carol : Member := mkMember "m-3" GUEST "p-carol" "s-hub" carol.

Definition hub : Server :=
  mkServer "s-hub" "Hub" [general; random; lounge] [hub_alice; hub_bob; hub_carol].

Definition news : Channel := mkChannel "c-news" "news" TEXT 10 "s-studio".
Definition standup : Channel := mkChannel "c-standup" "standup" VIDEO 20 "s-studio".
Definition board : Channel := mkChannel "c-board" "board" SLATE 30 "s-studio".
Definition backlog : Channel := mkChannel "c-backlog" "backlog" TODO 40 "s-studio".
Definition radio : Channel := mkChannel "c-radio" "radio" AUDIO 50 "s-studio".
Definition sprint : Channel := mkChannel "c-sprint" "sprint" TODO 60 "s-studio".

Definition studio_alice : Member := mkMember "m-10" ADMIN "p-alice" "s-studio" alice.
Definition studio_bob : Member := mkMember "m-11" MODERATOR "p-bob" "s-studio" bob.
Definition studio_bob_guest : Member := mkMember "m-12" GUEST "p-bob" "s-studio" bob.
Definition studio_carol : Member := mkMember "m-13" GUEST "p-carol" "s-studio" carol.

Definition studio : Server :=
  mkServer "s-studio" "Studio"
    [news; standup; board; backlog; radio; sprint]
    [studio_alice; studio_bob; studio_bob_guest; studio_carol].

Definition solo_alice : Member := mkMember "m-20" ADMIN "p-alice" "s-solo" alice.

Definition solo : Server := mkServer "s-solo" "Solo" [] [solo_alice].

Close Scope Z_scope.

Lemma hub_integrity : ServerIntegrity hub.
Proof. decide_it. Qed.

Lemma studio_integrity : ServerIntegrity studio.
Proof. decide_it. Qed.

Lemma solo_integrity : ServerIntegrity solo.
Proof. decide_it. Qed.

Lemma studio_channels_ordered :
  ordered_by Z.le channel_createdAt (server_channels studio).
Proof. decide_it. Qed.

Lemma studio_members_ordered :
  ordered_by role_le member_role (server_members studio).
Proof. decide_it. Qed.
