(* ===== verification/Partition.v ===== *)
(** * Partition: the channel groups, the member list and the viewer's role

    [server-sidebar.tsx], lines 77-101: once the viewer and the server are
    known the view derives seven values from them by [filter] and [find]:
    the channels of each of the five types, the members other than the viewer,
    and the role of the viewer's membership.  Each is one definition here, with
    the predicate of the source.  The optional chaining [server?.channels] of
    the source is plain access: the guard before it has returned when the
    server is missing.

    The theorems say that the five groups partition the channels (nothing lost,
    nothing twice, order kept), that the member list is the members without
    every row of the viewer, and that the role is that of the first membership
    of the viewer, which on a list ordered by role is the most privileged. *)

From S2P Require Import Prelude Schema Fixtures.
Set Warnings "-rewrite-rw".

Section partition.
Context (server : Server) (profile : Profile).

Definition textChannels : list Channel :=
  filter (λ channel, channel_type channel = TEXT) (server_channels server).

Definition audioChannels : list Channel :=
  filter (λ channel, channel_type channel = AUDIO) (server_channels server).

Definition videoChannels : list Channel :=
  filter (λ channel, channel_type channel = VIDEO) (server_channels server).

Definition slateChannels : list Channel :=
  filter (λ channel, channel_type channel = SLATE) (server_channels server).

Definition members : list Member :=
  filter (λ member, member_profileId member ≠ profile_id profile)
    (server_members server).

Definition todoChannels : list Channel :=
  filter (λ channel, channel_type channel = TODO) (server_channels server).

Definition role : option MemberRole :=
  member_role <$>
    array_find (λ member, member_profileId member = profile_id profile)
      (server_members server).

End partition.

(** The group the view builds for a channel type. *)
Definition channelsOfType (t : ChannelType) (server : Server) : list Channel :=
  match t with
  | TEXT => textChannels server
  | AUDIO => audioChannels server
  | VIDEO => videoChannels server
  | SLATE => slateChannels server
  | TODO => todoChannels server
  end.

(** ** The channel groups *)

Section channel_groups.
Context (server : Server).
Implicit Types (t : ChannelType) (c : Channel).

Lemma channelsOfType_having_key t :
  channelsOfType t server = having_key channel_type t (server_channels server).
Proof. by destruct t. Qed.

Lemma channelsOfType_groups :
  [textChannels server; audioChannels server; videoChannels server;
   slateChannels server; todoChannels server]
  = groups channel_type (enum ChannelType) (server_channels server).
Proof. done. Qed.

Lemma elem_of_channelsOfType t c :
  c ∈ channelsOfType t server ↔ c ∈ server_channels server ∧ channel_type c = t.
Proof. rewrite channelsOfType_having_key elem_of_having_key. tauto. Qed.

(** The five groups, concatenated in the order the view renders them, are the
    channels of the server up to order. *)
Lemma channels_partition :
  textChannels server ++ audioChannels server ++ videoChannels server ++
  slateChannels server ++ todoChannels server ≡ₚ server_channels server.
Proof.
  etrans; [|apply (groups_Permutation channel_type (enum ChannelType))].
  - by rewrite -channelsOfType_groups /= app_nil_r.
  - apply NoDup_enum.
  - apply Forall_forall=> c _. apply elem_of_enum.
Qed.

Lemma channelsOfType_sublist t :
  channelsOfType t server `sublist_of` server_channels server.
Proof. rewrite channelsOfType_having_key. apply sublist_filter. Qed.

#[local] Hint Resolve channelsOfType_sublist : sidebar.

(** Every channel of the server is in the group of exactly one type, its
    own: no channel is dropped by the grouping and none is shown under two
    headings. *)
Lemma channel_in_one_group c :
  c ∈ server_channels server →
  ∀ t, c ∈ channelsOfType t server ↔ t = channel_type c.
Proof.
  intros Hc t. rewrite elem_of_channelsOfType.
  split; [by intros [_ <-]|by intros ->].
Qed.

(** The groups of two different types share no channel. *)
Lemma channelsOfType_disjoint t1 t2 :
  t1 ≠ t2 → channelsOfType t1 server ## channelsOfType t2 server.
Proof. rewrite !channelsOfType_having_key. apply having_key_disjoint. Qed.

(** The sizes of the five groups add up to the number of channels of the
    server. *)
Lemma channels_partition_length :
  length (textChannels server) + length (audioChannels server) +
  length (videoChannels server) + length (slateChannels server) +
  length (todoChannels server) = length (server_channels server).
Proof. rewrite -channels_partition !length_app. lia. Qed.

(** When the query returns the channels by ascending creation time, every
    group is in ascending creation time. *)
Lemma channelsOfType_ordered t :
  ordered_by Z.le channel_createdAt (server_channels server) →
  ordered_by Z.le channel_createdAt (channelsOfType t server).
Proof. eauto with sidebar. Qed.

(** Channel ids are unique within a group when they are unique in the
    server. *)
Lemma channelsOfType_ids_unique t :
  NoDup (channel_id <$> server_channels server) →
  NoDup (channel_id <$> channelsOfType t server).
Proof.
  intros Hnd. eapply sublist_NoDup; [done|].
  apply fmap_sublist. auto with sidebar.
Qed.

End channel_groups.

(** ** The member list *)

Section member_list.
Context (server : Server) (profile : Profile).
Implicit Types (m : Member).

Lemma elem_of_members m :
  m ∈ members server profile ↔
  m ∈ server_members server ∧ member_profileId m ≠ profile_id profile.
Proof. rewrite /members list_elem_of_filter. tauto. Qed.

Lemma elem_of_memberships m :
  m ∈ memberships profile server ↔
  m ∈ server_members server ∧ member_profileId m = profile_id profile.
Proof. rewrite /memberships list_elem_of_filter. tauto. Qed.

Lemma members_sublist :
  members server profile `sublist_of` server_members server.
Proof. apply sublist_filter. Qed.

(** No entry of the member list has the viewer's profile, whatever the
    number of membership rows the viewer has in the server. *)
Lemma members_exclude_viewer :
  Forall (λ m, member_profileId m ≠ profile_id profile) (members server profile).
Proof. apply Forall_forall=> m. by intros [_ ?]%elem_of_members. Qed.

(** The member list and the viewer's own memberships are the members of the
    server, up to order: the view drops the viewer's rows and nothing else. *)
Lemma members_memberships_partition :
  members server profile ++ memberships profile server ≡ₚ server_members server.
Proof.
  rewrite Permutation_app_comm /members /memberships.
  apply: filter_app_complement.
Qed.

(** A viewer who has no membership in the server sees every member. *)
Lemma members_of_outsider :
  memberships profile server = [] → members server profile = server_members server.
Proof. intros Hout%filter_nil_Forall. by apply filter_all. Qed.

(** A server whose every member is the viewer has an empty member list. *)
Lemma members_only_viewer :
  Forall (λ m, member_profileId m = profile_id profile) (server_members server) →
  members server profile = [].
Proof.
  intros Hall. apply filter_none. eapply Forall_impl; [done|].
  by intros m Heq Hne.
Qed.

End member_list.

(** The member list of equivalent servers, which hold the same rows in
    another order, is the same up to order. *)
Lemma members_equiv (server1 server2 : Server) (profile : Profile) :
  server1 ≡ server2 → members server1 profile ≡ₚ members server2 profile.
Proof. intros Hs. by rewrite /members Hs. Qed.

(** ** The viewer's role *)

Section viewer_role.
Context (server : Server) (profile : Profile).
Implicit Types (m : Member) (r : MemberRole).

Lemma role_head_memberships :
  role server profile = member_role <$> head (memberships profile server).
Proof. by rewrite /role array_find_head_filter. Qed.

Lemma role_None :
  role server profile = None ↔ memberships profile server = [].
Proof. rewrite role_head_memberships fmap_None. apply head_None. Qed.

(** A defined role is the role of one of the viewer's memberships. *)
Lemma role_Some_inv r :
  role server profile = Some r →
  ∃ m, m ∈ memberships profile server ∧ member_role m = r.
Proof.
  rewrite role_head_memberships fmap_Some. intros (m & Hm%head_Some_elem_of & ->).
  by exists m.
Qed.

(** Whatever order the query sorts the roles in, the role found is the
    first in that order among the roles of the viewer's memberships. *)
Lemma role_least (R : relation MemberRole) `{!Reflexive R} r m :
  ordered_by R member_role (server_members server) →
  role server profile = Some r →
  m ∈ memberships profile server →
  R r (member_role m).
Proof.
  rewrite /role fmap_Some. intros Hord (m' & Hfind & ->) [??]%elem_of_memberships.
  by eapply (array_find_ordered_least R member_role).
Qed.

(** On members ordered by role, the role found is below the role of every
    membership of the viewer. *)
Lemma role_le_membership r m :
  ordered_by role_le member_role (server_members server) →
  role server profile = Some r →
  m ∈ memberships profile server →
  role_le r (member_role m).
Proof. apply: role_least. Qed.

(** The role is defined exactly when some member of the server has the
    viewer's profile; a viewer who is not a member has no role. *)
Lemma role_defined_iff_member :
  is_Some (role server profile) ↔
  ∃ m, m ∈ server_members server ∧ member_profileId m = profile_id profile.
Proof.
  rewrite -not_eq_None_Some role_None. setoid_rewrite <-elem_of_memberships.
  destruct (memberships profile server) as [|m ms]; split; try done.
  - by intros (? & ?%elem_of_nil).
  - intros _. exists m. by left.
Qed.

(** A defined role is the role of a membership row of the viewer in this
    server. *)
Lemma role_Some_membership r :
  role server profile = Some r →
  ∃ m, m ∈ server_members server ∧
       member_profileId m = profile_id profile ∧ member_role m = r.
Proof. intros (m & [??]%elem_of_memberships & ?)%role_Some_inv. by exists m. Qed.

(** A viewer with exactly one membership gets the role of that membership. *)
Lemma role_unique_membership m :
  memberships profile server = [m] → role server profile = Some (member_role m).
Proof. rewrite role_head_memberships. by intros ->. Qed.

(** C19: when the query returns the members by ascending role, the role of a
    viewer with several memberships is the most privileged of them: it is the
    role of one of the viewer's memberships and it is below the role of each. *)
Theorem role_most_privileged r :
  ordered_by role_le member_role (server_members server) →
  role server profile = Some r →
  (∃ m, m ∈ memberships profile server ∧ member_role m = r) ∧
  Forall (λ m, role_le r (member_role m)) (memberships profile server).
Proof.
  intros Hord Hr. split; [by apply role_Some_inv|].
  apply Forall_forall=> m. by apply role_le_membership.
Qed.

End viewer_role.

(** ** Witnesses *)

Lemma role_most_privileged_witness :
  ordered_by role_le member_role (server_members studio) ∧
  role studio bob = Some MODERATOR ∧
  (∃ m, m ∈ memberships bob studio ∧ member_role m = MODERATOR) ∧
  Forall (λ m, role_le MODERATOR (member_role m)) (memberships bob studio).
Proof.
  split; [exact studio_members_ordered|]. split; [reflexivity|].
  exact (role_most_privileged studio bob MODERATOR studio_members_ordered
    eq_refl).
Defined.

(** The order of the roles is an assumption about the database: were roles
    compared by name (ADMIN, GUEST, MODERATOR) the members of the studio
    would come in another order, and bob, moderator and guest, would be
    given the role of a guest. *)
Example role_ordered_by_name :
  let byName (r : MemberRole) : nat :=
    match r with ADMIN => 0 | GUEST => 1 | MODERATOR => 2 end in
  let members := [studio_alice; studio_bob_guest; studio_carol; studio_bob] in
  ordered_by le (byName ∘ member_role) members ∧
  members ≡ₚ server_members studio ∧
  role (mkServer "s-studio" "Studio" (server_channels studio) members) bob
    = Some GUEST.
Proof. split_and!; [decide_it..|done]. Qed.
