(* ===== verification/Search.v ===== *)
(** * Search: the icon tables and the search index

    [server-sidebar.tsx], lines 29-43 and 109-166.  [iconMap] and [roleIconMap]
    are JavaScript objects keyed by the values of the two enumerations; they
    are finite maps from strings here, and [obj[key]] is a lookup that yields
    [undefined] for a missing key.  The index handed to the search box is a
    list of six groups, one per channel type and one for the members, each
    entry carrying an id, a name and the icon looked up by type or role.

    The theorems say that the icon table has an entry for every channel type
    and a different one for each, that a guest gets [null] where the other
    roles get a shield, that the index lists, group by group and in the
    order of the query, exactly the channels and members the sections show,
    and that the id of an entry finds the channel the entry came from. *)

From stdpp Require Import gmap.
From S2P Require Import Prelude Schema Fixtures Partition.
Set Warnings "-rewrite-rw".

(** ** Icons *)

(** The icon components the view imports from the icon library. *)
Inductive LucideIcon :=
  Hash | Mic | PenLine | ShieldAlert | ShieldCheck | Video | ListTodo.

(** What an icon table yields: an element [<Icon className=... />], [null], or
    [undefined] for a key the table does not have. *)
Inductive IconNode :=
  | icon_element (component : LucideIcon) (className : string)
  | icon_null
  | icon_undefined.

#[export] Instance LucideIcon_eq_dec : EqDecision LucideIcon.
Proof. solve_decision. Defined.

#[export] Instance IconNode_eq_dec : EqDecision IconNode.
Proof. solve_decision. Defined.

(** The run-time value of a channel type is its name. *)
Definition ChannelType_value (t : ChannelType) : string :=
  match t with
  | TEXT => "TEXT"
  | AUDIO => "AUDIO"
  | VIDEO => "VIDEO"
  | SLATE => "SLATE"
  | TODO => "TODO"
  end.

(** [obj[key]] on an object of icons. *)
Definition object_get (obj : gmap string IconNode) (key : string) : IconNode :=
  default icon_undefined (obj !! key).

Definition iconMap : gmap string IconNode :=
  list_to_map [
    (ChannelType_value TEXT, icon_element Hash "mr-2 h-4 w-4");
    (ChannelType_value AUDIO, icon_element Mic "mr-2 h-4 w-4");
    (ChannelType_value VIDEO, icon_element Video "mr-2 h-4 w-4");
    (ChannelType_value SLATE, icon_element PenLine "mr-2 h-4 w-4");
    (ChannelType_value TODO, icon_element ListTodo "mr-2 h-4 w-4")
  ].

Definition roleIconMap : gmap string IconNode :=
  list_to_map [
    (MemberRole_value ADMIN, icon_element ShieldAlert "w-4 h-4 mr-2 text-rose-500");
    (MemberRole_value MODERATOR,
      icon_element ShieldCheck "w-4 h-4 mr-2 text-indigo-500");
    (MemberRole_value GUEST, icon_null)
  ].

(** ** The search index *)

Inductive SearchType := search_channel | search_member.

Record SearchEntry := mkSearchEntry {
  entry_id : string;
  entry_name : string;
  entry_icon : IconNode;
}.

Record SearchGroup := mkSearchGroup {
  search_label : string;
  search_type : SearchType;
  search_data : list SearchEntry;
}.

#[export] Instance SearchType_eq_dec : EqDecision SearchType.
Proof. solve_decision. Defined.

#[export] Instance SearchEntry_eq_dec : EqDecision SearchEntry.
Proof. solve_decision. Defined.

#[export] Instance SearchGroup_eq_dec : EqDecision SearchGroup.
Proof. solve_decision. Defined.

(** The entry of a channel: the arrow function of the five channel groups. *)
Definition channelEntry (channel : Channel) : SearchEntry :=
  {| entry_id := channel_id channel;
     entry_name := channel_name channel;
     entry_icon := object_get iconMap (ChannelType_value (channel_type channel)) |}.

(** The entry of a member: the arrow function of the member group. *)
Definition memberEntry (member : Member) : SearchEntry :=
  {| entry_id := member_id member;
     entry_name := profile_name (member_profile member);
     entry_icon := object_get roleIconMap (MemberRole_value (member_role member)) |}.

Definition searchData (server : Server) (profile : Profile) : list SearchGroup := [
  {| search_label := "Text Channel";
     search_type := search_channel;
     search_data := channelEntry <$> textChannels server |};
  {| search_label := "Voice Channel";
     search_type := search_channel;
     search_data := channelEntry <$> audioChannels server |};
  {| search_label := "Video Channel";
     search_type := search_channel;
     search_data := channelEntry <$> videoChannels server |};
  {| search_label := "Visualization Channel";
     search_type := search_channel;
     search_data := channelEntry <$> slateChannels server |};
  {| search_label := "Todo Channel";
     search_type := search_channel;
     search_data := channelEntry <$> todoChannels server |};
  {| search_label := "Members";
     search_type := search_member;
     search_data := memberEntry <$> members server profile |}
].

(** The channel an id names: what following a search entry looks up. *)
Definition channelById (server : Server) (id : string) : option Channel :=
  array_find (λ channel, channel_id channel = id) (server_channels server).

(** The icon component of a channel type, as the table should have it. *)
Definition channelIcon (t : ChannelType) : LucideIcon :=
  match t with
  | TEXT => Hash
  | AUDIO => Mic
  | VIDEO => Video
  | SLATE => PenLine
  | TODO => ListTodo
  end.

(** The entries of the index of one kind, over all groups, in order. *)
Definition entriesOfType (k : SearchType) (gs : list SearchGroup) : list SearchEntry :=
  mjoin (search_data <$> filter (λ g, search_type g = k) gs).

(** ** The icon tables *)

#[export] Instance ChannelType_value_inj : Inj (=) (=) ChannelType_value.
Proof. by intros [] []. Qed.

#[export] Instance channelIcon_inj : Inj (=) (=) channelIcon.
Proof. by intros [] []. Qed.

(** The icon table has an entry for every channel type: the lookup by a
    channel's type is the icon element of that type, with the class the table
    gives every channel icon, never [undefined]. *)
Lemma iconMap_total t :
  object_get iconMap (ChannelType_value t) =
  icon_element (channelIcon t) "mr-2 h-4 w-4".
Proof. by destruct t. Qed.

(** Channels of different types get different icons. *)
Lemma iconMap_distinct t1 t2 :
  object_get iconMap (ChannelType_value t1) =
  object_get iconMap (ChannelType_value t2) → t1 = t2.
Proof. by destruct t1, t2. Qed.

(** The role table gives administrators and moderators a shield element and
    guests [null]; it has an entry for every role. *)
Lemma roleIconMap_spec r :
  object_get roleIconMap (MemberRole_value r) =
  match r with
  | ADMIN => icon_element ShieldAlert "w-4 h-4 mr-2 text-rose-500"
  | MODERATOR => icon_element ShieldCheck "w-4 h-4 mr-2 text-indigo-500"
  | GUEST => icon_null
  end.
Proof. by destruct r. Qed.

(** C38: every search entry gets its icon from a table that has the key: the
    icon of a channel entry is the icon element of the channel's type, never
    [undefined]; the icon of a member entry is the shield of an administrator
    or of a moderator, and [null] for a guest, who has no icon. *)
Theorem entry_icons_total :
  (∀ channel, entry_icon (channelEntry channel) =
     icon_element (channelIcon (channel_type channel)) "mr-2 h-4 w-4") ∧
  (∀ member, entry_icon (memberEntry member) =
     match member_role member with
     | ADMIN => icon_element ShieldAlert "w-4 h-4 mr-2 text-rose-500"
     | MODERATOR => icon_element ShieldCheck "w-4 h-4 mr-2 text-indigo-500"
     | GUEST => icon_null
     end).
Proof. split; intros ?; [apply iconMap_total|apply roleIconMap_spec]. Qed.

(** A key that is not the value of a channel type is [undefined] in the icon
    table. *)
Lemma iconMap_undefined key :
  (∀ t, key ≠ ChannelType_value t) → object_get iconMap key = icon_undefined.
Proof.
  intros Hkey. rewrite /object_get /iconMap.
  rewrite (not_elem_of_list_to_map_1 _ key) //=.
  rewrite !not_elem_of_cons.
  repeat split; [exact (Hkey TEXT)|exact (Hkey AUDIO)|exact (Hkey VIDEO)|
                 exact (Hkey SLATE)|exact (Hkey TODO)|apply not_elem_of_nil].
Qed.

(** ** The search index *)

Section search_index.
Context (server : Server) (profile : Profile).
Implicit Types (t : ChannelType) (e : SearchEntry) (c : Channel) (m : Member).

Lemma searchData_channel_entries :
  entriesOfType search_channel (searchData server profile) =
  channelEntry <$> (textChannels server ++ audioChannels server ++
    videoChannels server ++ slateChannels server ++ todoChannels server).
Proof. by rewrite /entriesOfType /= app_nil_r !fmap_app. Qed.

(** The member entries of the index are the entries of the member list, in its
    order. *)
Lemma searchData_member_entries :
  entriesOfType search_member (searchData server profile) =
  memberEntry <$> members server profile.
Proof. by rewrite /entriesOfType /= app_nil_r. Qed.

(** The channel entries of the index are the entries of the channels of
    the server, up to order: every channel can be found, once. *)
Lemma searchData_channels_complete :
  entriesOfType search_channel (searchData server profile) ≡ₚ
  channelEntry <$> server_channels server.
Proof. by rewrite searchData_channel_entries channels_partition. Qed.

(** The index has as many entries as the server has channels and members
    other than the viewer. *)
Lemma searchData_size :
  sum_list ((length ∘ search_data) <$> searchData server profile) =
  length (server_channels server) + length (members server profile).
Proof. rewrite -channels_partition /= !length_fmap !length_app. lia. Qed.

(** Every entry of the group of a channel type carries the icon of that
    type. *)
Lemma channelEntry_icon t e :
  e ∈ channelEntry <$> channelsOfType t server →
  entry_icon e = icon_element (channelIcon t) "mr-2 h-4 w-4".
Proof.
  intros (c & -> & [_ <-]%elem_of_channelsOfType)%list_elem_of_fmap.
  rewrite /channelEntry /=. by destruct (channel_type c).
Qed.

(** C35: a search entry leads back to its channel: when channel ids are unique,
    looking the id of a channel entry of the index up among the channels of
    the server finds the channel the entry was built from. *)
Theorem search_entry_roundtrip e :
  NoDup (channel_id <$> server_channels server) →
  e ∈ entriesOfType search_channel (searchData server profile) →
  ∃ c, channelById server (entry_id e) = Some c ∧ channelEntry c = e.
Proof.
  rewrite searchData_channel_entries channels_partition.
  intros Hnd (c & -> & Hc)%list_elem_of_fmap. exists c. split; [|done].
  by apply (array_find_unique channel_id).
Qed.

(** The ids of the channel entries are distinct when channel ids are unique in
    the server. *)
Lemma searchData_channel_ids_unique :
  NoDup (channel_id <$> server_channels server) →
  NoDup (entry_id <$> entriesOfType search_channel (searchData server profile)).
Proof.
  rewrite searchData_channel_entries channels_partition -list_fmap_compose.
  by rewrite (list_fmap_ext (entry_id ∘ channelEntry) channel_id _ _).
Qed.

(** No member entry of the index is a membership of the viewer. *)
Lemma searchData_excludes_viewer m :
  NoDup (member_id <$> server_members server) →
  m ∈ memberships profile server →
  member_id m ∉ entry_id <$> entriesOfType search_member (searchData server profile).
Proof.
  rewrite searchData_member_entries -list_fmap_compose.
  intros Hnd [Hm Hviewer]%elem_of_memberships
    (m' & Hid & [Hm' Hother]%elem_of_members)%list_elem_of_fmap.
  by rewrite (NoDup_fmap_eq member_id (server_members server) m m') in Hviewer.
Qed.

End search_index.

(** ** Witnesses *)

Lemma search_entry_roundtrip_witness :
  NoDup (channel_id <$> server_channels hub) ∧
  channelEntry lounge ∈ entriesOfType search_channel (searchData hub bob) ∧
  ∃ c, channelById hub (entry_id (channelEntry lounge)) = Some c ∧
       channelEntry c = channelEntry lounge.
Proof.
  assert (channelEntry lounge ∈ entriesOfType search_channel (searchData hub bob))
    as Hin by decide_it.
  split; [exact (channel_ids_unique _ hub_integrity)|]. split; [exact Hin|].
  exact (search_entry_roundtrip hub bob _ (channel_ids_unique _ hub_integrity) Hin).
Defined.
