(* ===== verification/View.v ===== *)
(** * View: the element tree of the sidebar

    [server-sidebar.tsx], lines 104-303.  The JSX the component returns is a
    value of [Element]: one constructor per component the file uses, with the
    props the file passes, plus the two values JSX children can be besides
    elements, [false] (what [cond && <X/>] leaves when [cond] fails) and an
    array (what [list.map(...)] yields).  Each conditional block of the source
    is one definition ([textSection] ... [membersSection]) and [sidebarView]
    is the whole tree.  What the tree shows is the subject of [Rendered]. *)

From S2P Require Import Prelude Schema Fixtures Partition Search.
Set Warnings "-rewrite-rw".

(** ** Elements *)

Inductive SectionType := section_channels | section_members.

(** The props the view passes to a section header; [server] is passed by the
    member section only. *)
Record ServerSectionProps := mkServerSectionProps {
  section_sectionType : SectionType;
  section_channelType : ChannelType;
  section_role : option MemberRole;
  section_label : string;
  section_server : option Server;
}.

(** The props of a channel row, with its React key; [isTodo] is passed by the
    todo section only. *)
Record ServerChannelProps := mkServerChannelProps {
  chan_key : string;
  chan_channel : Channel;
  chan_role : option MemberRole;
  chan_server : Server;
  chan_isTodo : option bool;
}.

(** The props of a member row, with its React key. *)
Record ServerMemberProps := mkServerMemberProps {
  memb_key : string;
  memb_member : Member;
  memb_server : Server;
}.

#[local] Set Warnings "-register-all".
Inductive Element :=
  | JsxFalse
  | JsxArray (items : list Element)
  | Div (className : string) (children : list Element)
  | ScrollArea (className : string) (children : list Element)
  | Separator (className : string)
  | ServerHeader (server : Server) (role : option MemberRole)
  | ServerSearch (data : list SearchGroup)
  | ServerSection (props : ServerSectionProps)
  | ServerChannel (props : ServerChannelProps)
  | ServerMember (props : ServerMemberProps)
  | OverallProgress.

(** [cond && element] in JSX. *)
Definition jsx_and (cond : bool) (element : Element) : Element :=
  if cond then element else JsxFalse.

Infix "&&&" := jsx_and (at level 40, left associativity) : sidebar_scope.
Open Scope sidebar_scope.

(** ** The sections *)

Section sections.
Context (server : Server) (profile : Profile) (role : option MemberRole).

(** [role === "ADMIN" || role === "MODERATOR"], on the run-time values. *)
Definition canSeeProgress : bool :=
  bool_decide (MemberRole_value <$> role = Some "ADMIN") ||
  bool_decide (MemberRole_value <$> role = Some "MODERATOR").

Definition textSection : Element :=
  truthy_length (textChannels server) &&&
  Div "mb-2" [
    ServerSection {|
      section_sectionType := section_channels;
      section_channelType := TEXT;
      section_role := role;
      section_label := "Text Channels";
      section_server := None |};
    Div "space-y-[2px]" [
      JsxArray ((λ channel,
        ServerChannel {|
          chan_key := channel_id channel;
          chan_channel := channel;
          chan_role := role;
          chan_server := server;
          chan_isTodo := None |})
        <$> textChannels server)]].

Definition audioSection : Element :=
  truthy_length (audioChannels server) &&&
  Div "mb-2" [
    ServerSection {|
      section_sectionType := section_channels;
      section_channelType := AUDIO;
      section_role := role;
      section_label := "Voice Channels";
      section_server := None |};
    Div "space-y-[2px]" [
      JsxArray ((λ channel,
        ServerChannel {|
          chan_key := channel_id channel;
          chan_channel := channel;
          chan_role := role;
          chan_server := server;
          chan_isTodo := None |})
        <$> audioChannels server)]].

Definition videoSection : Element :=
  truthy_length (videoChannels server) &&&
  Div "mb-2" [
    ServerSection {|
      section_sectionType := section_channels;
      section_channelType := VIDEO;
      section_role := role;
      section_label := "Video Channels";
      section_server := None |};
    Div "space-y-[2px]" [
      JsxArray ((λ channel,
        ServerChannel {|
          chan_key := channel_id channel;
          chan_channel := channel;
          chan_role := role;
          chan_server := server;
          chan_isTodo := None |})
        <$> videoChannels server)]].

Definition slateSection : Element :=
  truthy_length (slateChannels server) &&&
  Div "mb-2" [
    ServerSection {|
      section_sectionType := section_channels;
      section_channelType := SLATE;
      section_role := role;
      section_label := "Visualisation Channels";
      section_server := None |};
    Div "space-y-[2px]" [
      JsxArray ((λ channel,
        ServerChannel {|
          chan_key := channel_id channel;
          chan_channel := channel;
          chan_role := role;
          chan_server := server;
          chan_isTodo := None |})
        <$> slateChannels server)]].

Definition todoSection : Element :=
  truthy_length (todoChannels server) &&&
  Div "mb-2" [
    ServerSection {|
      section_sectionType := section_channels;
      section_channelType := TODO;
      section_role := role;
      section_label := "Todo Channels";
      section_server := None |};
    canSeeProgress &&& OverallProgress;
    Div "space-y-[2px]" [
      JsxArray ((λ channel,
        ServerChannel {|
          chan_key := channel_id channel;
          chan_channel := channel;
          chan_role := role;
          chan_server := server;
          chan_isTodo := Some true |})
        <$> todoChannels server)]].

Definition membersSection : Element :=
  truthy_length (members server profile) &&&
  Div "mb-2" [
    ServerSection {|
      section_sectionType := section_members;
      section_channelType := VIDEO;
      section_role := role;
      section_label := "Members";
      section_server := Some server |};
    Div "space-y-[2px]" [
      JsxArray ((λ member,
        ServerMember {|
          memb_key := member_id member;
          memb_member := member;
          memb_server := server |})
        <$> members server profile)]].

End sections.

(** The tree the component returns for a viewer and a server. *)
Definition sidebarView (server : Server) (profile : Profile) : Element :=
  let role := role server profile in
  Div "flex flex-col h-full text-primary w-full dark:bg-[#2B2D31] bg-[#F2F3F5]" [
    ServerHeader server role;
    ScrollArea "flex-1 px-3" [
      Div "mt-2" [ServerSearch (searchData server profile)];
      Separator "bg-zinc-200 dark:bg-zinc-700 rounded-md my-2";
      textSection server role;
      audioSection server role;
      videoSection server role;
      slateSection server role;
      todoSection server role;
      membersSection server profile role]].
