(* ===== verification/Rendered.v ===== *)
(** * Rendered: what the element tree shows

    [nodes] lists the elements of a tree of [View] in document order, leaving
    out [false] and splicing arrays, as the renderer does; [renderedSections],
    [renderedChannels], [renderedMembers] and [renderedProgress] read off it
    what the user sees.  [channelSection] is the common form of the five
    channel sections of the source, so that a fact about the sections is
    proved once.

    The theorems: the section headers of the view, in order; the rows of each
    section; every channel has one row and rows are grouped by type; the
    progress widget is shown to administrators and moderators of a server
    with todo channels; the viewer has no member row; rows are neither lost
    nor added; and the search box lists what the sections show. *)

From S2P Require Import Prelude Schema Fixtures Partition Search View.
Set Warnings "-rewrite-rw".

(** ** What is rendered *)

(** The elements of a tree in document order: [false] renders nothing and the
    items of an array are rendered in place. *)
Fixpoint nodes (e : Element) : list Element :=
  match e with
  | JsxFalse => []
  | JsxArray items => flat_map nodes items
  | Div _ children | ScrollArea _ children => e :: flat_map nodes children
  | _ => [e]
  end.

(** The selectors of the four kinds of element the user sees. *)
Definition selSection (n : Element) : option ServerSectionProps :=
  if n is ServerSection props then Some props else None.

Definition selChannel (n : Element) : option ServerChannelProps :=
  if n is ServerChannel props then Some props else None.

Definition selMember (n : Element) : option ServerMemberProps :=
  if n is ServerMember props then Some props else None.

Definition selProgress (n : Element) : option () :=
  if n is OverallProgress then Some () else None.

Definition renderedSections (e : Element) : list ServerSectionProps :=
  omap selSection (nodes e).

Definition renderedChannels (e : Element) : list ServerChannelProps :=
  omap selChannel (nodes e).

Definition renderedMembers (e : Element) : list ServerMemberProps :=
  omap selMember (nodes e).

(** How many progress widgets the tree shows. *)
Definition renderedProgress (e : Element) : nat :=
  length (omap selProgress (nodes e)).

(** A selector that picks none of the layout elements. *)
Class Leafy {B} (sel : Element → option B) : Prop := {
  leafy_Div className children : sel (Div className children) = None;
  leafy_ScrollArea className children : sel (ScrollArea className children) = None;
  leafy_Separator className : sel (Separator className) = None;
  leafy_ServerHeader server role : sel (ServerHeader server role) = None;
  leafy_ServerSearch data : sel (ServerSearch data) = None;
}.

#[export] Instance selSection_leafy : Leafy selSection.
Proof. by split. Qed.

#[export] Instance selChannel_leafy : Leafy selChannel.
Proof. by split. Qed.

#[export] Instance selMember_leafy : Leafy selMember.
Proof. by split. Qed.

#[export] Instance selProgress_leafy : Leafy selProgress.
Proof. by split. Qed.

(** ** The sections in one form

    The five channel sections differ in the group, the type, the label, the
    flag of the rows and, for the todo section, the progress widget between
    the header and the rows.  [channelSection] is that common form. *)

Definition channelSectionProps (role : option MemberRole) (label : string)
    (t : ChannelType) : ServerSectionProps :=
  {| section_sectionType := section_channels;
     section_channelType := t;
     section_role := role;
     section_label := label;
     section_server := None |}.

Definition channelRowProps (server : Server) (role : option MemberRole)
    (isTodo : option bool) (channel : Channel) : ServerChannelProps :=
  {| chan_key := channel_id channel;
     chan_channel := channel;
     chan_role := role;
     chan_server := server;
     chan_isTodo := isTodo |}.

Definition memberRowProps (server : Server) (member : Member) : ServerMemberProps :=
  {| memb_key := member_id member;
     memb_member := member;
     memb_server := server |}.

Definition membersSectionProps (server : Server) (role : option MemberRole) :
    ServerSectionProps :=
  {| section_sectionType := section_members;
     section_channelType := VIDEO;
     section_role := role;
     section_label := "Members";
     section_server := Some server |}.

Definition channelSection (t : ChannelType) (label : string)
    (extra : list Element) (isTodo : option bool)
    (server : Server) (role : option MemberRole) : Element :=
  truthy_length (channelsOfType t server) &&&
  Div "mb-2" (
    ServerSection (channelSectionProps role label t) :: extra ++
    [Div "space-y-[2px]" [
      JsxArray (ServerChannel ∘ channelRowProps server role isTodo
        <$> channelsOfType t server)]]).

(** The label of the section of a channel type. *)
Definition sectionLabel (t : ChannelType) : string :=
  match t with
  | TEXT => "Text Channels"
  | AUDIO => "Voice Channels"
  | VIDEO => "Video Channels"
  | SLATE => "Visualisation Channels"
  | TODO => "Todo Channels"
  end.

(** The channel section of a type, as the view writes it. *)
Definition sectionOfType (t : ChannelType) (server : Server)
    (role : option MemberRole) : Element :=
  match t with
  | TEXT => textSection server role
  | AUDIO => audioSection server role
  | VIDEO => videoSection server role
  | SLATE => slateSection server role
  | TODO => todoSection server role
  end.

(** What a channel section of the view has between its header and its rows. *)
Definition sectionExtra (t : ChannelType) (role : option MemberRole) : list Element :=
  if t is TODO then [canSeeProgress role &&& OverallProgress] else [].

Definition sectionIsTodo (t : ChannelType) : option bool :=
  if t is TODO then Some true else None.

(** The position of a channel type in the order the view lays the sections
    out. *)
Definition typeRank (t : ChannelType) : nat :=
  match t with
  | TEXT => 0
  | AUDIO => 1
  | VIDEO => 2
  | SLATE => 3
  | TODO => 4
  end.

(** ** Traversal lemmas *)

Lemma nodes_jsx_and b e : nodes (b &&& e) = if b then nodes e else [].
Proof. by destruct b. Qed.

Lemma flat_map_nodes_leaves {A} (f : A → Element) (l : list A) :
  (∀ x, nodes (f x) = [f x]) → flat_map nodes (f <$> l) = f <$> l.
Proof. intros Hf. induction l as [|x l IH]; [done|]. by rewrite /= Hf IH. Qed.

Lemma flat_map_nodes_app es1 es2 :
  flat_map nodes (es1 ++ es2) = flat_map nodes es1 ++ flat_map nodes es2.
Proof. apply flat_map_app. Qed.

(** Each section of the view is an instance of the common form. *)
Lemma sectionOfType_channelSection t server role :
  sectionOfType t server role =
  channelSection t (sectionLabel t) (sectionExtra t role) (sectionIsTodo t)
    server role.
Proof. by destruct t. Qed.

Lemma nodes_channelSection t label extra isTodo server role :
  nodes (channelSection t label extra isTodo server role) =
  if truthy_length (channelsOfType t server) then
    Div "mb-2" (ServerSection (channelSectionProps role label t) :: extra ++
      [Div "space-y-[2px]" [JsxArray
        (ServerChannel ∘ channelRowProps server role isTodo
          <$> channelsOfType t server)]]) ::
    ServerSection (channelSectionProps role label t) ::
    flat_map nodes extra ++
    Div "space-y-[2px]" [JsxArray
      (ServerChannel ∘ channelRowProps server role isTodo
        <$> channelsOfType t server)] ::
    (ServerChannel ∘ channelRowProps server role isTodo
      <$> channelsOfType t server)
  else [].
Proof.
  rewrite /channelSection nodes_jsx_and. case_match; [|done].
  rewrite /= flat_map_nodes_app /= !app_nil_r. do 4 f_equal.
  by apply flat_map_nodes_leaves.
Qed.

Lemma nodes_membersSection server profile role :
  nodes (membersSection server profile role) =
  if truthy_length (members server profile) then
    Div "mb-2" [
      ServerSection (mkServerSectionProps section_members VIDEO role "Members"
        (Some server));
      Div "space-y-[2px]" [JsxArray
        (ServerMember ∘ memberRowProps server <$> members server profile)]] ::
    ServerSection (mkServerSectionProps section_members VIDEO role "Members"
      (Some server)) ::
    Div "space-y-[2px]" [JsxArray
      (ServerMember ∘ memberRowProps server <$> members server profile)] ::
    (ServerMember ∘ memberRowProps server <$> members server profile)
  else [].
Proof.
  rewrite /membersSection nodes_jsx_and. case_match; [|done].
  rewrite /= !app_nil_r. do 3 f_equal. by apply flat_map_nodes_leaves.
Qed.

(** ** Selecting from the view *)

Section select.
Context {B : Type} (sel : Element → option B) `{!Leafy sel}.

Lemma select_channelSection t label extra isTodo server role :
  omap sel (nodes (channelSection t label extra isTodo server role)) =
  if truthy_length (channelsOfType t server) then
    omap sel [ServerSection (channelSectionProps role label t)] ++
    omap sel (flat_map nodes extra) ++
    omap sel (ServerChannel ∘ channelRowProps server role isTodo
      <$> channelsOfType t server)
  else [].
Proof.
  rewrite nodes_channelSection. case_match; [|done].
  rewrite !omap_cons !omap_app !omap_cons !leafy_Div.
  by destruct (sel (ServerSection _)).
Qed.

Lemma select_membersSection server profile role :
  omap sel (nodes (membersSection server profile role)) =
  if truthy_length (members server profile) then
    omap sel [ServerSection (mkServerSectionProps section_members VIDEO role
      "Members" (Some server))] ++
    omap sel (ServerMember ∘ memberRowProps server <$> members server profile)
  else [].
Proof.
  rewrite nodes_membersSection. case_match; [|done].
  rewrite !omap_cons !leafy_Div. by destruct (sel (ServerSection _)).
Qed.

Lemma select_sidebarView server profile :
  omap sel (nodes (sidebarView server profile)) =
  mjoin ((λ t, omap sel (nodes (sectionOfType t server (role server profile))))
    <$> enum ChannelType) ++
  omap sel (nodes (membersSection server profile (role server profile))).
Proof.
  rewrite /sidebarView. cbn [nodes flat_map app].
  rewrite !omap_cons !omap_app !leafy_Div leafy_ServerHeader leafy_ScrollArea
    leafy_ServerSearch leafy_Separator /= !app_nil_r.
  by rewrite -!app_assoc.
Qed.

End select.

(** ** What each section shows *)

Section section_contents.
Context (server : Server) (profile : Profile) (role : option MemberRole).
Implicit Types (t : ChannelType).

Lemma select_sectionExtra {B} (sel : Element → option B) t :
  sel OverallProgress = None → omap sel (flat_map nodes (sectionExtra t role)) = [].
Proof.
  intros Hsel. destruct t; try done.
  rewrite /=. by case canSeeProgress; rewrite /= ?Hsel.
Qed.

Lemma sections_sectionOfType t :
  renderedSections (sectionOfType t server role) =
  if truthy_length (channelsOfType t server)
  then [channelSectionProps role (sectionLabel t) t] else [].
Proof.
  rewrite /renderedSections sectionOfType_channelSection select_channelSection.
  case_match; [|done]. by rewrite select_sectionExtra // omap_fmap_None.
Qed.

Lemma channels_sectionOfType t :
  renderedChannels (sectionOfType t server role) =
  channelRowProps server role (sectionIsTodo t) <$> channelsOfType t server.
Proof.
  rewrite /renderedChannels sectionOfType_channelSection select_channelSection.
  case_match eqn:Hlen.
  - rewrite select_sectionExtra //.
    by rewrite (omap_fmap_Some _ _ (channelRowProps server role (sectionIsTodo t))).
  - by apply truthy_length_false in Hlen as ->.
Qed.

Lemma members_sectionOfType t :
  renderedMembers (sectionOfType t server role) = [].
Proof.
  rewrite /renderedMembers sectionOfType_channelSection select_channelSection.
  case_match; [|done]. by rewrite select_sectionExtra // omap_fmap_None.
Qed.

Lemma progress_sectionOfType t :
  omap selProgress (nodes (sectionOfType t server role)) =
  if truthy_length (channelsOfType t server) && bool_decide (t = TODO) &&
     canSeeProgress role
  then [()] else [].
Proof.
  rewrite sectionOfType_channelSection select_channelSection.
  case_match; [|done]. rewrite omap_fmap_None //=.
  destruct t; try done. rewrite /=. by case canSeeProgress.
Qed.

Lemma sections_membersSection :
  renderedSections (membersSection server profile role) =
  if truthy_length (members server profile)
  then [membersSectionProps server role] else [].
Proof.
  rewrite /renderedSections select_membersSection.
  case_match; [|done]. by rewrite omap_fmap_None.
Qed.

Lemma channels_membersSection :
  renderedChannels (membersSection server profile role) = [].
Proof.
  rewrite /renderedChannels select_membersSection.
  case_match; [|done]. by rewrite omap_fmap_None.
Qed.

Lemma members_membersSection :
  renderedMembers (membersSection server profile role) =
  memberRowProps server <$> members server profile.
Proof.
  rewrite /renderedMembers select_membersSection. case_match eqn:Hlen.
  - by rewrite (omap_fmap_Some _ _ (memberRowProps server)).
  - by apply truthy_length_false in Hlen as ->.
Qed.

Lemma progress_membersSection :
  omap selProgress (nodes (membersSection server profile role)) = [].
Proof.
  rewrite select_membersSection. case_match; [|done]. by rewrite omap_fmap_None.
Qed.

End section_contents.

(** ** What the view shows *)

Lemma canSeeProgress_spec role :
  canSeeProgress role = true ↔ role = Some ADMIN ∨ role = Some MODERATOR.
Proof.
  rewrite /canSeeProgress orb_true_iff !bool_decide_eq_true.
  by rewrite (role_value_eq role ADMIN) (role_value_eq role MODERATOR).
Qed.

Section rendered_view.
Context (server : Server) (profile : Profile).
Implicit Types (t : ChannelType) (row : ServerChannelProps).

(** C7: the view shows one section header per non-empty channel group, in the
    order TEXT, AUDIO, VIDEO, SLATE, TODO whatever the order of the channels,
    each with the label of its type and the viewer's role, followed by the
    header of the member section when the member list is not empty; an empty
    group or an empty member list has no header. *)
Theorem renderedSections_sidebarView :
  renderedSections (sidebarView server profile) =
  ((λ t, channelSectionProps (role server profile) (sectionLabel t) t) <$>
    filter (λ t, channelsOfType t server ≠ []) (enum ChannelType)) ++
  (if decide (members server profile = []) then []
   else [membersSectionProps server (role server profile)]).
Proof.
  rewrite /renderedSections select_sidebarView -!/(renderedSections _). f_equal.
  - rewrite (list_fmap_ext _ _ _ (λ _ t _, sections_sectionOfType server _ t)).
    rewrite mjoin_if_singleton. f_equal. apply list_filter_iff=> t.
    by rewrite Is_true_true truthy_length_true.
  - rewrite sections_membersSection. case_decide as Hm.
    + by apply truthy_length_false in Hm as ->.
    + by apply truthy_length_true in Hm as ->.
Qed.

(** The channel rows of the view are, in document order, the rows of the text,
    audio, video, slate and todo channels; each row carries the channel, its
    id as key, the viewer's role and the server, and the todo rows alone carry
    the [isTodo] flag. *)
Lemma renderedChannels_sidebarView :
  renderedChannels (sidebarView server profile) =
  mjoin ((λ t, channelRowProps server (role server profile) (sectionIsTodo t)
            <$> channelsOfType t server) <$> enum ChannelType).
Proof.
  rewrite /renderedChannels select_sidebarView -!/(renderedChannels _).
  rewrite channels_membersSection app_nil_r. f_equal.
  apply list_fmap_ext=> _ t _. apply channels_sectionOfType.
Qed.

(** The member rows of the view are the rows of the member list, in its order,
    each with the member, its id as key and the server. *)
Lemma renderedMembers_sidebarView :
  renderedMembers (sidebarView server profile) =
  memberRowProps server <$> members server profile.
Proof.
  rewrite /renderedMembers select_sidebarView -!/(renderedMembers _).
  rewrite members_membersSection.
  by rewrite (list_fmap_ext _ (λ _, []) _ (λ _ t _, members_sectionOfType server _ t)).
Qed.

(** C9: the view shows the progress widget once when the server has a todo
    channel and the viewer's role is ADMIN or MODERATOR, and not at all
    otherwise (a guest, a viewer without membership, a server without todo
    channel). *)
Theorem renderedProgress_sidebarView :
  renderedProgress (sidebarView server profile) =
  if decide (todoChannels server ≠ [] ∧
             (role server profile = Some ADMIN ∨
              role server profile = Some MODERATOR))
  then 1 else 0.
Proof.
  rewrite /renderedProgress select_sidebarView progress_membersSection app_nil_r.
  rewrite (list_fmap_ext _ _ _ (λ _ t _, progress_sectionOfType server _ t)) /=.
  rewrite !app_nil_r !andb_false_r /= andb_true_r.
  case_decide as Hshow.
  - destruct Hshow as [->%truthy_length_true ->%canSeeProgress_spec]. done.
  - case_match eqn:Hb; [|done]. destruct Hshow.
    apply andb_true_iff in Hb as [?%truthy_length_true ?%canSeeProgress_spec].
    done.
Qed.

End rendered_view.

(** ** Consequences for the user *)

#[local] Instance typeRank_le_refl :
  Reflexive (λ t1 t2 : ChannelType, typeRank t1 ≤ typeRank t2).
Proof. by intros ?. Qed.

Section user_view.
Context (server : Server) (profile : Profile).
Implicit Types (t : ChannelType) (row : ServerChannelProps) (c : Channel).

Lemma renderedChannels_channels :
  chan_channel <$> renderedChannels (sidebarView server profile) =
  textChannels server ++ audioChannels server ++ videoChannels server ++
  slateChannels server ++ todoChannels server.
Proof.
  rewrite renderedChannels_sidebarView /= app_nil_r !fmap_app -!list_fmap_compose.
  by rewrite !list_fmap_id.
Qed.

Lemma elem_of_renderedChannels row :
  row ∈ renderedChannels (sidebarView server profile) ↔
  ∃ t c, c ∈ channelsOfType t server ∧
    row = channelRowProps server (role server profile) (sectionIsTodo t) c.
Proof.
  rewrite renderedChannels_sidebarView list_elem_of_join. split.
  - intros (l & Hrow & (t & -> & _)%list_elem_of_fmap).
    apply list_elem_of_fmap in Hrow as (c & -> & ?). by exists t, c.
  - intros (t & c & ? & ->). eexists. split; [by apply list_elem_of_fmap_2|].
    apply list_elem_of_fmap. exists t. split; [done|apply elem_of_enum].
Qed.

Lemma filter_rows_of_type role t t' :
  filter (λ row, channel_type (chan_channel row) = t)
    (channelRowProps server role (sectionIsTodo t') <$> channelsOfType t' server) =
  if decide (t' = t)
  then channelRowProps server role (sectionIsTodo t') <$> channelsOfType t' server
  else [].
Proof.
  case_decide as Ht; [apply filter_all|apply filter_none];
    apply Forall_fmap, Forall_forall; intros c [_ Hc]%elem_of_channelsOfType;
    simpl; congruence.
Qed.

(** The rows of one type are the rows of the group of that type. *)
Lemma rows_of_type t :
  filter (λ row, channel_type (chan_channel row) = t)
    (renderedChannels (sidebarView server profile)) =
  channelRowProps server (role server profile) (sectionIsTodo t)
    <$> channelsOfType t server.
Proof.
  rewrite renderedChannels_sidebarView filter_mjoin -list_fmap_compose.
  rewrite (list_fmap_ext _ _ _ (λ _ t' _, filter_rows_of_type _ t t')).
  by destruct t; rewrite /= ?app_nil_r.
Qed.

(** C8: every channel of the server has a row in the view and no channel has
    two: the channels of the rows are the channels of the server, up to
    order. *)
Theorem rendered_channels_complete :
  chan_channel <$> renderedChannels (sidebarView server profile) ≡ₚ
  server_channels server.
Proof. by rewrite renderedChannels_channels channels_partition. Qed.

(** C20: the rows appear grouped by type in the order TEXT, AUDIO, VIDEO, SLATE,
    TODO, whatever the order in which the query returned the channels. *)
Theorem rendered_channels_grouped :
  ordered_by le (typeRank ∘ channel_type ∘ chan_channel)
    (renderedChannels (sidebarView server profile)).
Proof.
  rewrite renderedChannels_sidebarView.
  apply (ordered_by_mjoin (λ t1 t2, typeRank t1 ≤ typeRank t2)
    (channel_type ∘ chan_channel)); [|decide_it].
  intros t row (c & -> & [_ ?]%elem_of_channelsOfType)%list_elem_of_fmap. done.
Qed.

(** A row carries the [isTodo] flag exactly when its channel is a todo
    channel. *)
Lemma rendered_channel_isTodo row :
  row ∈ renderedChannels (sidebarView server profile) →
  chan_isTodo row = Some true ↔ channel_type (chan_channel row) = TODO.
Proof.
  intros (t & c & [_ <-]%elem_of_channelsOfType & ->)%elem_of_renderedChannels.
  rewrite /=. by destruct (channel_type c).
Qed.

(** Every row is keyed by the id of its channel and receives the viewer's
    role and the server. *)
Lemma rendered_channel_props row :
  row ∈ renderedChannels (sidebarView server profile) →
  chan_key row = channel_id (chan_channel row) ∧
  chan_role row = role server profile ∧ chan_server row = server.
Proof. by intros (t & c & _ & ->)%elem_of_renderedChannels. Qed.

Lemma renderedChannels_keys :
  chan_key <$> renderedChannels (sidebarView server profile) =
  channel_id <$> (chan_channel <$> renderedChannels (sidebarView server profile)).
Proof.
  rewrite -list_fmap_compose. apply list_fmap_ext.
  by intros _ row (t & c & _ & ->)%list_elem_of_lookup_2%elem_of_renderedChannels.
Qed.

(** The keys of the channel rows are distinct, over all sections, when channel
    ids are unique in the server. *)
Lemma rendered_channel_keys_unique :
  NoDup (channel_id <$> server_channels server) →
  NoDup (chan_key <$> renderedChannels (sidebarView server profile)).
Proof.
  by rewrite renderedChannels_keys renderedChannels_channels channels_partition.
Qed.

(** C10: the viewer has no row in the member section, whatever the number of
    memberships of the viewer. *)
Theorem rendered_members_exclude_viewer :
  Forall (λ props, member_profileId (memb_member props) ≠ profile_id profile)
    (renderedMembers (sidebarView server profile)).
Proof.
  rewrite renderedMembers_sidebarView Forall_fmap.
  apply Forall_forall=> m. by intros [_ ?]%elem_of_members.
Qed.

(** The members of the member rows are the member list. *)
Lemma renderedMembers_members :
  memb_member <$> renderedMembers (sidebarView server profile) =
  members server profile.
Proof.
  by rewrite renderedMembers_sidebarView -list_fmap_compose list_fmap_id.
Qed.

(** The keys of the member rows are distinct when member ids are unique in the
    server. *)
Lemma rendered_member_keys_unique :
  NoDup (member_id <$> server_members server) →
  NoDup (memb_key <$> renderedMembers (sidebarView server profile)).
Proof.
  rewrite renderedMembers_sidebarView -list_fmap_compose. intros Hnd.
  eapply sublist_NoDup; [done|]. apply fmap_sublist, members_sublist.
Qed.

(** C23: the view has a row for every channel and for every member but the
    viewer's own memberships, and no other row: the rows number the channels
    of the server, and the member rows and the viewer's memberships together
    number its members. *)
Theorem rendered_rows_count :
  length (renderedChannels (sidebarView server profile)) =
    length (server_channels server) ∧
  length (renderedMembers (sidebarView server profile)) +
    length (memberships profile server) = length (server_members server).
Proof.
  split.
  - by rewrite -(length_fmap chan_channel) renderedChannels_channels
      channels_partition.
  - rewrite renderedMembers_sidebarView length_fmap -length_app.
    rewrite Permutation_app_comm /members /memberships.
    by rewrite filter_app_complement.
Qed.

(** C36: the search box lists what the sections show, in the same order: the
    ids of its channel entries are the keys of the channel rows, and the ids
    of its member entries are the keys of the member rows. *)
Theorem search_matches_rows :
  entry_id <$> entriesOfType search_channel (searchData server profile) =
    chan_key <$> renderedChannels (sidebarView server profile) ∧
  entry_id <$> entriesOfType search_member (searchData server profile) =
    memb_key <$> renderedMembers (sidebarView server profile).
Proof.
  split.
  - rewrite searchData_channel_entries -renderedChannels_channels.
    by rewrite renderedChannels_keys -!list_fmap_compose.
  - by rewrite searchData_member_entries renderedMembers_sidebarView
      -!list_fmap_compose.
Qed.

End user_view.

(** The header of the member section carries the channel type VIDEO, whether
    or not the server has a video channel. *)
Section members_header.
Context (server : Server) (profile : Profile).

(** Whenever the member section is shown, its header is passed the channel
    type VIDEO, also on a server without video channel. *)
Lemma membersSection_channelType :
  members server profile ≠ [] →
  ∃ props, props ∈ renderedSections (sidebarView server profile) ∧
    section_sectionType props = section_members ∧
    section_channelType props = VIDEO.
Proof.
  intros Hm%truthy_length_true.
  exists (membersSectionProps server (role server profile)). split; [|done].
  rewrite /renderedSections select_sidebarView -!/(renderedSections _).
  apply elem_of_app. right. rewrite sections_membersSection Hm. by left.
Qed.

End members_header.
