(* ===== verification/Model.v ===== *)
(** * Model: the panel of the specification, and the view as its implementation

    The specification describes the sidebar by what it shows: a header, a
    search index, then a block per non-empty channel group in the order of
    the channel types, each a section header over its rows, then a block of
    the other members.  [Panel] is that description as data and [spec.panel]
    builds it from a server and a viewer, step by step as the specification
    words it: groups by the value of the type, the member list as the members
    without the viewer's memberships, the viewer's role as that of the first
    membership, icons as functions of the enumerations.

    [abstract] reads a panel off an element tree: the headers and search
    boxes among its nodes, and a block for every container that starts with a
    section header, with the rows found below it.  The refinement theorem says
    that the tree the component builds abstracts to the panel of the
    specification; the theorems after it are read off the panel: rows are
    under the header of their own kind, there is one block per kind, and the
    blocks do not depend on the order in which the channels were fetched. *)

From S2P Require Import Prelude Schema Fixtures Partition Search View Rendered.
Set Warnings "-rewrite-rw".

(** ** Panels *)

Inductive Row :=
  | RowProgress
  | RowChannel (props : ServerChannelProps)
  | RowMember (props : ServerMemberProps).

Record Block := mkBlock {
  block_header : ServerSectionProps;
  block_rows : list Row;
}.

Record Panel := mkPanel {
  panel_headers : list (Server * option MemberRole);
  panel_searches : list (list SearchGroup);
  panel_blocks : list Block;
}.

(** ** The abstraction *)

Definition selRow (n : Element) : option Row :=
  match n with
  | OverallProgress => Some RowProgress
  | ServerChannel props => Some (RowChannel props)
  | ServerMember props => Some (RowMember props)
  | _ => None
  end.

(** A block is a container whose first child is a section header; its rows
    are the rows among the nodes of the other children. *)
Definition selBlock (n : Element) : option Block :=
  match n with
  | Div _ (ServerSection header :: rest) =>
      Some (mkBlock header (omap selRow (flat_map nodes rest)))
  | _ => None
  end.

Definition selHeader (n : Element) : option (Server * option MemberRole) :=
  if n is ServerHeader server role then Some (server, role) else None.

Definition selSearch (n : Element) : option (list SearchGroup) :=
  if n is ServerSearch data then Some data else None.

Definition abstract (e : Element) : Panel :=
  {| panel_headers := omap selHeader (nodes e);
     panel_searches := omap selSearch (nodes e);
     panel_blocks := omap selBlock (nodes e) |}.

(** What a row is a row of. *)
Inductive RowKind := KindChannel (t : ChannelType) | KindMember.

#[export] Instance RowKind_eq_dec : EqDecision RowKind.
Proof. solve_decision. Defined.

Definition headerKind (header : ServerSectionProps) : RowKind :=
  match section_sectionType header with
  | section_channels => KindChannel (section_channelType header)
  | section_members => KindMember
  end.

Definition rowKind (row : Row) : RowKind :=
  match row with
  | RowProgress => KindChannel TODO
  | RowChannel props => KindChannel (channel_type (chan_channel props))
  | RowMember _ => KindMember
  end.

(** The position of a kind in the panel. *)
Definition kindRank (k : RowKind) : nat :=
  match k with
  | KindChannel t => typeRank t
  | KindMember => 5
  end.

(** ** The specification *)

Module spec.

(** The label of the search group of a channel type. *)
Definition searchLabel (t : ChannelType) : string :=
  match t with
  | TEXT => "Text Channel"
  | AUDIO => "Voice Channel"
  | VIDEO => "Video Channel"
  | SLATE => "Visualization Channel"
  | TODO => "Todo Channel"
  end.

Definition typeIcon (t : ChannelType) : IconNode :=
  icon_element (channelIcon t) "mr-2 h-4 w-4".

Definition roleIcon (r : MemberRole) : IconNode :=
  match r with
  | ADMIN => icon_element ShieldAlert "w-4 h-4 mr-2 text-rose-500"
  | MODERATOR => icon_element ShieldCheck "w-4 h-4 mr-2 text-indigo-500"
  | GUEST => icon_null
  end.

Section spec.
Context (server : Server) (viewer : Profile).

(** Step 4: the channels of a type. *)
Definition channelsOf (t : ChannelType) : list Channel :=
  having_key channel_type t (server_channels server).

(** Step 5: the members, without the memberships of the viewer. *)
Definition otherMembers : list Member :=
  list_difference (server_members server) (memberships viewer server).

(** Step 6: the role of the viewer's membership. *)
Definition viewerRole : option MemberRole :=
  member_role <$> head (memberships viewer server).

(** Step 9: who sees the progress of the todo channels. *)
Definition progressVisible : bool :=
  bool_decide (viewerRole ∈ [Some ADMIN; Some MODERATOR]).

(** Step 7: the search index. *)
Definition channelGroup (t : ChannelType) : SearchGroup :=
  {| search_label := searchLabel t;
     search_type := search_channel;
     search_data :=
       (λ c, mkSearchEntry (channel_id c) (channel_name c) (typeIcon t))
         <$> channelsOf t |}.

Definition memberGroup : SearchGroup :=
  {| search_label := "Members";
     search_type := search_member;
     search_data :=
       (λ m, mkSearchEntry (member_id m) (profile_name (member_profile m))
               (roleIcon (member_role m)))
         <$> otherMembers |}.

Definition index : list SearchGroup :=
  (channelGroup <$> enum ChannelType) ++ [memberGroup].

(** Step 8: a block per non-empty group, and the block of the members. *)
Definition channelRows (t : ChannelType) : list Row :=
  (if decide (t = TODO) then if progressVisible then [RowProgress] else []
   else []) ++
  (RowChannel ∘ channelRowProps server viewerRole
      (if decide (t = TODO) then Some true else None)
    <$> channelsOf t).

Definition channelBlock (t : ChannelType) : list Block :=
  if decide (channelsOf t = []) then []
  else [mkBlock (channelSectionProps viewerRole (sectionLabel t) t)
          (channelRows t)].

Definition memberBlock : list Block :=
  if decide (otherMembers = []) then []
  else [mkBlock (membersSectionProps server viewerRole)
          (RowMember ∘ memberRowProps server <$> otherMembers)].

Definition panel : Panel :=
  {| panel_headers := [(server, viewerRole)];
     panel_searches := [index];
     panel_blocks := mjoin (channelBlock <$> enum ChannelType) ++ memberBlock |}.

End spec.
End spec.

(** ** Reading a panel *)

(** The elements a section is made of: containers, section headers, rows and
    the progress widget. *)
Definition inSection (n : Element) : Prop :=
  match n with
  | Div _ _ | ServerSection _ | ServerChannel _ | ServerMember _
  | OverallProgress => True
  | _ => False
  end.

(** The first nodes of the view are its frame: the outer container, the
    header, the scroll area, the search box in its container and the
    separator.  The nodes of the sections follow. *)
Definition frame (server : Server) (profile : Profile) : list Element :=
  take 6 (nodes (sidebarView server profile)).

(** The channel of a channel row. *)
Definition rowChannel (row : Row) : option Channel :=
  if row is RowChannel props then Some (chan_channel props) else None.

(** The member of a member row. *)
Definition rowMember (row : Row) : option Member :=
  if row is RowMember props then Some (memb_member props) else None.

(** The outline of a panel: the label of each block and the number of
    channels or members listed under it. *)
Definition blockOutline (b : Block) : string * nat :=
  (section_label (block_header b),
   length (omap rowChannel (block_rows b)) + length (omap rowMember (block_rows b))).

Definition outline (p : Panel) : list (string * nat) :=
  blockOutline <$> panel_blocks p.

(** The outline, from the channels and the members other than the viewer. *)
Definition outlineOf (cs : list Channel) (ms : list Member) : list (string * nat) :=
  ((λ t, (sectionLabel t, length (having_key channel_type t cs)))
    <$> filter (λ t, having_key channel_type t cs ≠ []) (enum ChannelType)) ++
  (if decide (ms = []) then [] else [("Members", length ms)]).

(** The text block of [hub] as bob sees it. *)
Definition hubTextBlock : Block :=
  mkBlock (channelSectionProps (Some MODERATOR) "Text Channels" TEXT)
    (spec.channelRows hub bob TEXT).

(** [studio] as a query without [orderBy] could return it. *)
Definition studioShuffled : Server :=
  mkServer "s-studio" "Studio"
    [sprint; radio; news; backlog; standup; board]
    [studio_carol; studio_bob_guest; studio_alice; studio_bob].

(** ** The code computes what the specification describes *)

Section spec_code.
Context (server : Server) (profile : Profile).
Implicit Types (t : ChannelType).

Lemma channelsOf_channelsOfType t :
  spec.channelsOf server t = channelsOfType t server.
Proof. by rewrite channelsOfType_having_key. Qed.

Lemma otherMembers_members :
  spec.otherMembers server profile = members server profile.
Proof.
  rewrite /spec.otherMembers /memberships /members.
  apply list_difference_filter.
Qed.

Lemma viewerRole_role : spec.viewerRole server profile = role server profile.
Proof. by rewrite role_head_memberships. Qed.

Lemma progressVisible_canSeeProgress :
  spec.progressVisible server profile = canSeeProgress (role server profile).
Proof.
  rewrite /spec.progressVisible viewerRole_role.
  by destruct (role server profile) as [[]|].
Qed.

Lemma channelGroup_channelEntry t :
  spec.channelGroup server t =
  mkSearchGroup (spec.searchLabel t) search_channel
    (channelEntry <$> channelsOfType t server).
Proof.
  rewrite /spec.channelGroup channelsOf_channelsOfType. f_equal.
  apply list_fmap_ext.
  intros _ c [_ <-]%list_elem_of_lookup_2%elem_of_channelsOfType.
  rewrite /channelEntry. f_equal. by destruct (channel_type c).
Qed.

Lemma memberGroup_memberEntry :
  spec.memberGroup server profile =
  mkSearchGroup "Members" search_member (memberEntry <$> members server profile).
Proof.
  rewrite /spec.memberGroup otherMembers_members. f_equal.
  apply list_fmap_ext=> _ m _. rewrite /memberEntry. f_equal.
  by destruct (member_role m).
Qed.

Lemma index_searchData : spec.index server profile = searchData server profile.
Proof.
  by rewrite /spec.index /= !channelGroup_channelEntry memberGroup_memberEntry.
Qed.

End spec_code.

(** ** The blocks of the view *)

Section blocks.
Context (server : Server) (profile : Profile) (role : option MemberRole).
Implicit Types (t : ChannelType).

(** The rows below a list of rows and layout elements. *)
Lemma rows_of_leaves {A} (f : A → Element) (g : A → Row) cls (l : list A) :
  (∀ x, nodes (f x) = [f x]) → (∀ x, selRow (f x) = Some (g x)) →
  omap selRow (flat_map nodes [Div cls [JsxArray (f <$> l)]]) = g <$> l.
Proof.
  intros Hf Hg. cbn [flat_map nodes app].
  rewrite !app_nil_r flat_map_nodes_leaves // omap_cons. by apply omap_fmap_Some.
Qed.

Lemma blocks_channelSection t label extra isTodo :
  omap selBlock (flat_map nodes extra) = [] →
  omap selBlock (nodes (channelSection t label extra isTodo server role)) =
  if truthy_length (channelsOfType t server) then
    [mkBlock (channelSectionProps role label t)
       (omap selRow (flat_map nodes extra) ++
        (RowChannel ∘ channelRowProps server role isTodo
          <$> channelsOfType t server))]
  else [].
Proof.
  intros Hextra. rewrite nodes_channelSection. case_match; [|done].
  rewrite !omap_cons omap_app Hextra omap_cons omap_fmap_None //=.
  rewrite flat_map_nodes_app omap_app.
  by rewrite (rows_of_leaves (ServerChannel ∘ channelRowProps server role isTodo)
    (RowChannel ∘ channelRowProps server role isTodo)).
Qed.

Lemma blocks_sectionOfType t :
  omap selBlock (nodes (sectionOfType t server role)) =
  if truthy_length (channelsOfType t server) then
    [mkBlock (channelSectionProps role (sectionLabel t) t)
       ((if decide (t = TODO) then
           if canSeeProgress role then [RowProgress] else []
         else []) ++
        (RowChannel ∘ channelRowProps server role
            (if decide (t = TODO) then Some true else None)
          <$> channelsOfType t server))]
  else [].
Proof.
  rewrite sectionOfType_channelSection blocks_channelSection.
  - by destruct t; simpl; try case canSeeProgress.
  - by destruct t; simpl; try case canSeeProgress.
Qed.

Lemma blocks_membersSection :
  omap selBlock (nodes (membersSection server profile role)) =
  if truthy_length (members server profile) then
    [mkBlock (membersSectionProps server role)
       (RowMember ∘ memberRowProps server <$> members server profile)]
  else [].
Proof.
  rewrite nodes_membersSection. case_match; [|done].
  rewrite !omap_cons omap_fmap_None //. cbn [selBlock].
  by rewrite (rows_of_leaves (ServerMember ∘ memberRowProps server)
    (RowMember ∘ memberRowProps server)).
Qed.

End blocks.

(** ** The nodes of the sections *)

Lemma inSection_sectionOfType t server role :
  Forall inSection (nodes (sectionOfType t server role)).
Proof.
  rewrite sectionOfType_channelSection nodes_channelSection.
  case_match; [|done]. repeat constructor.
  rewrite Forall_app. split; [|constructor; [done|by apply Forall_fmap, Forall_true]].
  destruct t; try done. rewrite /=. case canSeeProgress; by repeat constructor.
Qed.

Lemma inSection_membersSection server profile role :
  Forall inSection (nodes (membersSection server profile role)).
Proof.
  rewrite nodes_membersSection. case_match; [|done].
  repeat constructor. by apply Forall_fmap, Forall_true.
Qed.

Lemma omap_inSection {B} (sel : Element → option B) (l : list Element) :
  (∀ n, inSection n → sel n = None) → Forall inSection l → omap sel l = [].
Proof.
  intros Hsel Hl. induction Hl as [|n l Hn _ IH]; [done|].
  by rewrite omap_cons Hsel.
Qed.

(** ** The view as a panel *)

Section refinement.
Context (server : Server) (profile : Profile).
Implicit Types (t : ChannelType).

Lemma nodes_sidebarView :
  nodes (sidebarView server profile) =
  frame server profile ++
  mjoin ((λ t, nodes (sectionOfType t server (role server profile)))
    <$> enum ChannelType) ++
  nodes (membersSection server profile (role server profile)).
Proof.
  rewrite /frame /sidebarView. cbn [nodes flat_map app take enum].
  by rewrite /= !app_nil_r -!app_assoc.
Qed.

Lemma select_frame {B} (sel : Element → option B) :
  omap sel (nodes (sidebarView server profile)) =
  omap sel (frame server profile) ++
  mjoin ((λ t, omap sel (nodes (sectionOfType t server (role server profile))))
    <$> enum ChannelType) ++
  omap sel (nodes (membersSection server profile (role server profile))).
Proof. by rewrite nodes_sidebarView !omap_app. Qed.

(** A selector that picks nothing of a section picks from the frame only. *)
Lemma select_outside {B} (sel : Element → option B) :
  (∀ n, inSection n → sel n = None) →
  omap sel (nodes (sidebarView server profile)) = omap sel (frame server profile).
Proof.
  intros Hsel. rewrite select_frame.
  rewrite (list_fmap_ext _ (λ _, []) _
    (λ _ t _, omap_inSection sel _ Hsel (inSection_sectionOfType t _ _))).
  by rewrite (omap_inSection sel _ Hsel (inSection_membersSection _ _ _))
    /= app_nil_r.
Qed.

(** The blocks of the view, section by section. *)
Lemma blocks_sidebarView :
  omap selBlock (nodes (sidebarView server profile)) =
  mjoin (spec.channelBlock server profile <$> enum ChannelType) ++
  spec.memberBlock server profile.
Proof.
  rewrite select_frame. change (omap selBlock (frame server profile)) with (@nil Block).
  rewrite app_nil_l blocks_membersSection. f_equal.
  - f_equal. apply list_fmap_ext=> _ t _. rewrite blocks_sectionOfType.
    rewrite /spec.channelBlock /spec.channelRows channelsOf_channelsOfType.
    rewrite progressVisible_canSeeProgress viewerRole_role.
    destruct (decide (channelsOfType t server = [])) as [Hnil|Hnil];
      [by apply truthy_length_false in Hnil as ->|].
    by apply truthy_length_true in Hnil as ->.
  - rewrite /spec.memberBlock otherMembers_members viewerRole_role.
    case_decide as Hnil; [by apply truthy_length_false in Hnil as ->|].
    by apply truthy_length_true in Hnil as ->.
Qed.

(** C6: the tree the component builds is the panel of the specification: one
    header with the server and the viewer's role, one search box with the
    index of the channels by type and of the other members, and the blocks of
    the non-empty channel groups in the order of the channel types followed
    by the block of the other members, each with its header and rows. *)
Theorem sidebarView_refines_panel :
  abstract (sidebarView server profile) = spec.panel server profile.
Proof.
  rewrite /abstract /spec.panel blocks_sidebarView. f_equal.
  - rewrite select_outside; [|by intros []]. by rewrite viewerRole_role.
  - rewrite select_outside; [|by intros []]. by rewrite index_searchData.
Qed.

End refinement.

(** ** Read off the panel *)

#[export] Instance having_key_Permutation {A K} `{!EqDecision K}
    (key : A → K) (k : K) :
  Proper ((≡ₚ) ==> (≡ₚ)) (having_key key k).
Proof. intros l1 l2 Hl. rewrite /having_key. by rewrite Hl. Qed.

#[export] Instance outlineOf_Permutation :
  Proper ((≡ₚ) ==> (≡ₚ) ==> (=)) outlineOf.
Proof.
  intros cs1 cs2 Hcs ms1 ms2 Hms. rewrite /outlineOf. f_equal.
  - rewrite (list_filter_iff _ (λ t, having_key channel_type t cs2 ≠ [])).
    + apply list_fmap_ext=> _ t _. by rewrite Hcs.
    + intros t. by rewrite -!length_zero_iff_nil Hcs.
  - rewrite (Permutation_length Hms).
    repeat case_decide; subst; try done.
    + by apply Permutation_nil_l in Hms.
    + by apply Permutation_nil_r in Hms.
Qed.

Section panel_facts.
Context (server : Server) (profile : Profile).
Implicit Types (t : ChannelType) (b : Block) (row : Row).

(** The blocks of the view, one by one. *)
Lemma elem_of_blocks b :
  b ∈ panel_blocks (abstract (sidebarView server profile)) ↔
  (∃ t, channelsOfType t server ≠ [] ∧
     b = mkBlock (channelSectionProps (role server profile) (sectionLabel t) t)
           (spec.channelRows server profile t)) ∨
  (members server profile ≠ [] ∧
     b = mkBlock (membersSectionProps server (role server profile))
           (RowMember ∘ memberRowProps server <$> members server profile)).
Proof.
  rewrite /abstract blocks_sidebarView. cbn [panel_blocks].
  rewrite elem_of_app list_elem_of_join.
  rewrite /spec.memberBlock otherMembers_members viewerRole_role.
  f_equiv.
  - split.
    + intros (l & Hb & (t & -> & _)%list_elem_of_fmap). exists t.
      revert Hb. rewrite /spec.channelBlock channelsOf_channelsOfType viewerRole_role.
      case_decide; [by intros ?%elem_of_nil|]. by intros ->%list_elem_of_singleton.
    + intros (t & Ht & ->). exists (spec.channelBlock server profile t).
      split; [|apply list_elem_of_fmap_2, elem_of_enum].
      rewrite /spec.channelBlock channelsOf_channelsOfType viewerRole_role.
      rewrite decide_False //. by apply list_elem_of_singleton.
  - case_decide as Hm; rewrite ?elem_of_nil ?list_elem_of_singleton; tauto.
Qed.

Lemma elem_of_channelRows t row :
  row ∈ spec.channelRows server profile t →
  (t = TODO ∧ row = RowProgress) ∨
  ∃ c, c ∈ channelsOfType t server ∧
    row = RowChannel (channelRowProps server (role server profile)
            (if decide (t = TODO) then Some true else None) c).
Proof.
  rewrite /spec.channelRows channelsOf_channelsOfType viewerRole_role elem_of_app.
  intros [Hrow|(c & -> & ?)%list_elem_of_fmap]; [left|right; by exists c].
  case_decide; [|by apply elem_of_nil in Hrow].
  destruct spec.progressVisible; [|by apply elem_of_nil in Hrow].
  by apply list_elem_of_singleton in Hrow.
Qed.

(** In the view every row sits under the header of its own kind: a
    channel row under the header of the type of its channel, the progress
    widget under the header of the todo channels, a member row under the
    header of the members. *)
Lemma rows_under_own_header b row :
  b ∈ panel_blocks (abstract (sidebarView server profile)) →
  row ∈ block_rows b →
  rowKind row = headerKind (block_header b).
Proof.
  intros [(t & _ & ->)|[_ ->]]%elem_of_blocks; simpl.
  - intros [[-> ->]|(c & [_ Hc]%elem_of_channelsOfType & ->)]%elem_of_channelRows;
      [done|]. by rewrite /= Hc.
  - by intros (m & -> & _)%list_elem_of_fmap.
Qed.

Lemma channels_channelRows t :
  omap rowChannel (spec.channelRows server profile t) = channelsOfType t server.
Proof.
  rewrite /spec.channelRows channelsOf_channelsOfType omap_app.
  rewrite (omap_fmap_Some _ _ id) // list_fmap_id.
  by destruct t; [..|destruct spec.progressVisible].
Qed.

Lemma members_channelRows t :
  omap rowMember (spec.channelRows server profile t) = [].
Proof.
  rewrite /spec.channelRows omap_app omap_fmap_None // app_nil_r.
  by destruct t; [..|destruct spec.progressVisible].
Qed.

(** C21: the block under the header of a channel type lists the channels of
    that type, all of them and in the order the query returned them. *)
Theorem block_lists_its_channels b t :
  b ∈ panel_blocks (abstract (sidebarView server profile)) →
  headerKind (block_header b) = KindChannel t →
  omap rowChannel (block_rows b) = channelsOfType t server.
Proof.
  intros [(t' & _ & ->)|[_ ->]]%elem_of_blocks; [|done]. intros [= ->].
  apply channels_channelRows.
Qed.

Lemma outline_channelBlock t :
  blockOutline <$> spec.channelBlock server profile t =
  if bool_decide (channelsOfType t server ≠ [])
  then [(sectionLabel t, length (channelsOfType t server))] else [].
Proof.
  rewrite /spec.channelBlock channelsOf_channelsOfType.
  case_decide as Hnil; [by rewrite bool_decide_false; [|intros []]|].
  rewrite bool_decide_true // /blockOutline /=.
  by rewrite channels_channelRows members_channelRows Nat.add_0_r.
Qed.

Lemma outline_memberBlock :
  blockOutline <$> spec.memberBlock server profile =
  if decide (members server profile = []) then []
  else [("Members", length (members server profile))].
Proof.
  rewrite /spec.memberBlock otherMembers_members. case_decide; [done|].
  rewrite /blockOutline /= omap_fmap_None // (omap_fmap_Some _ _ id) //.
  by rewrite list_fmap_id.
Qed.

(** The outline of the view is a function of the channels and of the members
    other than the viewer. *)
Lemma outline_sidebarView :
  outline (abstract (sidebarView server profile)) =
  outlineOf (server_channels server) (members server profile).
Proof.
  rewrite /outline /outlineOf /abstract blocks_sidebarView. cbn [panel_blocks].
  rewrite fmap_app outline_memberBlock fmap_mjoin -list_fmap_compose. f_equal.
  rewrite (list_fmap_ext _ _ _ (λ _ t _, outline_channelBlock t)).
  rewrite mjoin_if_singleton.
  rewrite (list_filter_iff _ (λ t, having_key channel_type t (server_channels server) ≠ [])).
  - apply list_fmap_ext=> _ t _. by rewrite channelsOfType_having_key.
  - intros t. by rewrite Is_true_true bool_decide_eq_true channelsOfType_having_key.
Qed.

End panel_facts.

(** Equivalent servers, which differ in the order of their rows only, have
    views with the same outline. *)
Lemma outline_equiv server1 server2 profile :
  server1 ≡ server2 →
  outline (abstract (sidebarView server1 profile)) =
  outline (abstract (sidebarView server2 profile)).
Proof.
  intros (_ & _ & Hcs & Hms). rewrite !outline_sidebarView /members.
  by rewrite Hcs Hms.
Qed.

(** C22: what the panel lists does not depend on the order in which the rows
    were fetched: two servers with the same channels and the same members, in
    any order, give panels with the same blocks in the same order, each with
    the same number of rows. *)
Theorem outline_fetch_order server1 server2 profile :
  server_channels server1 ≡ₚ server_channels server2 →
  server_members server1 ≡ₚ server_members server2 →
  outline (abstract (sidebarView server1 profile)) =
  outline (abstract (sidebarView server2 profile)).
Proof.
  intros Hcs Hms. rewrite !outline_sidebarView /members.
  by rewrite Hcs Hms.
Qed.

(** ** Witnesses *)

Lemma hubTextBlock_rendered :
  hubTextBlock ∈ panel_blocks (abstract (sidebarView hub bob)).
Proof. apply elem_of_blocks. left. by exists TEXT. Qed.

Lemma block_lists_its_channels_witness :
  hubTextBlock ∈ panel_blocks (abstract (sidebarView hub bob)) ∧
  headerKind (block_header hubTextBlock) = KindChannel TEXT ∧
  omap rowChannel (block_rows hubTextBlock) = channelsOfType TEXT hub.
Proof.
  split; [exact hubTextBlock_rendered|]. split; [reflexivity|].
  exact (block_lists_its_channels hub bob _ TEXT hubTextBlock_rendered eq_refl).
Defined.

Lemma outline_fetch_order_witness :
  server_channels studioShuffled ≡ₚ server_channels studio ∧
  server_members studioShuffled ≡ₚ server_members studio ∧
  outline (abstract (sidebarView studioShuffled bob)) =
  outline (abstract (sidebarView studio bob)).
Proof.
  assert (server_channels studioShuffled ≡ₚ server_channels studio) as Hcs
    by decide_it.
  assert (server_members studioShuffled ≡ₚ server_members studio) as Hms
    by decide_it.
  split; [exact Hcs|]. split; [exact Hms|].
  exact (outline_fetch_order studioShuffled studio bob Hcs Hms).
Defined.

(** ** The example of the specification *)

(** Channels TEXT, TEXT, AUDIO: one text block with two rows, one voice block
    with one row, no video, slate or todo block; then the members. *)
Example outline_hub :
  outline (abstract (sidebarView hub dave)) =
  [("Text Channels", 2); ("Voice Channels", 1); ("Members", 3)].
Proof. by vm_compute. Qed.

(** The viewer is the only member and there is no channel: no block at all. *)
Example outline_solo : outline (abstract (sidebarView solo alice)) = [].
Proof. by vm_compute. Qed.

(** The same blocks, whatever the order of the rows fetched. *)
Example outline_studioShuffled :
  outline (abstract (sidebarView studioShuffled carol)) =
  [("Text Channels", 1); ("Voice Channels", 1); ("Video Channels", 1);
   ("Visualisation Channels", 1); ("Todo Channels", 2); ("Members", 3)].
Proof. by vm_compute. Qed.

(** What the outline leaves out does depend on the order: without the
    [orderBy] of the query, the role of a viewer with two memberships is that
    of whichever row comes first. *)
Example role_follows_fetch_order :
  role studio bob = Some MODERATOR ∧ role studioShuffled bob = Some GUEST.
Proof. done. Qed.
