(* ===== verification/Effects.v ===== *)
(** * Effects: the collaborators of the component

    The component awaits two collaborators and may leave through a third:
    [currentProfile()] answers with the viewer or nothing,
    [db.server.findUnique(args)] with a server or nothing, and
    [redirect(url)] never returns (it aborts the render).  A program is a
    finite tree of such calls ([Prog]); [run] interprets it against an
    environment that answers the calls and records them, so that a theorem can
    speak of what was asked, in which order, and of how the render ended.

    Programs are compared by what they do in every environment ([≡]); the
    monad laws hold up to it and [≫=] respects it. *)

From S2P Require Import Prelude Schema.
Set Warnings "-rewrite-rw".

(** ** The query *)

Inductive SortOrder := asc | desc.

(** The arguments of [findUnique], in the shape the component uses: a server
    by id, its channels ordered by creation time, its members joined to their
    profiles and ordered by role. *)
Record ServerFindUniqueArgs := mkServerFindUniqueArgs {
  where_id : string;
  include_channels_orderBy_createdAt : SortOrder;
  include_members_include_profile : bool;
  include_members_orderBy_role : SortOrder;
}.

#[export] Instance SortOrder_eq_dec : EqDecision SortOrder.
Proof. solve_decision. Defined.

#[export] Instance ServerFindUniqueArgs_eq_dec : EqDecision ServerFindUniqueArgs.
Proof. solve_decision. Defined.

(** ** Calls and programs *)

Inductive Call : Type → Type :=
  | CurrentProfile : Call (option Profile)
  | FindUnique (args : ServerFindUniqueArgs) : Call (option Server)
  | Redirect (url : string) : Call Empty_set.

Inductive Prog (A : Type) : Type :=
  | Ret (a : A)
  | Vis {X : Type} (c : Call X) (k : X → Prog A).

Arguments Ret {A} a.
Arguments Vis {A X} c k.

Fixpoint bind {A B} (m : Prog A) (f : A → Prog B) : Prog B :=
  match m with
  | Ret a => f a
  | Vis c k => Vis c (λ x, bind (k x) f)
  end.

#[export] Instance Prog_ret : MRet Prog := @Ret.
#[export] Instance Prog_bind : MBind Prog := λ A B f m, bind m f.

(** [await c]: perform the call and continue with its answer. *)
Definition call {X} (c : Call X) : Prog X := Vis c Ret.

(** [return redirect(url)]: the call has no answer to continue with. *)
Definition redirect {A} (url : string) : Prog A :=
  Vis (Redirect url) (λ never : Empty_set, match never with end).

(** ** Running a program *)

(** What answers the calls: the session and the database. *)
Record Env := mkEnv {
  env_currentProfile : option Profile;
  env_findUnique : ServerFindUniqueArgs → option Server;
}.

(** A call that was made, with its answer. *)
Inductive Event :=
  | EvCurrentProfile (answer : option Profile)
  | EvFindUnique (args : ServerFindUniqueArgs) (answer : option Server)
  | EvRedirect (url : string).

(** How a render ends: with a value, or with a redirect. *)
Inductive Outcome (A : Type) :=
  | Returned (a : A)
  | Redirected (url : string).

Arguments Returned {A} a.
Arguments Redirected {A} url.

(** The answer of the environment to a call, or the url it redirects to. *)
Definition answer (env : Env) {X} (c : Call X) : X + string :=
  match c with
  | CurrentProfile => inl (env_currentProfile env)
  | FindUnique args => inl (env_findUnique env args)
  | Redirect url => inr url
  end.

Definition event (env : Env) {X} (c : Call X) : Event :=
  match c with
  | CurrentProfile => EvCurrentProfile (env_currentProfile env)
  | FindUnique args => EvFindUnique args (env_findUnique env args)
  | Redirect url => EvRedirect url
  end.

Fixpoint run {A} (env : Env) (m : Prog A) : list Event * Outcome A :=
  match m with
  | Ret a => ([], Returned a)
  | Vis c k =>
      let rest :=
        match answer env c with
        | inl x => run env (k x)
        | inr url => ([], Redirected url)
        end in
      (event env c :: rest.1, rest.2)
  end.

Definition trace {A} (env : Env) (m : Prog A) : list Event := (run env m).1.
Definition outcome {A} (env : Env) (m : Prog A) : Outcome A := (run env m).2.

(** The database reads of a trace. *)
Definition queries (tr : list Event) : list ServerFindUniqueArgs :=
  omap (λ ev, if ev is EvFindUnique args _ then Some args else None) tr.

(** ** Equivalence of programs *)

#[export] Instance Prog_equiv {A} : Equiv (Prog A) :=
  λ m1 m2, ∀ env, run env m1 = run env m2.

#[export] Instance Prog_equivalence {A} : Equivalence (≡@{Prog A}).
Proof.
  split.
  - by intros m env.
  - by intros m1 m2 Hm env.
  - intros m1 m2 m3 H12 H23 env. by rewrite H12.
Qed.

#[export] Instance run_proper {A} env : Proper ((≡) ==> (=)) (run (A:=A) env).
Proof. by intros m1 m2 Hm. Qed.

(** Running a sequence: the first part runs; when it returns, the rest runs on
    its value and the traces are chained; when it redirects, the rest never
    runs. *)
Lemma run_bind {A B} env (m : Prog A) (f : A → Prog B) :
  run env (m ≫= f) =
  match run env m with
  | (tr, Returned a) => (tr ++ (run env (f a)).1, (run env (f a)).2)
  | (tr, Redirected url) => (tr, Redirected url)
  end.
Proof.
  rewrite /mbind /Prog_bind. induction m as [a|X c k IH]; simpl.
  - by destruct (run env (f a)).
  - destruct (answer env c) as [x|url]; [|done].
    rewrite IH. by destruct (run env (k x)) as [tr [a|url]].
Qed.

Lemma run_call env {X} (c : Call X) :
  run env (call c) =
  match answer env c with
  | inl x => ([event env c], Returned x)
  | inr url => ([event env c], Redirected url)
  end.
Proof. rewrite /call /=. by destruct (answer env c). Qed.

Lemma run_redirect {A} env url :
  run env (redirect (A:=A) url) = ([EvRedirect url], Redirected url).
Proof. done. Qed.

Lemma run_ret {A} env (a : A) : run env (mret a) = ([], Returned a).
Proof. done. Qed.

(** The monad laws, up to [≡]. *)
Lemma bind_ret_l {A B} (a : A) (f : A → Prog B) : mret a ≫= f ≡ f a.
Proof. by intros env. Qed.

Lemma bind_ret_r {A} (m : Prog A) : m ≫= mret ≡ m.
Proof.
  intros env. rewrite run_bind.
  destruct (run env m) as [tr [a|url]]; by rewrite /= ?app_nil_r.
Qed.

Lemma bind_assoc {A B C} (m : Prog A) (f : A → Prog B) (g : B → Prog C) :
  (m ≫= f) ≫= g ≡ m ≫= (λ a, f a ≫= g).
Proof.
  intros env. rewrite !run_bind.
  destruct (run env m) as [tr [a|url]]; [|done]. rewrite run_bind.
  destruct (run env (f a)) as [tr' [b|url]]; by rewrite /= ?app_assoc.
Qed.

#[export] Instance bind_proper {A B} :
  Proper (pointwise_relation A (≡) ==> (≡) ==> (≡)) (mbind (M:=Prog) (A:=A) (B:=B)).
Proof.
  intros f g Hfg m1 m2 Hm env. rewrite !run_bind Hm.
  destruct (run env m2) as [tr [a|url]]; [|done]. by rewrite (Hfg a env).
Qed.

(** A redirect ends the render: what follows it is never run. *)
Lemma redirect_bind {A B} url (f : A → Prog B) : redirect url ≫= f ≡ redirect url.
Proof. by intros env. Qed.

#[export] Hint Rewrite @run_bind @run_call @run_redirect @run_ret : run.
