(* ===== verification/Worlds.v ===== *)
(** * Worlds: collaborators that fail and change

    [Effects.run] answers every awaited call, in an environment that stays
    the same.  The calls the component awaits return promises, and a promise
    may also be rejected: the session lookup or the database may fail; and
    each [await] lets other requests run, so the session and the database
    may change between two calls.

    [World] is an environment whose answers may be rejections and [attempt]
    the interpreter of programs in it: an awaited call that is rejected ends
    the program with the reason of the rejection ([Failed], the third way a
    render ends).  A [Timeline] gives the world at every instant and
    [attemptFrom] settles each call in the world of the instant at which it
    is made, one instant per call.

    The three semantics form a tower: [attemptFrom] on a timeline that does
    not change is [attempt], and [attempt] in a world without rejections is
    [run].  The other theorems: a run sees the timeline at the instants of
    its calls only; a trace holds at most one rejection, its last call, with
    the reason the run failed. *)

From S2P Require Import Prelude Schema Effects.
Set Warnings "-rewrite-rw".

(** ** Settled promises *)

(** How an awaited promise settles. *)
Inductive Settled (X : Type) :=
  | Fulfilled (x : X)
  | Rejected (reason : string).

Arguments Fulfilled {X} x.
Arguments Rejected {X} reason.

(** What answers the calls, when it may fail. *)
Record World := mkWorld {
  world_currentProfile : Settled (option Profile);
  world_findUnique : ServerFindUniqueArgs → Settled (option Server);
}.

(** A call that was made, with the way it settled. *)
Inductive Attempt :=
  | AtCurrentProfile (s : Settled (option Profile))
  | AtFindUnique (args : ServerFindUniqueArgs) (s : Settled (option Server))
  | AtRedirect (url : string).

(** How a render ends: as in [Effects], or with the reason of a rejection. *)
Inductive Completion (A : Type) :=
  | Completed (o : Outcome A)
  | Failed (reason : string).

Arguments Completed {A} o.
Arguments Failed {A} reason.

(** The way a call settles in a world: with an answer to continue with, with
    the url of a redirect, or rejected. *)
Definition settle (w : World) {X} (c : Call X) : Settled (X + string) :=
  match c with
  | CurrentProfile =>
      match world_currentProfile w with
      | Fulfilled x => Fulfilled (inl x)
      | Rejected reason => Rejected reason
      end
  | FindUnique args =>
      match world_findUnique w args with
      | Fulfilled x => Fulfilled (inl x)
      | Rejected reason => Rejected reason
      end
  | Redirect url => Fulfilled (inr url)
  end.

Definition record (w : World) {X} (c : Call X) : Attempt :=
  match c with
  | CurrentProfile => AtCurrentProfile (world_currentProfile w)
  | FindUnique args => AtFindUnique args (world_findUnique w args)
  | Redirect url => AtRedirect url
  end.

(** An awaited call that is rejected throws: the rest of the program is not
    run. *)
Fixpoint attempt {A} (w : World) (m : Prog A) : list Attempt * Completion A :=
  match m with
  | Ret a => ([], Completed (Returned a))
  | Vis c k =>
      let rest :=
        match settle w c with
        | Fulfilled (inl x) => attempt w (k x)
        | Fulfilled (inr url) => ([], Completed (Redirected url))
        | Rejected reason => ([], Failed reason)
        end in
      (record w c :: rest.1, rest.2)
  end.

(** The reason of a rejected call. *)
Definition rejection (at_ : Attempt) : option string :=
  match at_ with
  | AtCurrentProfile (Rejected reason) | AtFindUnique _ (Rejected reason) =>
      Some reason
  | _ => None
  end.

(** ** Worlds without rejections *)

(** The world in which every call is answered as in an environment. *)
Definition reliable (env : Env) : World :=
  {| world_currentProfile := Fulfilled (env_currentProfile env);
     world_findUnique := λ args, Fulfilled (env_findUnique env args) |}.

Definition fulfilled (ev : Event) : Attempt :=
  match ev with
  | EvCurrentProfile x => AtCurrentProfile (Fulfilled x)
  | EvFindUnique args x => AtFindUnique args (Fulfilled x)
  | EvRedirect url => AtRedirect url
  end.

(** ** Worlds that change *)

(** The world at every instant. *)
Definition Timeline := nat → World.

(** The run of a program that starts at instant [t]: each call settles as
    the world of the instant it is made at says, and the next call is made
    an instant later. *)
Fixpoint attemptFrom {A} (h : Timeline) (t : nat) (m : Prog A) :
    list Attempt * Completion A :=
  match m with
  | Ret a => ([], Completed (Returned a))
  | Vis c k =>
      let rest :=
        match settle (h t) c with
        | Fulfilled (inl x) => attemptFrom h (S t) (k x)
        | Fulfilled (inr url) => ([], Completed (Redirected url))
        | Rejected reason => ([], Failed reason)
        end in
      (record (h t) c :: rest.1, rest.2)
  end.

(** The timeline on which nothing changes. *)
Definition always (w : World) : Timeline := λ _, w.

(** ** The interpreter *)

Section attempt.
Context (w : World).

Lemma attempt_bind {A B} (m : Prog A) (f : A → Prog B) :
  attempt w (m ≫= f) =
  match attempt w m with
  | (tr, Completed (Returned a)) =>
      (tr ++ (attempt w (f a)).1, (attempt w (f a)).2)
  | (tr, Completed (Redirected url)) => (tr, Completed (Redirected url))
  | (tr, Failed reason) => (tr, Failed reason)
  end.
Proof.
  rewrite /mbind /Prog_bind. induction m as [a|X c k IH]; simpl.
  - by destruct (attempt w (f a)).
  - destruct (settle w c) as [[x|url]|reason]; [|done..].
    rewrite IH. by destruct (attempt w (k x)) as [tr [[a|url]|reason]].
Qed.

Lemma attempt_call {X} (c : Call X) :
  attempt w (call c) =
  ([record w c],
   match settle w c with
   | Fulfilled (inl x) => Completed (Returned x)
   | Fulfilled (inr url) => Completed (Redirected url)
   | Rejected reason => Failed reason
   end).
Proof. rewrite /call /=. by destruct (settle w c) as [[x|url]|reason]. Qed.

Lemma attempt_redirect {A} url :
  attempt w (redirect (A:=A) url) = ([AtRedirect url], Completed (Redirected url)).
Proof. done. Qed.

Lemma attempt_ret {A} (a : A) : attempt w (mret a) = ([], Completed (Returned a)).
Proof. done. Qed.

Lemma rejection_record {X} (c : Call X) :
  rejection (record w c) =
  if settle w c is Rejected reason then Some reason else None.
Proof.
  destruct c as [|args|url]; simpl;
    [by destruct (world_currentProfile w)|by destruct (world_findUnique w args)|done].
Qed.

(** A trace holds a rejection exactly when the render failed, and it holds
    one only. *)
Lemma attempt_rejections {A} (m : Prog A) :
  omap rejection (attempt w m).1 =
  if (attempt w m).2 is Failed reason then [reason] else [].
Proof.
  induction m as [a|X c k IH]; [done|].
  cbn [attempt fst snd]. rewrite omap_cons rejection_record.
  destruct (settle w c) as [[x|url]|reason]; [apply IH|done..].
Qed.

(** The rejection is the last call of the trace. *)
Lemma attempt_Failed_last {A} (m : Prog A) reason :
  (attempt w m).2 = Failed reason →
  last (attempt w m).1 ≫= rejection = Some reason.
Proof.
  induction m as [a|X c k IH]; [done|].
  cbn [attempt fst snd]. pose proof (rejection_record c) as Hc.
  destruct (settle w c) as [[x|url]|reason']; [|done|by intros [= <-]].
  intros Hr. specialize (IH x Hr). rewrite last_cons.
  by destruct (last _).
Qed.

End attempt.

#[export] Hint Rewrite @attempt_bind @attempt_call @attempt_redirect @attempt_ret
  : attempt.

(** Where no call is rejected nothing changes: in the world of an
    environment a program makes the calls of its run, each fulfilled with the
    same answer, and ends with the outcome of its run. *)
Lemma attempt_reliable {A} env (m : Prog A) :
  attempt (reliable env) m = (fulfilled <$> trace env m, Completed (outcome env m)).
Proof.
  rewrite /trace /outcome. induction m as [a|X c k IH]; [done|]. simpl.
  destruct c as [|args|url]; simpl; by rewrite ?IH.
Qed.

(** ** Runs on a timeline *)

Section attemptFrom.
Context {A : Type}.
Implicit Types (h : Timeline) (m : Prog A) (t : nat).

Lemma attemptFrom_always w t m : attemptFrom (always w) t m = attempt w m.
Proof.
  revert t. induction m as [a|X c k IH]=> t; [done|]. simpl.
  rewrite /always. destruct (settle w c) as [[x|url]|reason]; by rewrite ?IH.
Qed.

(** A run makes one call per instant, so it sees the timeline at the
    instants from its start up to the number of its calls only. *)
Lemma attemptFrom_ext h1 h2 t m :
  (∀ i, i < length (attemptFrom h1 t m).1 → h1 (t + i) = h2 (t + i)) →
  attemptFrom h1 t m = attemptFrom h2 t m.
Proof.
  revert t. induction m as [a|X c k IH]=> t; [done|].
  cbn [attemptFrom fst snd length].
  intros Hh. assert (h1 t = h2 t) as <-.
  { rewrite -(Nat.add_0_r t). apply Hh. lia. }
  destruct (settle (h1 t) c) as [[x|url]|reason]; [|done..].
  rewrite (IH x (S t)) // => i Hi.
  replace (S t + i) with (t + S i) by lia. apply Hh. lia.
Qed.

(** Starting later is running on the timeline moved forward. *)
Lemma attemptFrom_shift h t d m :
  attemptFrom h (d + t) m = attemptFrom (λ i, h (d + i)) t m.
Proof.
  revert t. induction m as [a|X c k IH]=> t; [done|]. simpl.
  destruct (settle (h (d + t)) c) as [[x|url]|reason]; [|done..].
  by rewrite -IH Nat.add_succ_r.
Qed.

End attemptFrom.
