(* ===== verification/Steps.v ===== *)
(** * Steps: a render, one call at a time

    [Worlds.attemptFrom] gives the whole run of a program at once.  This
    file gives the same runs as sequences of transitions: a state is a
    program that is still running together with the calls made so far, a
    render that was left by a redirect, or one that was broken by a rejected
    call; a step performs the next call, at the instant after the calls made
    so far, and continues with its answer, leaves or breaks.  There is one
    rule per way a call ends ([step]), the same thing as a function
    ([stepf]) and its iteration ([exec]), so that runs can be evaluated.

    The theorems: stepping is deterministic, the final states are exactly
    those that cannot step, a step appends one call, every program
    terminates ([sn]), and the run [attemptFrom] computes is the unique
    maximal sequence of steps. *)

From stdpp Require Import relations.
From S2P Require Import Prelude Schema Effects Worlds.
Set Warnings "-rewrite-rw".

(** ** States and steps *)

Inductive State (A : Type) :=
  | Running (tr : list Attempt) (m : Prog A)
  | Gone (tr : list Attempt) (url : string)
  | Broken (tr : list Attempt) (reason : string).

Arguments Running {A} tr m.
Arguments Gone {A} tr url.
Arguments Broken {A} tr reason.

(** The calls made so far. *)
Definition state_trace {A} (s : State A) : list Attempt :=
  match s with
  | Running tr _ | Gone tr _ | Broken tr _ => tr
  end.

(** How the render ended, when it has. *)
Definition result {A} (s : State A) : option (Completion A) :=
  match s with
  | Running _ (Ret a) => Some (Completed (Returned a))
  | Running _ (Vis _ _) => None
  | Gone _ url => Some (Completed (Redirected url))
  | Broken _ reason => Some (Failed reason)
  end.

(** The state a run ends in, from the calls made before it. *)
Definition finish {A} (tr : list Attempt) (r : list Attempt * Completion A) :
    State A :=
  match r.2 with
  | Completed (Returned a) => Running (tr ++ r.1) (Ret a)
  | Completed (Redirected url) => Gone (tr ++ r.1) url
  | Failed reason => Broken (tr ++ r.1) reason
  end.

Section step.
Context {A : Type} (h : Timeline) (t0 : nat).
Implicit Types (s : State A) (m : Prog A) (tr : list Attempt).

(** The instant of the next call of a render that started at [t0] and has
    made the calls [tr]. *)
Definition now tr : nat := length tr + t0.

Inductive step : relation (State A) :=
  | step_answer tr {X} (c : Call X) (k : X → Prog A) x :
      settle (h (now tr)) c = Fulfilled (inl x) →
      step (Running tr (Vis c k)) (Running (tr ++ [record (h (now tr)) c]) (k x))
  | step_leave tr {X} (c : Call X) (k : X → Prog A) url :
      settle (h (now tr)) c = Fulfilled (inr url) →
      step (Running tr (Vis c k)) (Gone (tr ++ [record (h (now tr)) c]) url)
  | step_break tr {X} (c : Call X) (k : X → Prog A) reason :
      settle (h (now tr)) c = Rejected reason →
      step (Running tr (Vis c k)) (Broken (tr ++ [record (h (now tr)) c]) reason).

(** The step as a function: the next state, when there is a call to make. *)
Definition stepf s : option (State A) :=
  match s with
  | Running tr (Vis c k) =>
      Some match settle (h (now tr)) c with
           | Fulfilled (inl x) => Running (tr ++ [record (h (now tr)) c]) (k x)
           | Fulfilled (inr url) => Gone (tr ++ [record (h (now tr)) c]) url
           | Rejected reason => Broken (tr ++ [record (h (now tr)) c]) reason
           end
  | _ => None
  end.

(** At most [n] steps. *)
Fixpoint exec (n : nat) s : State A :=
  match n, stepf s with
  | S n, Some s' => exec n s'
  | _, _ => s
  end.

(** ** The step relation *)

Lemma step_stepf s s' : step s s' ↔ stepf s = Some s'.
Proof.
  split.
  - intros [tr X c k x Hc|tr X c k url Hc|tr X c k reason Hc]; by rewrite /= Hc.
  - destruct s as [tr [a|X c k]|tr url|tr reason]; simpl; intros [= <-].
    destruct (settle (h (now tr)) c) as [[x|url]|reason] eqn:Hc; by constructor.
Qed.

Lemma step_deterministic : deterministic step.
Proof. intros s s1 s2 ?%step_stepf ?%step_stepf. congruence. Qed.

(** A state has a result exactly when it has no step to make. *)
Lemma result_stepf s : is_Some (result s) ↔ stepf s = None.
Proof.
  rewrite is_Some_alt.
  destruct s as [tr [a|X c k]|tr url|tr reason]; split; done.
Qed.

Lemma nf_result s : nf step s ↔ is_Some (result s).
Proof.
  rewrite result_stepf /nf /red. setoid_rewrite step_stepf.
  destruct (stepf s) as [s'|]; split; try done.
  - intros []. by exists s'.
  - by intros _ [? [=]].
Qed.

(** A step records exactly one call. *)
Lemma step_trace s s' :
  step s s' → ∃ ev, state_trace s' = state_trace s ++ [ev].
Proof. intros []; by eexists. Qed.

Lemma rtc_trace_prefix s s' :
  rtc step s s' → state_trace s `prefix_of` state_trace s'.
Proof.
  induction 1 as [|s1 s2 s3 [ev Hev]%step_trace _ IH]; [done|].
  etrans; [|done]. rewrite Hev. by apply prefix_app_r.
Qed.

(** ** Runs are sequences of steps *)

Lemma now_snoc tr ev : now (tr ++ [ev]) = S (now tr).
Proof. rewrite /now length_app /=. lia. Qed.

Lemma finish_cons tr ev (r : list Attempt * Completion A) :
  finish tr (ev :: r.1, r.2) = finish (tr ++ [ev]) r.
Proof. rewrite /finish /=. by destruct r.2 as [[]|]; rewrite -app_assoc. Qed.

Lemma run_nsteps tr m :
  nsteps step (length (attemptFrom h (now tr) m).1) (Running tr m)
    (finish tr (attemptFrom h (now tr) m)).
Proof.
  revert tr. induction m as [a|X c k IH]=> tr.
  { rewrite /finish /= app_nil_r. constructor. }
  rewrite /=. destruct (settle (h (now tr)) c) as [[x|url]|reason] eqn:Hc.
  - eapply nsteps_l; [by apply step_answer|].
    rewrite finish_cons -(now_snoc tr (record (h (now tr)) c)). apply IH.
  - eapply nsteps_l; [by apply step_leave|]. rewrite /finish /=. constructor.
  - eapply nsteps_l; [by apply step_break|]. rewrite /finish /=. constructor.
Qed.

Lemma run_rtc tr m :
  rtc step (Running tr m) (finish tr (attemptFrom h (now tr) m)).
Proof. eapply rtc_nsteps_2, run_nsteps. Qed.

Lemma result_finish tr (r : list Attempt * Completion A) :
  result (finish tr r) = Some r.2.
Proof. rewrite /finish. by destruct r.2 as [[]|]. Qed.

Lemma state_trace_finish tr (r : list Attempt * Completion A) :
  state_trace (finish tr r) = tr ++ r.1.
Proof. rewrite /finish. by destruct r.2 as [[]|]. Qed.

(** In a deterministic relation every sequence from a state is a prefix of
    the sequence to its normal form. *)
Lemma rtc_nf_through s s1 s2 :
  rtc step s s1 → rtc step s s2 → nf step s2 → rtc step s1 s2.
Proof.
  intros Hs1. revert s2. induction Hs1 as [|s s' s1 Hstep _ IH]=> s2 Hs2 Hnf.
  { done. }
  destruct Hs2 as [|s s'' s2 Hstep' Hs2]; [by destruct Hnf; exists s'|].
  rewrite -(step_deterministic _ _ _ Hstep Hstep') in Hs2. eauto.
Qed.

(** Every state on the way of a run leads to the end of the run. *)
Lemma rtc_finish tr m s :
  rtc step (Running tr m) s →
  rtc step s (finish tr (attemptFrom h (now tr) m)).
Proof.
  intros Hs. eapply rtc_nf_through; [done|apply run_rtc|].
  apply nf_result. rewrite result_finish. by eexists.
Qed.

(** The run [attemptFrom] computes is the one maximal sequence of steps:
    a state is reachable from the start of a program and final exactly when
    it is the state with the trace and the completion of the run, whatever
    the world does. *)
Lemma run_steps m s :
  rtc step (Running [] m) s ∧ nf step s ↔ s = finish [] (attemptFrom h t0 m).
Proof.
  split.
  - intros [Hs Hnf]. eapply rtc_nf; [|done]. by apply (rtc_finish []).
  - intros ->. split; [apply (run_rtc [])|].
    apply nf_result. rewrite result_finish. by eexists.
Qed.

(** ** Termination *)

Lemma step_sn s : sn step s.
Proof.
  destruct s as [tr m|tr url|tr reason];
    [|constructor; by intros s' [=]%step_stepf..].
  revert tr. induction m as [a|X c k IH]=> tr; constructor; intros s'.
  - by intros [=]%step_stepf.
  - intros [= <-]%step_stepf.
    destruct (settle _ c) as [[x|url]|reason]; [apply IH|..];
      constructor; by intros s' [=]%step_stepf.
Qed.

(** ** Evaluation *)

Lemma exec_S n s :
  exec (S n) s = if stepf s is Some s' then exec n s' else s.
Proof. done. Qed.

Lemma exec_rtc n s : rtc step s (exec n s).
Proof.
  revert s. induction n as [|n IH]=> s; [done|]. rewrite exec_S.
  destruct (stepf s) as [s'|] eqn:Hs; [|done].
  eapply rtc_l; [by apply step_stepf|done].
Qed.

Lemma exec_result n s : is_Some (result s) → exec n s = s.
Proof. intros Hs%result_stepf. destruct n; by rewrite /= ?Hs. Qed.

Lemma exec_add n1 n2 s : exec (n1 + n2) s = exec n2 (exec n1 s).
Proof.
  revert s. induction n1 as [|n1 IH]=> s; [done|]. rewrite /= -/(exec n1).
  destruct (stepf s) as [s'|] eqn:Hs; [done|].
  symmetry. apply exec_result. by apply result_stepf.
Qed.

(** Once a run of [n] steps has ended, more steps change nothing. *)
Lemma exec_ended n1 n2 s :
  is_Some (result (exec n1 s)) → n1 ≤ n2 → exec n2 s = exec n1 s.
Proof.
  intros Hs Hle. replace n2 with (n1 + (n2 - n1)) by lia.
  by rewrite exec_add exec_result.
Qed.

Lemma nsteps_exec n s s' : nsteps step n s s' → s' = exec n s.
Proof.
  induction 1 as [|n s1 s2 s3 Hstep%step_stepf _ IH]; [done|].
  by rewrite exec_S Hstep.
Qed.

(** Every reachable state is computed by [exec]; when the run has ended
    after [n] steps, by at most [n] of them. *)
Lemma rtc_exec_bounded n s s' :
  is_Some (result (exec n s)) → rtc step s s' → ∃ i, i ≤ n ∧ s' = exec i s.
Proof.
  intros Hn [i Hi%nsteps_exec]%rtc_nsteps_1. destruct (decide (i ≤ n)); [eauto|].
  exists n. split; [done|]. rewrite Hi. apply exec_ended; [done|lia].
Qed.

End step.
