(* ===== verification/Sidebar.v ===== *)
(** * Sidebar: the component

    [server-sidebar.tsx], lines 25-27 and 45-304: [ServerSidebar] asks for the
    viewer and redirects to ["/"] when there is none, reads the server with
    the query of lines 52-71 and redirects to ["/"] when there is none, and
    otherwise returns the tree of [View].

    [SidebarResult] and [resolve] are the contract the specification asks
    for: the two failures and the ready case as a value, decided without any
    effect.  The theorems give the run of the component on every branch (what
    was called, in which order, how it ended), bound the database reads by
    one, and show that the component is [resolve] followed by the
    presentation of its result, both as a function from environments to
    outcomes and as a program ([resolveM] followed by [presentM]). *)

From S2P Require Import Prelude Schema Fixtures Partition Search.
From S2P Require Import View Rendered Effects.
Set Warnings "-rewrite-rw".

Record ServerSidebarProps := mkServerSidebarProps {
  serverId : string;
}.

(** The argument of [db.server.findUnique]. *)
Definition serverQuery (serverId : string) : ServerFindUniqueArgs :=
  {| where_id := serverId;
     include_channels_orderBy_createdAt := asc;
     include_members_include_profile := true;
     include_members_orderBy_role := asc |}.

Definition ServerSidebar (props : ServerSidebarProps) : Prog Element :=
  profile ← call CurrentProfile;
  match profile with
  | None => redirect "/"
  | Some profile =>
      server ← call (FindUnique (serverQuery (serverId props)));
      match server with
      | None => redirect "/"
      | Some server => mret (sidebarView server profile)
      end
  end.

(** ** The contract *)

Inductive SidebarResult :=
  | NotAuthenticated
  | NotFound
  | Ready (server : Server) (profile : Profile).

(** What the component is to decide, from the viewer and the stored servers. *)
Definition resolve (viewer : option Profile) (lookup : string → option Server)
    (serverId : string) : SidebarResult :=
  match viewer with
  | None => NotAuthenticated
  | Some profile =>
      match lookup serverId with
      | None => NotFound
      | Some server => Ready server profile
      end
  end.

(** How a result is presented: both failures are the same redirect. *)
Definition present (r : SidebarResult) : Outcome Element :=
  match r with
  | NotAuthenticated | NotFound => Redirected "/"
  | Ready server profile => Returned (sidebarView server profile)
  end.

(** The contract as programs: [resolveM] makes the calls and returns the
    result without navigating, [presentM] renders or navigates and makes no
    other call. *)
Definition resolveM (props : ServerSidebarProps) : Prog SidebarResult :=
  profile ← call CurrentProfile;
  match profile with
  | None => mret NotAuthenticated
  | Some profile =>
      server ← call (FindUnique (serverQuery (serverId props)));
      mret (if server is Some server then Ready server profile else NotFound)
  end.

Definition presentM (r : SidebarResult) : Prog Element :=
  match r with
  | NotAuthenticated | NotFound => redirect "/"
  | Ready server profile => mret (sidebarView server profile)
  end.

(** The result of the component in an environment. *)
Definition resolveIn (env : Env) (props : ServerSidebarProps) : SidebarResult :=
  resolve (env_currentProfile env) (env_findUnique env ∘ serverQuery)
    (serverId props).

(** Environments for the witnesses: a session without viewer, and the session
    of a profile over a database that holds [hub] and [studio]. *)
Definition anonymousEnv : Env :=
  {| env_currentProfile := None; env_findUnique := λ _, None |}.

Definition sessionEnv (viewer : Profile) : Env :=
  {| env_currentProfile := Some viewer;
     env_findUnique := λ args,
       if decide (where_id args = "s-hub") then Some hub
       else if decide (where_id args = "s-studio") then Some studio
       else None |}.

(** ** The run of the component *)

(** [run_sidebar] evaluates the run of the component up to the answers of the
    environment. *)
Ltac run_sidebar :=
  rewrite /outcome /trace /ServerSidebar; run_simpl;
  repeat match goal with
  | H : env_currentProfile _ = _ |- _ => rewrite H /=; run_simpl
  | H : env_findUnique _ _ = _ |- _ => rewrite H /=; run_simpl
  end.

Section run_sidebar.
Context (env : Env) (props : ServerSidebarProps).
Implicit Types (profile : Profile) (server : Server).

(** The result in an environment, case by case. *)
Lemma resolveIn_cases :
  match resolveIn env props with
  | NotAuthenticated => env_currentProfile env = None
  | NotFound => ∃ profile,
      env_currentProfile env = Some profile ∧
      env_findUnique env (serverQuery (serverId props)) = None
  | Ready server profile =>
      env_currentProfile env = Some profile ∧
      env_findUnique env (serverQuery (serverId props)) = Some server
  end.
Proof.
  rewrite /resolveIn /resolve /=.
  destruct (env_currentProfile env) as [profile|]; [|done].
  destruct (env_findUnique env _) as [server|]; eauto.
Qed.

(** C1: the component implements its contract: in every environment its
    outcome is the presentation of the result [resolve] decides from the
    viewer and the stored server, so it renders exactly when both exist and
    redirects to the root route otherwise. *)
Theorem ServerSidebar_refines_resolve :
  outcome env (ServerSidebar props) = present (resolveIn env props).
Proof.
  pose proof resolveIn_cases as Hcases.
  destruct (resolveIn env props); destruct_and?; [|destruct Hcases as (?&?&?)|];
    by run_sidebar.
Qed.

(** C5: the component is its decision followed by the presentation of the
    result, as programs: it makes the same calls in the same order and ends
    the same way as the program that first computes
    [NotAuthenticated | NotFound | Ready] and only then navigates or renders. *)
Theorem ServerSidebar_factor :
  ServerSidebar props ≡ resolveM props ≫= presentM.
Proof.
  rewrite /ServerSidebar /resolveM bind_assoc.
  f_equiv. intros [profile|]; [|by rewrite bind_ret_l].
  rewrite bind_assoc. f_equiv. intros [server|]; by rewrite bind_ret_l.
Qed.

(** The decision never navigates: it returns the result of the contract. *)
Lemma resolveM_outcome :
  outcome env (resolveM props) = Returned (resolveIn env props).
Proof.
  rewrite /outcome /resolveM /resolveIn /resolve. run_simpl.
  destruct (env_currentProfile env) as [profile|]; [|done]. rewrite /=. run_simpl.
  by destruct (env_findUnique env _).
Qed.

(** C2: with no viewer the component redirects to the root route, renders
    nothing and does not read the database: the only calls are the session
    lookup and the redirect. *)
Theorem ServerSidebar_no_profile :
  env_currentProfile env = None →
  run env (ServerSidebar props) =
    ([EvCurrentProfile None; EvRedirect "/"], Redirected "/").
Proof. intros Hp. by run_sidebar. Qed.

(** C3: with a viewer and no server of the requested id the component reads
    the database once, with the query of the source, and redirects to the root
    route without rendering. *)
Theorem ServerSidebar_no_server profile :
  env_currentProfile env = Some profile →
  env_findUnique env (serverQuery (serverId props)) = None →
  run env (ServerSidebar props) =
    ([EvCurrentProfile (Some profile);
      EvFindUnique (serverQuery (serverId props)) None;
      EvRedirect "/"], Redirected "/").
Proof. intros Hp Hs. by run_sidebar. Qed.

(** C4: with a viewer and a server the component asks for the viewer, reads the
    database once, does not redirect and returns the view of that server for
    that viewer. *)
Theorem ServerSidebar_ready profile server :
  env_currentProfile env = Some profile →
  env_findUnique env (serverQuery (serverId props)) = Some server →
  run env (ServerSidebar props) =
    ([EvCurrentProfile (Some profile);
      EvFindUnique (serverQuery (serverId props)) (Some server)],
     Returned (sidebarView server profile)).
Proof. intros Hp Hs. by run_sidebar. Qed.

(** The calls of a render are determined by the result: the session lookup
    always comes first, the database is read after it only for a viewer, and a
    redirect is the last call of a failed render. *)
Lemma ServerSidebar_trace :
  trace env (ServerSidebar props) =
  EvCurrentProfile (env_currentProfile env) ::
  match resolveIn env props with
  | NotAuthenticated => [EvRedirect "/"]
  | NotFound => [EvFindUnique (serverQuery (serverId props)) None; EvRedirect "/"]
  | Ready server _ => [EvFindUnique (serverQuery (serverId props)) (Some server)]
  end.
Proof.
  pose proof resolveIn_cases as Hcases.
  destruct (resolveIn env props); destruct_and?; [|destruct Hcases as (?&?&?)|];
    by run_sidebar.
Qed.

(** C25: a render reads the database at most once, and only with the query of
    the source for the requested id; a render without viewer does not read it
    at all. *)
Theorem ServerSidebar_one_query :
  queries (trace env (ServerSidebar props)) =
  if env_currentProfile env is Some _ then [serverQuery (serverId props)] else [].
Proof.
  destruct (env_currentProfile env) as [profile|] eqn:Hp; [|by run_sidebar].
  destruct (env_findUnique env (serverQuery (serverId props))) eqn:Hs;
    by run_sidebar.
Qed.

(** C24: membership is not required: a viewer who has no membership in the
    server is not redirected but gets the view, rendered without a role, with
    a row for every channel and for every member of the server. *)
Theorem ServerSidebar_outsider profile server :
  env_currentProfile env = Some profile →
  env_findUnique env (serverQuery (serverId props)) = Some server →
  memberships profile server = [] →
  ∃ view, outcome env (ServerSidebar props) = Returned view ∧
    role server profile = None ∧
    memb_member <$> renderedMembers view = server_members server ∧
    chan_channel <$> renderedChannels view ≡ₚ server_channels server.
Proof.
  intros Hp Hs Hout. exists (sidebarView server profile).
  split; [by run_sidebar|]. split; [by apply role_None|]. split.
  - rewrite renderedMembers_sidebarView -list_fmap_compose list_fmap_id.
    by apply members_of_outsider.
  - by rewrite renderedChannels_channels channels_partition.
Qed.

(** A caller cannot tell the two failures apart: a render that does not
    return a view ends in the redirect to the root route, whichever of the
    viewer and the server was missing. *)
Lemma ServerSidebar_failures_indistinguishable :
  (∀ view, outcome env (ServerSidebar props) ≠ Returned view) →
  outcome env (ServerSidebar props) = Redirected "/".
Proof.
  destruct (env_currentProfile env) as [profile|] eqn:Hp; [|by run_sidebar].
  destruct (env_findUnique env (serverQuery (serverId props))) as [server|]
    eqn:Hs; [|by run_sidebar].
  intros []%(.$ sidebarView server profile). by run_sidebar.
Qed.

End run_sidebar.

(** A render depends on the environment through two answers: the viewer of
    the session and the server stored under the requested id. *)
Lemma ServerSidebar_run_ext (env env' : Env) (props : ServerSidebarProps) :
  env_currentProfile env' = env_currentProfile env →
  env_findUnique env' (serverQuery (serverId props)) =
    env_findUnique env (serverQuery (serverId props)) →
  run env' (ServerSidebar props) = run env (ServerSidebar props).
Proof.
  intros Hp Hs. rewrite /ServerSidebar. run_simpl. rewrite Hp.
  destruct (env_currentProfile env) as [profile|]; [|done].
  rewrite /= Hs. by destruct (env_findUnique env _).
Qed.

(** ** Witnesses *)

Lemma ServerSidebar_no_profile_witness :
  env_currentProfile anonymousEnv = None ∧
  run anonymousEnv (ServerSidebar (mkServerSidebarProps "s-hub")) =
    ([EvCurrentProfile None; EvRedirect "/"], Redirected "/").
Proof.
  split; [reflexivity|].
  exact (ServerSidebar_no_profile anonymousEnv (mkServerSidebarProps "s-hub")
    eq_refl).
Defined.

Lemma ServerSidebar_no_server_witness :
  env_currentProfile (sessionEnv alice) = Some alice ∧
  env_findUnique (sessionEnv alice) (serverQuery "s-gone") = None ∧
  run (sessionEnv alice) (ServerSidebar (mkServerSidebarProps "s-gone")) =
    ([EvCurrentProfile (Some alice);
      EvFindUnique (serverQuery "s-gone") None;
      EvRedirect "/"], Redirected "/").
Proof.
  split; [reflexivity|]. split; [reflexivity|].
  exact (ServerSidebar_no_server (sessionEnv alice)
    (mkServerSidebarProps "s-gone") alice eq_refl eq_refl).
Defined.

Lemma ServerSidebar_ready_witness :
  env_currentProfile (sessionEnv bob) = Some bob ∧
  env_findUnique (sessionEnv bob) (serverQuery "s-hub") = Some hub ∧
  run (sessionEnv bob) (ServerSidebar (mkServerSidebarProps "s-hub")) =
    ([EvCurrentProfile (Some bob);
      EvFindUnique (serverQuery "s-hub") (Some hub)],
     Returned (sidebarView hub bob)).
Proof.
  split; [reflexivity|]. split; [reflexivity|].
  exact (ServerSidebar_ready (sessionEnv bob) (mkServerSidebarProps "s-hub")
    bob hub eq_refl eq_refl).
Defined.

Lemma ServerSidebar_outsider_witness :
  env_currentProfile (sessionEnv dave) = Some dave ∧
  env_findUnique (sessionEnv dave) (serverQuery "s-hub") = Some hub ∧
  memberships dave hub = [] ∧
  ∃ view,
    outcome (sessionEnv dave) (ServerSidebar (mkServerSidebarProps "s-hub"))
      = Returned view ∧
    role hub dave = None ∧
    memb_member <$> renderedMembers view = server_members hub ∧
    chan_channel <$> renderedChannels view ≡ₚ server_channels hub.
Proof.
  split; [reflexivity|]. split; [reflexivity|]. split; [reflexivity|].
  exact (ServerSidebar_outsider (sessionEnv dave) (mkServerSidebarProps "s-hub")
    dave hub eq_refl eq_refl eq_refl).
Defined.
