(* ===== verification/Faults.v ===== *)
(** * Faults: the component when a collaborator fails

    The component awaits [currentProfile()] and [db.server.findUnique] without
    a handler (lines 46 and 52 of [server-sidebar.tsx]), so a rejection of
    either ends the render with the reason of the rejection: no later call
    is made, nothing is rendered and there is no redirect.  The semantics is
    [Worlds.attempt]; [resolveUnder] extends the contract of [Sidebar] with
    that case.

    The theorems: the component implements the extended contract, with its
    calls in every case; its run when the query is rejected; a render
    returns the whole view or none; and the exact condition under which a
    render fails. *)

From S2P Require Import Prelude Schema Fixtures Partition Search View.
From S2P Require Import Effects Worlds Sidebar.
Set Warnings "-rewrite-rw".

(** ** The contract, with failures *)

Inductive SidebarAttempt :=
  | Decided (r : SidebarResult)
  | Crashed (reason : string).

(** What the component is to decide from the way the two calls settle; the
    query matters only when there is a viewer. *)
Definition resolveUnder (w : World) (props : ServerSidebarProps) : SidebarAttempt :=
  match world_currentProfile w with
  | Rejected reason => Crashed reason
  | Fulfilled None => Decided NotAuthenticated
  | Fulfilled (Some profile) =>
      match world_findUnique w (serverQuery (serverId props)) with
      | Rejected reason => Crashed reason
      | Fulfilled None => Decided NotFound
      | Fulfilled (Some server) => Decided (Ready server profile)
      end
  end.

Definition conclude (a : SidebarAttempt) : Completion Element :=
  match a with
  | Decided r => Completed (present r)
  | Crashed reason => Failed reason
  end.

(** Worlds for the witnesses: the session of a viewer over a database that is
    down, and a session lookup that fails. *)
Definition databaseDown (viewer : option Profile) : World :=
  {| world_currentProfile := Fulfilled viewer;
     world_findUnique := λ _, Rejected "P1001: can't reach database server" |}.

Definition sessionDown : World :=
  {| world_currentProfile := Rejected "session unavailable";
     world_findUnique := λ args, Fulfilled (env_findUnique (sessionEnv alice) args) |}.

(** [attempt_sidebar] evaluates the attempt of the component up to the way the
    calls settle in the world. *)
Ltac attempt_sidebar :=
  rewrite /ServerSidebar; autorewrite with attempt; simpl;
  repeat match goal with
  | H : world_currentProfile _ = _ |- _ => rewrite H /=; autorewrite with attempt; simpl
  | H : world_findUnique _ _ = _ |- _ => rewrite H /=; autorewrite with attempt; simpl
  end.

(** [settle_cases w props] considers every way the two calls of the component
    settle in [w] and evaluates its attempt in each. *)
Ltac settle_cases w props :=
  destruct (world_currentProfile w) as [[?profile|]|?reason] eqn:?;
    [destruct (world_findUnique w (serverQuery (serverId props)))
       as [[?server|]|?reason] eqn:?|..];
  attempt_sidebar.

(** ** The component *)

Section attempt_sidebar.
Context (w : World) (props : ServerSidebarProps).
Implicit Types (profile : Profile) (server : Server) (reason : string).

(** C14: the component implements the contract with failures, in every world:
    the session lookup comes first and the query follows for a viewer only; a
    rejected call is the last call, and the render fails with its reason
    without a redirect; otherwise the render ends as the contract of
    [Sidebar] says, with a redirect after a lookup that found nothing.  A
    rejected query does not matter to a request without viewer. *)
Theorem ServerSidebar_attempt :
  attempt w (ServerSidebar props) =
    (AtCurrentProfile (world_currentProfile w) ::
     match resolveUnder w props with
     | Decided NotAuthenticated => [AtRedirect "/"]
     | Decided NotFound =>
         [AtFindUnique (serverQuery (serverId props)) (Fulfilled None);
          AtRedirect "/"]
     | Decided (Ready server _) =>
         [AtFindUnique (serverQuery (serverId props)) (Fulfilled (Some server))]
     | Crashed reason =>
         if world_currentProfile w is Fulfilled _
         then [AtFindUnique (serverQuery (serverId props)) (Rejected reason)]
         else []
     end,
     conclude (resolveUnder w props)).
Proof. rewrite /resolveUnder. by settle_cases w props. Qed.

(** When the session lookup is rejected the render fails with its reason
    after that one call: the database is not read. *)
Lemma ServerSidebar_profile_rejected reason :
  world_currentProfile w = Rejected reason →
  attempt w (ServerSidebar props) =
    ([AtCurrentProfile (Rejected reason)], Failed reason).
Proof. intros Hp. by attempt_sidebar. Qed.

(** C15: when the query is rejected the render of a viewer fails with its
    reason after the two calls: nothing is rendered and there is no
    redirect, so the failure is neither of the two the contract names. *)
Theorem ServerSidebar_query_rejected profile reason :
  world_currentProfile w = Fulfilled (Some profile) →
  world_findUnique w (serverQuery (serverId props)) = Rejected reason →
  attempt w (ServerSidebar props) =
    ([AtCurrentProfile (Fulfilled (Some profile));
      AtFindUnique (serverQuery (serverId props)) (Rejected reason)],
     Failed reason).
Proof. intros Hp Hs. by attempt_sidebar. Qed.

(** C16: a render that returns a tree returns the whole view of a server
    that was found, for a viewer that was found: no failure of a collaborator
    leaves a partial tree. *)
Theorem ServerSidebar_all_or_nothing view :
  (attempt w (ServerSidebar props)).2 = Completed (Returned view) →
  ∃ server profile,
    world_currentProfile w = Fulfilled (Some profile) ∧
    world_findUnique w (serverQuery (serverId props)) = Fulfilled (Some server) ∧
    view = sidebarView server profile.
Proof. settle_cases w props; try done. intros [= <-]. eauto. Qed.

(** A render fails exactly when the session lookup is rejected, or it finds a
    viewer and the query is rejected; the reason is that of the rejection. *)
Lemma ServerSidebar_Failed reason :
  (attempt w (ServerSidebar props)).2 = Failed reason ↔
  world_currentProfile w = Rejected reason ∨
  ∃ profile, world_currentProfile w = Fulfilled (Some profile) ∧
    world_findUnique w (serverQuery (serverId props)) = Rejected reason.
Proof.
  settle_cases w props;
    (split; [intros [= <-]; eauto|intros [[= <-]|(? & [= <-] & [= <-])]; done]).
Qed.

End attempt_sidebar.

(** ** Witnesses *)

(** A session lookup that fails: the database is not asked. *)
Example sessionDown_run :
  attempt sessionDown (ServerSidebar {| serverId := "s-hub" |}) =
    ([AtCurrentProfile (Rejected "session unavailable")],
     Failed "session unavailable").
Proof. done. Qed.

Lemma ServerSidebar_query_rejected_witness :
  attempt (databaseDown (Some alice)) (ServerSidebar {| serverId := "s-hub" |}) =
    ([AtCurrentProfile (Fulfilled (Some alice));
      AtFindUnique (serverQuery "s-hub")
        (Rejected "P1001: can't reach database server")],
     Failed "P1001: can't reach database server").
Proof. by apply ServerSidebar_query_rejected. Defined.

Lemma ServerSidebar_all_or_nothing_witness :
  ∃ server profile,
    world_currentProfile (reliable (sessionEnv alice)) = Fulfilled (Some profile) ∧
    world_findUnique (reliable (sessionEnv alice)) (serverQuery "s-hub")
      = Fulfilled (Some server) ∧
    sidebarView hub alice = sidebarView server profile.
Proof.
  by apply (ServerSidebar_all_or_nothing _ {| serverId := "s-hub" |}).
Defined.

(** A request without viewer does not notice that the database is down. *)
Example anonymous_databaseDown :
  attempt (databaseDown None) (ServerSidebar {| serverId := "s-hub" |}) =
    ([AtCurrentProfile (Fulfilled None); AtRedirect "/"],
     Completed (Redirected "/")).
Proof. done. Qed.
