(* ===== verification/Timeline.v ===== *)
(** * Timeline: a render while the session and the database change

    [ServerSidebar] awaits twice, and each [await] lets other requests run:
    the session may end, the database may be written or go down between the
    call of [currentProfile] and the query.  A [Timeline] gives the world at
    every instant; [Worlds.attemptFrom] answers each call of a program in
    the world of the instant at which it is made, one instant per call.

    The theorems: a render of the component on a timeline is its render in
    one world, made of the session of the first instant and the database of
    the second ([seen]), so that every part of a returned view (header,
    search index, sections, rows) comes from one state of the database and
    what is proved of [attempt] holds of renders on timelines; and two
    timelines that agree on the two answers give the same run, whatever was
    written before, between and after. *)

From S2P Require Import Prelude Schema Fixtures Partition Search View.
From S2P Require Import Effects Worlds Sidebar Faults.
Set Warnings "-rewrite-rw".

(** What a render that starts at [t] sees of a timeline: the session of
    instant [t] and the database of the next instant. *)
Definition seen (h : Timeline) (t : nat) : World :=
  {| world_currentProfile := world_currentProfile (h t);
     world_findUnique := world_findUnique (h (S t)) |}.

(** The timeline of a list of events: the world of instant [t] is the
    initial one after the first [t] of them. *)
Definition after (w : World) (events : list (World → World)) : Timeline :=
  λ t, foldl (λ w event, event w) w (take t events).

(** Events for the examples: the session ends; a server is deleted; a
    channel is created; the database goes down. *)
Definition signOut (w : World) : World :=
  {| world_currentProfile := Fulfilled None;
     world_findUnique := world_findUnique w |}.

Definition deleteServer (id : string) (w : World) : World :=
  {| world_currentProfile := world_currentProfile w;
     world_findUnique := λ args,
       if decide (where_id args = id) then Fulfilled None
       else world_findUnique w args |}.

Definition createChannel (channel : Channel) (w : World) : World :=
  {| world_currentProfile := world_currentProfile w;
     world_findUnique := λ args,
       match world_findUnique w args with
       | Fulfilled (Some server) =>
           Fulfilled (Some
             (if decide (server_id server = channel_serverId channel)
              then {| server_id := server_id server;
                      server_name := server_name server;
                      server_channels := server_channels server ++ [channel];
                      server_members := server_members server |}
              else server))
       | answer => answer
       end |}.

Definition outage (reason : string) (w : World) : World :=
  {| world_currentProfile := world_currentProfile w;
     world_findUnique := λ _, Rejected reason |}.

(** ** The component *)

Section timeline_sidebar.
Context (h : Timeline) (t : nat) (props : ServerSidebarProps).
Implicit Types (profile : Profile) (server : Server) (view : Element).

(** C17: while the world changes, a render that starts at instant [t] is the
    render in one world: the one with the session of instant [t] and the
    database of instant [t + 1].  It makes the same calls, settled the same
    way, and ends the same way, so every part of a returned view comes from
    the one state the database had when it was read. *)
Theorem ServerSidebar_snapshot :
  attemptFrom h t (ServerSidebar props) = attempt (seen h t) (ServerSidebar props).
Proof.
  rewrite /ServerSidebar /=.
  destruct (world_currentProfile (h t)) as [[profile|]|reason]; [|done..].
  simpl. by destruct (world_findUnique (h (S t)) _) as [[server|]|reason].
Qed.

(** C18: a render depends on the world through two answers only: on a second
    timeline on which the session lookup settles the same way at [t] and the
    query of the requested server the same way at [t + 1] the render makes
    the same calls and ends the same way, whatever else was written, and
    whenever. *)
Theorem ServerSidebar_unaffected (h' : Timeline) :
  world_currentProfile (h' t) = world_currentProfile (h t) →
  world_findUnique (h' (S t)) (serverQuery (serverId props)) =
    world_findUnique (h (S t)) (serverQuery (serverId props)) →
  attemptFrom h' t (ServerSidebar props) = attemptFrom h t (ServerSidebar props).
Proof.
  intros Hp Hs. rewrite /ServerSidebar /= Hp.
  destruct (world_currentProfile (h t)) as [[profile|]|reason]; [|done..].
  rewrite /= Hs. by destruct (world_findUnique (h (S t)) _) as [[server|]|reason'].
Qed.

End timeline_sidebar.

(** ** Witnesses and examples *)

(** Carol's render of the hub is the same whether or not the studio is
    deleted before the query and a channel is added to the hub after it. *)
Lemma ServerSidebar_unaffected_witness :
  attemptFrom (after (reliable (sessionEnv carol))
                 [deleteServer "s-studio"; id;
                  createChannel (mkChannel "c-late" "late" TEXT 900 "s-hub")])
      0 (ServerSidebar {| serverId := "s-hub" |})
  = attemptFrom (always (reliable (sessionEnv carol))) 0
      (ServerSidebar {| serverId := "s-hub" |}).
Proof. by apply ServerSidebar_unaffected. Defined.

(** A session that ends after the first call does not stop the render. *)
Example signOut_after_lookup :
  (attemptFrom (after (reliable (sessionEnv alice)) [signOut]) 0
     (ServerSidebar {| serverId := "s-hub" |})).2
  = Completed (Returned (sidebarView hub alice)).
Proof. done. Qed.

(** A server deleted between the two calls is not found. *)
Example deleted_before_query :
  attemptFrom (after (reliable (sessionEnv alice)) [deleteServer "s-hub"]) 0
    (ServerSidebar {| serverId := "s-hub" |})
  = ([AtCurrentProfile (Fulfilled (Some alice));
      AtFindUnique (serverQuery "s-hub") (Fulfilled None);
      AtRedirect "/"], Completed (Redirected "/")).
Proof. done. Qed.

(** A channel created between the two calls is shown. *)
Example created_before_query :
  (attemptFrom
     (after (reliable (sessionEnv alice))
        [createChannel (mkChannel "c-late" "late" TEXT 900 "s-hub")]) 0
     (ServerSidebar {| serverId := "s-hub" |})).2
  = Completed (Returned (sidebarView
      (mkServer "s-hub" "Hub"
         (server_channels hub ++ [mkChannel "c-late" "late" TEXT 900 "s-hub"])
         (server_members hub)) alice)).
Proof. done. Qed.

(** A database that goes down after the session lookup fails the render. *)
Example outage_before_query :
  (attemptFrom (after (reliable (sessionEnv alice)) [outage "P1001"]) 0
     (ServerSidebar {| serverId := "s-hub" |})).2
  = Failed "P1001".
Proof. done. Qed.
