(* ===== verification/Lifecycle.v ===== *)
(** * Lifecycle: the states a render goes through

    The component of [Sidebar] under the step semantics of [Steps], in a
    world that may change and fail: a render starts with no call made, asks
    for the viewer, asks for the server when there is a viewer, and ends by
    returning the view, by leaving for the root route, or broken by a
    rejected call.

    [Phase] and [advance] are the call protocol as an automaton over the
    calls made: what the component may call next after what it has called.
    The theorems are about every state a render can reach, on every
    timeline: the calls made so far follow the protocol and the phase says
    whether and how the render has ended (safety), and from wherever a
    render has got to it goes on to the completion the contract decides from
    the session of its first instant and the database of its second
    (liveness).  On a timeline every promise settles, so every step sequence
    is finite and a render makes at most three steps; [Pending] says when a
    render ends if promises may stay pending. *)

From stdpp Require Import relations.
From S2P Require Import Prelude Schema Fixtures Partition Search.
From S2P Require Import View Rendered Effects Worlds.
From S2P Require Import Steps Sidebar Faults Timeline.
Set Warnings "-rewrite-rw".

(** The state a render starts in. *)
Definition start (props : ServerSidebarProps) : State Element :=
  Running [] (ServerSidebar props).

(** ** The call protocol *)

Inductive Phase :=
  | Fresh           (* nothing called yet *)
  | Anonymous       (* the session has no viewer *)
  | Authenticated   (* the viewer is known *)
  | Missing         (* the query found no server *)
  | Found           (* the query found the server *)
  | Departed        (* the render was left *)
  | Crashed.        (* a call was rejected *)

#[export] Instance Phase_eq_dec : EqDecision Phase.
Proof. solve_decision. Defined.

(** The phase after one more call, when the protocol allows the call: the
    viewer is asked for first, the database is read for a viewer only, once
    and with the query [q], a redirect goes to the root route, after a
    lookup that found nothing only, and nothing follows a rejected call. *)
Definition advance (q : ServerFindUniqueArgs) (ph : Phase) (ev : Attempt) :
    option Phase :=
  match ph, ev with
  | Fresh, AtCurrentProfile (Fulfilled None) => Some Anonymous
  | Fresh, AtCurrentProfile (Fulfilled (Some _)) => Some Authenticated
  | Fresh, AtCurrentProfile (Rejected _) => Some Crashed
  | Authenticated, AtFindUnique q' answer =>
      if decide (q' = q) then
        Some match answer with
             | Fulfilled None => Missing
             | Fulfilled (Some _) => Found
             | Rejected _ => Crashed
             end
      else None
  | Anonymous, AtRedirect url | Missing, AtRedirect url =>
      if decide (url = "/") then Some Departed else None
  | _, _ => None
  end.

(** The phase a sequence of calls leads to, when it follows the protocol. *)
Definition phaseOf (q : ServerFindUniqueArgs) (tr : list Attempt) : option Phase :=
  foldl (λ ph ev, ph ≫= λ ph, advance q ph ev) (Some Fresh) tr.

(** What the phase says of the state: a render has ended exactly in the
    phases [Found], with a view, [Departed], at the root route, and
    [Crashed], with the reason of the rejection. *)
Definition phase_result (ph : Phase) (r : option (Completion Element)) : Prop :=
  match ph with
  | Found =>
      ∃ server profile, r = Some (Completed (Returned (sidebarView server profile)))
  | Departed => r = Some (Completed (Redirected "/"))
  | Crashed => ∃ reason, r = Some (Failed reason)
  | _ => r = None
  end.

(** The timeline of the witnesses: bob asks for the hub, and the database
    goes down after the session lookup. *)
Definition outageDuringRender : Timeline :=
  after (reliable (sessionEnv bob)) [outage "P1001"].

(** ** Every render *)

(** [settle_steps h t props] considers every way the two calls of a render
    that starts at [t] settle on the timeline [h] and evaluates the steps of
    the render in each. *)
Ltac settle_steps h t props :=
  destruct (world_currentProfile (h t)) as [[?profile|]|?reason] eqn:?;
    [destruct (world_findUnique (h (S t)) (serverQuery (serverId props)))
       as [[?server|]|?reason] eqn:?|..];
  rewrite /start /ServerSidebar /resolveUnder /=;
  repeat match goal with
  | H : world_currentProfile _ = _ |- _ => rewrite H /=
  | H : world_findUnique _ _ = _ |- _ => rewrite H /=
  end.

Section lifecycle.
Context (h : Timeline) (t : nat) (props : ServerSidebarProps).
Implicit Types (s : State Element).

(** After three steps every render has ended, the way the contract decides
    from what the render sees of the timeline. *)
Lemma exec_start_result :
  result (exec h t 3 (start props)) =
  Some (conclude (resolveUnder (seen h t) props)).
Proof. by settle_steps h t props. Qed.

(** The states a render can reach are those of its first three steps. *)
Lemma reachable_start s :
  rtc (step h t) (start props) s →
  ∃ i, i ≤ 3 ∧ s = exec h t i (start props).
Proof. apply rtc_exec_bounded. rewrite exec_start_result. by eexists. Qed.

(** C11: every state a render can reach has made calls that follow the
    protocol: the viewer is asked for first, the database is read only for a
    viewer and only with the query for the requested server, a redirect to
    the root route comes last and only after a lookup that found nothing,
    and nothing follows a rejected call; and the render has ended exactly
    when the protocol has, with a view in the phase [Found], at the root
    route in the phase [Departed] and failed in the phase [Crashed]. *)
Theorem ServerSidebar_protocol s :
  rtc (step h t) (start props) s →
  ∃ ph, phaseOf (serverQuery (serverId props)) (state_trace s) = Some ph ∧
        phase_result ph (result s).
Proof.
  intros (i & Hi & ->)%reachable_start.
  destruct i as [|[|[|[|]]]]; [..|lia]; settle_steps h t props;
    rewrite /phaseOf /= ?decide_True //; eexists; (split; [done|]);
    rewrite /phase_result; eauto.
Qed.

(** Where every promise settles, as on a timeline, a render makes at most
    three steps: no sequence of steps from the start is infinite, and within
    three steps the render has reached a state that makes no further call.
    What happens when a promise never settles is in [Pending]. *)
Lemma ServerSidebar_three_steps :
  sn (step h t) (start props) ∧
  ∃ n s, n ≤ 3 ∧ nsteps (step h t) n (start props) s ∧ nf (step h t) s.
Proof.
  split; [apply step_sn|].
  exists (length (attemptFrom h t (ServerSidebar props)).1),
    (finish [] (attemptFrom h t (ServerSidebar props))).
  split; [|split; [apply (run_nsteps h t [])|]].
  - settle_steps h t props; lia.
  - apply nf_result. rewrite result_finish. by eexists.
Qed.

(** C13: every render is answered: from every state a render can reach, it
    goes on to a state that has ended the way the contract decides from the
    session of the first instant and the database of the second: with the
    view when the viewer and the server exist, with the redirect when one
    of them does not, and failed when a call it awaits is rejected. *)
Theorem ServerSidebar_responds s :
  rtc (step h t) (start props) s →
  ∃ s', rtc (step h t) s s' ∧
        result s' = Some (conclude (resolveUnder (seen h t) props)).
Proof.
  intros Hs. exists (exec h t 3 (start props)). split; [|apply exec_start_result].
  apply reachable_start in Hs as (i & Hi & ->).
  replace 3 with (i + (3 - i)) by lia. rewrite exec_add. apply exec_rtc.
Qed.

End lifecycle.

(** ** Witnesses *)

Lemma ServerSidebar_protocol_witness :
  rtc (step outageDuringRender 0)
    (start (mkServerSidebarProps "s-hub"))
    (exec outageDuringRender 0 2 (start (mkServerSidebarProps "s-hub"))) ∧
  ∃ ph, phaseOf (serverQuery "s-hub")
          (state_trace (exec outageDuringRender 0 2
            (start (mkServerSidebarProps "s-hub")))) = Some ph ∧
        phase_result ph
          (result (exec outageDuringRender 0 2
            (start (mkServerSidebarProps "s-hub")))).
Proof.
  pose proof (exec_rtc outageDuringRender 0 2
    (start (mkServerSidebarProps "s-hub"))) as Hreach.
  split; [exact Hreach|].
  exact (ServerSidebar_protocol outageDuringRender 0
    (mkServerSidebarProps "s-hub") _ Hreach).
Defined.

Lemma ServerSidebar_responds_witness :
  rtc (step (always (reliable anonymousEnv)) 0)
    (start (mkServerSidebarProps "s-hub"))
    (exec (always (reliable anonymousEnv)) 0 1
       (start (mkServerSidebarProps "s-hub"))) ∧
  ∃ s', rtc (step (always (reliable anonymousEnv)) 0)
          (exec (always (reliable anonymousEnv)) 0 1
             (start (mkServerSidebarProps "s-hub"))) s' ∧
        result s' = Some (conclude (resolveUnder
          (seen (always (reliable anonymousEnv)) 0)
          (mkServerSidebarProps "s-hub"))).
Proof.
  pose proof (exec_rtc (always (reliable anonymousEnv)) 0 1
    (start (mkServerSidebarProps "s-hub"))) as Hreach.
  split; [exact Hreach|].
  exact (ServerSidebar_responds (always (reliable anonymousEnv)) 0
    (mkServerSidebarProps "s-hub") _ Hreach).
Defined.

(** The render of the witness: the query is rejected and the render ends
    broken after two calls. *)
Example outageDuringRender_steps :
  exec outageDuringRender 0 3 (start (mkServerSidebarProps "s-hub")) =
  Broken [AtCurrentProfile (Fulfilled (Some bob));
          AtFindUnique (serverQuery "s-hub") (Rejected "P1001")] "P1001".
Proof. done. Qed.
