(* ===== verification/Pending.v ===== *)
(** * Pending: the component when a promise never settles

    [Worlds] settles every awaited promise, fulfilled or rejected, so every
    render of that semantics ends.  The two calls the component awaits
    (lines 46 and 52 of [server-sidebar.tsx]) go to the session and to the
    database, it sets no timeout of its own, and a promise that is never
    settled keeps an [await] waiting for ever.

    [await] is the semantics of [Worlds.attempt] with that case: some
    promises never settle ([stalled]), a program that awaits one of them
    hangs on it ([Hangs]), and the trace lists the calls that settled.

    The theorems: where every promise settles [await] is [attempt]; a
    program that ends under [await] ends as [attempt] says; and the
    component ends exactly when the promise of the session lookup settles
    and, for a viewer, the promise of the query does.  A request without
    viewer ends whatever the database does. *)

From S2P Require Import Prelude Schema Fixtures Partition Search View.
From S2P Require Import Effects Worlds Sidebar Faults.
Set Warnings "-rewrite-rw".

(** ** Promises that stay pending *)

(** The promise of an awaited call. *)
Inductive Awaited :=
  | OnCurrentProfile
  | OnFindUnique (args : ServerFindUniqueArgs).

#[export] Instance Awaited_eq_dec : EqDecision Awaited.
Proof. solve_decision. Defined.

(** The promise a call waits on; [redirect] returns nothing to wait on. *)
Definition awaited {X} (c : Call X) : option Awaited :=
  match c with
  | CurrentProfile => Some OnCurrentProfile
  | FindUnique args => Some (OnFindUnique args)
  | Redirect _ => None
  end.

(** How a render ends, if it does. *)
Inductive Ending (A : Type) :=
  | Ends (c : Completion A)
  | Hangs (on : Awaited).

Arguments Ends {A} c.
Arguments Hangs {A} on.

(** The promise a call is left waiting on, where [stalled] tells which
    promises never settle. *)
Definition stalls (stalled : Awaited → bool) {X} (c : Call X) : option Awaited :=
  on ← awaited c; if stalled on then Some on else None.

(** A program in a world some of whose promises never settle: an [await] on
    one of them is the end of what the program does; the others settle as
    the world says. *)
Fixpoint await {A} (stalled : Awaited → bool) (w : World) (m : Prog A) :
    list Attempt * Ending A :=
  match m with
  | Ret a => ([], Ends (Completed (Returned a)))
  | Vis c k =>
      match stalls stalled c with
      | Some on => ([], Hangs on)
      | None =>
          let rest :=
            match settle w c with
            | Fulfilled (inl x) => await stalled w (k x)
            | Fulfilled (inr url) => ([], Ends (Completed (Redirected url)))
            | Rejected reason => ([], Ends (Failed reason))
            end in
          (record w c :: rest.1, rest.2)
      end
  end.

(** Every promise settles; the database never answers; the session never
    answers. *)
Definition prompt : Awaited → bool := λ _, false.

Definition databaseHangs : Awaited → bool :=
  λ on, if on is OnFindUnique _ then true else false.

Definition sessionHangs : Awaited → bool :=
  λ on, if on is OnCurrentProfile then true else false.

(** ** The interpreter *)

Section await.
Context {A : Type} (stalled : Awaited → bool) (w : World).
Implicit Types (m : Prog A) (c : Completion A) (on : Awaited).

(** Where every promise settles a program runs as in [Worlds]. *)
Lemma await_settled m :
  (∀ on, stalled on = false) →
  await stalled w m = ((attempt w m).1, Ends (attempt w m).2).
Proof.
  intros Hall. induction m as [a|X c k IH]; [done|]. simpl.
  assert (stalls stalled c = None) as ->.
  { rewrite /stalls. destruct (awaited c) as [on|]; [|done]. by rewrite /= Hall. }
  destruct (settle w c) as [[x|url]|reason]; by rewrite ?IH.
Qed.

(** A program that ends made the calls and ended the way it does when every
    promise settles. *)
Lemma await_Ends m c :
  (await stalled w m).2 = Ends c → await stalled w m = ((attempt w m).1, Ends c) ∧
  c = (attempt w m).2.
Proof.
  induction m as [a|X call k IH]; simpl; [by intros [= <-]|].
  destruct (stalls stalled call) as [on|]; [done|]. simpl.
  destruct (settle w call) as [[x|url]|reason]; [|by intros [= <-]..].
  intros Hx. destruct (IH x Hx) as [-> Hc]. by rewrite -Hc.
Qed.

(** A program hangs on a promise that never settles, and on no other. *)
Lemma await_Hangs m on : (await stalled w m).2 = Hangs on → stalled on = true.
Proof.
  induction m as [a|X call k IH]; simpl; [done|].
  destruct (stalls stalled call) as [on'|] eqn:Hon; simpl.
  - intros [= <-]. rewrite /stalls in Hon.
    destruct (awaited call) as [on''|]; [|done]. simpl in Hon.
    by destruct (stalled on'') eqn:?; simplify_eq.
  - destruct (settle w call) as [[x|url]|reason]; [apply IH|done..].
Qed.

End await.

(** ** The component *)

Section await_sidebar.
Context (stalled : Awaited → bool) (w : World) (props : ServerSidebarProps).
Implicit Types (profile : Profile) (c : Completion Element).

(** The render of the component, promise by promise: it hangs on the
    session lookup when that never settles, before any call has settled; it
    hangs on the query after the session lookup when there is a viewer and
    the database never answers; in every other case it makes the calls and
    ends the way [Faults.ServerSidebar_attempt] says. *)
Lemma ServerSidebar_await :
  await stalled w (ServerSidebar props) =
    if stalled OnCurrentProfile then ([], Hangs OnCurrentProfile)
    else if world_currentProfile w is Fulfilled (Some profile)
    then
      if stalled (OnFindUnique (serverQuery (serverId props)))
      then ([AtCurrentProfile (Fulfilled (Some profile))],
            Hangs (OnFindUnique (serverQuery (serverId props))))
      else ((attempt w (ServerSidebar props)).1,
            Ends (attempt w (ServerSidebar props)).2)
    else ((attempt w (ServerSidebar props)).1,
          Ends (attempt w (ServerSidebar props)).2).
Proof.
  rewrite /ServerSidebar /= /stalls /=.
  destruct (stalled OnCurrentProfile); [done|].
  destruct (world_currentProfile w) as [[profile|]|reason]; [|done..].
  rewrite /= /stalls /=. destruct (stalled (OnFindUnique _)); [done|].
  by destruct (world_findUnique w _) as [[server|]|reason].
Qed.

(** C12: a render ends exactly when the promises it awaits settle: that of
    the session lookup and, when the lookup finds a viewer, that of the
    query for the requested server.  The component has no loop, no retry and
    no timeout, so nothing else keeps a render from ending, and a database
    that never answers does not keep a request without viewer, or one whose
    session lookup is rejected, from ending. *)
Theorem ServerSidebar_ends :
  (∃ c, (await stalled w (ServerSidebar props)).2 = Ends c) ↔
  stalled OnCurrentProfile = false ∧
  (∀ profile, world_currentProfile w = Fulfilled (Some profile) →
     stalled (OnFindUnique (serverQuery (serverId props))) = false).
Proof.
  rewrite ServerSidebar_await.
  destruct (stalled OnCurrentProfile); [split; [by intros []|by intros []]|].
  destruct (world_currentProfile w) as [[profile|]|reason];
    [|split; [done|by eexists]..].
  destruct (stalled (OnFindUnique _)).
  - split; [by intros []|]. intros [_ Hq]. by specialize (Hq profile eq_refl).
  - split; [done|by eexists].
Qed.

End await_sidebar.

(** ** Examples *)

(** A database that never answers leaves the render of a viewer waiting on
    the query, after the session lookup. *)
Example viewer_databaseHangs :
  await databaseHangs (reliable (sessionEnv alice))
    (ServerSidebar {| serverId := "s-hub" |})
  = ([AtCurrentProfile (Fulfilled (Some alice))],
     Hangs (OnFindUnique (serverQuery "s-hub"))).
Proof. done. Qed.

(** It does not keep a request without viewer from being redirected. *)
Example anonymous_databaseHangs :
  await databaseHangs (reliable anonymousEnv)
    (ServerSidebar {| serverId := "s-hub" |})
  = ([AtCurrentProfile (Fulfilled None); AtRedirect "/"],
     Ends (Completed (Redirected "/"))).
Proof. done. Qed.

(** A session that never answers: no call settles. *)
Example anyone_sessionHangs :
  await sessionHangs (reliable (sessionEnv alice))
    (ServerSidebar {| serverId := "s-hub" |})
  = ([], Hangs OnCurrentProfile).
Proof. done. Qed.

(** Where every promise settles the render is the one of [Worlds]. *)
Example alice_prompt :
  await prompt (reliable (sessionEnv alice)) (ServerSidebar {| serverId := "s-hub" |})
  = ([AtCurrentProfile (Fulfilled (Some alice));
      AtFindUnique (serverQuery "s-hub") (Fulfilled (Some hub))],
     Ends (Completed (Returned (sidebarView hub alice)))).
Proof. done. Qed.
