(* ===== verification/Imports.v ===== *)
(** * Imports: the names the module binds and the names a render refers to

    Lines 1-23 of [server-sidebar.tsx] bind twenty-two names; four more are
    declared below them and the last line exports the component.  The model
    refers to the same things through constructors: a call of [Effects.Call]
    is a call of an imported function, an icon of [Search.LucideIcon] an
    imported icon component, a node of [View.Element] an imported component
    (or the intrinsic [div]).  This file gives every such constructor the
    name the source uses for it, collects the names a render refers to (the
    icon tables built when the module is loaded, the calls made, the nodes of
    the returned tree and the icons of the search index), and compares them
    with the imports.

    The theorems: every name a render refers to is bound by an import, in
    every environment; and the imports no render ever refers to are exactly
    [channel] (from ["diagnostics_channel"]) and [ProgressBar].  Every
    occurrence of the identifier [channel] in the body is the parameter of a
    callback, which shadows the import. *)

From stdpp Require Import gmap.
From S2P Require Import Prelude Schema Fixtures Partition Search View Rendered.
From S2P Require Import Effects Sidebar.
Set Warnings "-rewrite-rw".

(** ** The import declarations *)

Inductive ImportKind := named | default.

Record Import := mkImport {
  import_name : string;
  import_kind : ImportKind;
  import_from : string;
}.

#[export] Instance ImportKind_eq_dec : EqDecision ImportKind.
Proof. solve_decision. Defined.

#[export] Instance Import_eq_dec : EqDecision Import.
Proof. solve_decision. Defined.

Definition imports : list Import := [
  mkImport "ScrollArea" named "@/components/ui/scroll-area";
  mkImport "currentProfile" named "@/lib/current-profile";
  mkImport "db" named "@/lib/db";
  mkImport "ChannelType" named "@prisma/client";
  mkImport "MemberRole" named "@prisma/client";
  mkImport "Hash" named "lucide-react";
  mkImport "Mic" named "lucide-react";
  mkImport "PenLine" named "lucide-react";
  mkImport "ShieldAlert" named "lucide-react";
  mkImport "ShieldCheck" named "lucide-react";
  mkImport "Video" named "lucide-react";
  mkImport "ListTodo" named "lucide-react";
  mkImport "redirect" named "next/navigation";
  mkImport "ServerHeader" default "./server-header";
  mkImport "ServerSearch" named "./server-search";
  mkImport "Separator" named "@/components/ui/separator";
  mkImport "ServerSection" named "./server-section";
  mkImport "channel" named "diagnostics_channel";
  mkImport "ServerChannel" named "./server-channel";
  mkImport "ServerMember" named "./server-member";
  mkImport "ProgressBar" default "../ui/progress-bar";
  mkImport "OverallProgress" named "../todo/overallProgress"
].

(** The names the module binds. *)
Definition bound : list string := import_name <$> imports.

(** ** The declarations and the export *)

(** The module declares four names after its imports: the props interface
    (line 25), the two icon tables (lines 29 and 37) and the component
    (line 45); its last line exports the component as the default export. *)
Inductive DeclarationKind := interface | const.

Record Declaration := mkDeclaration {
  declaration_name : string;
  declaration_kind : DeclarationKind;
}.

#[export] Instance DeclarationKind_eq_dec : EqDecision DeclarationKind.
Proof. solve_decision. Defined.

#[export] Instance Declaration_eq_dec : EqDecision Declaration.
Proof. solve_decision. Defined.

Definition declarations : list Declaration := [
  mkDeclaration "ServerSidebarProps" interface;
  mkDeclaration "iconMap" const;
  mkDeclaration "roleIconMap" const;
  mkDeclaration "ServerSidebar" const
].

Definition declared : list string := declaration_name <$> declarations.

(** [export default ServerSidebar;]: the exported binding and the local name
    it exports. *)
Definition exportDefault : string * string := ("default", "ServerSidebar").

(** The local names the body of the component refers to besides the
    imports: the two tables, in the entries of the search index. *)
Definition localNames : list string := ["iconMap"; "roleIconMap"].

(** ** The names the code refers to *)

(** The function a call invokes; the database is reached through [db]. *)
Definition callee (ev : Event) : string :=
  match ev with
  | EvCurrentProfile _ => "currentProfile"
  | EvFindUnique _ _ => "db"
  | EvRedirect _ => "redirect"
  end.

Definition iconName (i : LucideIcon) : string :=
  match i with
  | Hash => "Hash"
  | Mic => "Mic"
  | PenLine => "PenLine"
  | ShieldAlert => "ShieldAlert"
  | ShieldCheck => "ShieldCheck"
  | Video => "Video"
  | ListTodo => "ListTodo"
  end.

Definition iconNodeNames (n : IconNode) : list string :=
  if n is icon_element i _ then [iconName i] else [].

(** The component of an element; [div] is intrinsic, [false] and arrays are
    no elements. *)
Definition tagName (e : Element) : option string :=
  match e with
  | JsxFalse | JsxArray _ | Div _ _ => None
  | ScrollArea _ _ => Some "ScrollArea"
  | Separator _ => Some "Separator"
  | ServerHeader _ _ => Some "ServerHeader"
  | ServerSearch _ => Some "ServerSearch"
  | ServerSection _ => Some "ServerSection"
  | ServerChannel _ => Some "ServerChannel"
  | ServerMember _ => Some "ServerMember"
  | OverallProgress => Some "OverallProgress"
  end.

(** The names a node refers to: its component, and for the search box the
    icons of the entries of its index. *)
Definition nodeNames (e : Element) : list string :=
  option_list (tagName e) ++
  match e with
  | ServerSearch data =>
      g ← data; entry ← search_data g; iconNodeNames (entry_icon entry)
  | _ => []
  end.

(** The names the module refers to when it is loaded: the two icon tables are
    built from the enums and the icons. *)
Definition tableNames (enum : string) (table : gmap string IconNode) : list string :=
  enum :: (kv ← map_to_list table; iconNodeNames kv.2).

Definition moduleNames : list string :=
  tableNames "ChannelType" iconMap ++ tableNames "MemberRole" roleIconMap.

(** The names a render refers to. *)
Definition renderNames (env : Env) (props : ServerSidebarProps) : list string :=
  moduleNames ++
  (callee <$> trace env (ServerSidebar props)) ++
  match outcome env (ServerSidebar props) with
  | Returned view => n ← nodes view; nodeNames n
  | Redirected _ => []
  end.

(** Every name the model has a constructor for. *)
Definition vocabulary : list string :=
  ["ChannelType"; "MemberRole"; "currentProfile"; "db"; "redirect"] ++
  (iconName <$> [Hash; Mic; PenLine; ShieldAlert; ShieldCheck; Video; ListTodo]) ++
  ["ScrollArea"; "Separator"; "ServerHeader"; "ServerSearch"; "ServerSection";
   "ServerChannel"; "ServerMember"; "OverallProgress"].

(** The imports nothing refers to. *)
Definition unused : list string := ["channel"; "ProgressBar"].

(** ** Names are in the vocabulary *)

Lemma callee_vocabulary ev : callee ev ∈ vocabulary.
Proof. destruct ev; decide_it. Qed.

Lemma iconNodeNames_vocabulary n : iconNodeNames n ⊆ vocabulary.
Proof.
  destruct n as [[] ?| |]; intros x; rewrite /= ?list_elem_of_singleton;
    first [by intros []%elem_of_nil|intros ->; decide_it].
Qed.

Lemma nodeNames_vocabulary e : nodeNames e ⊆ vocabulary.
Proof.
  intros x [Htag|Hicon]%elem_of_app.
  - destruct e; simpl in Htag; try by apply elem_of_nil in Htag.
    all: apply list_elem_of_singleton in Htag as ->; decide_it.
  - destruct e; try by apply elem_of_nil in Hicon.
    apply list_elem_of_bind in Hicon as (g & Hicon & _).
    apply list_elem_of_bind in Hicon as (entry & Hicon & _).
    by eapply iconNodeNames_vocabulary.
Qed.

Lemma moduleNames_vocabulary : moduleNames ⊆ vocabulary.
Proof. apply (bool_decide_unpack _). by vm_compute. Qed.

Lemma renderNames_vocabulary env props : renderNames env props ⊆ vocabulary.
Proof.
  intros x [?|[Hcall|Hview]%elem_of_app]%elem_of_app.
  - by apply moduleNames_vocabulary.
  - apply list_elem_of_fmap in Hcall as (ev & -> & _). apply callee_vocabulary.
  - destruct (outcome _ _); [|by apply elem_of_nil in Hview].
    apply list_elem_of_bind in Hview as (n & Hview & _).
    by eapply nodeNames_vocabulary.
Qed.

(** Every name a render refers to is bound by an import: the calls it
    makes, the components and icons of the tree it returns and the names the
    icon tables are built from, in every environment and for every request. *)
Lemma renderNames_bound env props : renderNames env props ⊆ bound.
Proof.
  trans vocabulary; [apply renderNames_vocabulary|].
  apply (bool_decide_unpack _). by vm_compute.
Qed.

(** The module is well scoped: no name is bound twice, by an import or by a
    declaration; the component it exports is declared and is a value, not a
    type; and the tables the body refers to are declared before the
    component, so they are built when it is first called. *)
Lemma module_scoped :
  NoDup (bound ++ declared) ∧
  mkDeclaration exportDefault.2 const ∈ declarations ∧
  ∀ x, x ∈ localNames →
    ∃ i j, declarations !! i = Some (mkDeclaration x const) ∧
           declarations !! j = Some (mkDeclaration "ServerSidebar" const) ∧ i < j.
Proof.
  split_and!; [decide_it..|]. intros x Hx.
  repeat (apply elem_of_cons in Hx as [->|Hx]);
    [by exists 1, 3; split_and!; [..|lia]|by exists 2, 3; split_and!; [..|lia]|].
  by apply elem_of_nil in Hx.
Qed.

(** The unused names have no constructor in the model. *)
Lemma unused_vocabulary x : x ∈ unused → x ∉ vocabulary.
Proof.
  revert x. apply Forall_forall. decide_it.
Qed.

(** Every import but the two unused ones is referred to by a render of the
    fixtures: of the studio for its administrator, or without a session. *)
Lemma imports_seen :
  Forall (λ i, import_name i ∈ unused ∨
      import_name i ∈ renderNames (sessionEnv alice) {| serverId := "s-studio" |} ∨
      import_name i ∈ renderNames anonymousEnv {| serverId := "s-studio" |})
    imports.
Proof. apply (bool_decide_unpack _). by vm_compute. Qed.

(** C37: the imports that no render refers to, in any environment, are
    exactly [channel] and [ProgressBar]: lines 19 and 22 bind names the
    component never uses, and every other import is needed by some render. *)
Theorem unused_imports i :
  i ∈ imports →
  import_name i ∈ unused ↔ ∀ env props, import_name i ∉ renderNames env props.
Proof.
  intros Hi. split.
  - intros Hunused env props Hin%renderNames_vocabulary.
    by apply unused_vocabulary in Hunused.
  - intros Hnever. pose proof imports_seen as Hseen.
    rewrite ->Forall_forall in Hseen.
    destruct (Hseen i Hi) as [?|[Hin|Hin]]; [done|by apply Hnever in Hin..].
Qed.

Lemma unused_imports_witness :
  "channel" ∈ unused ↔
  ∀ env props, "channel" ∉ renderNames env props.
Proof.
  apply (unused_imports (mkImport "channel" named "diagnostics_channel")).
  decide_it.
Defined.
