(* ===== verification/Database.v ===== *)
(** * Database: what the component relies on of the data-access layer

    The component reads through an ORM client that is not part of [src/].
    [DataAccess] is what the component relies on, as an interface: a database
    answers [findUnique] with a server of the requested id whose rows satisfy
    the integrity of the schema, with the channels and members in the order
    the arguments ask for.  The theorems about the component that depend on
    the database ([Request]) are proved against this interface.

    Two implementations follow: [Documents], the database as the
    specification describes it (a server record with nested collections per
    identifier), with the writes the rest of the application makes; and
    [Store], the relational tables the ORM reads, which refines it. *)

From S2P Require Import Prelude Schema Effects.
Set Warnings "-rewrite-rw".

(** ** The interface *)

(** The order an [orderBy] asks for. *)
Definition sortBy {A} (R : relation A) (o : SortOrder) : relation A :=
  match o with
  | asc => R
  | desc => flip R
  end.

#[export] Instance sortBy_dec {A} (R : relation A) `{!RelDecision R} o :
  RelDecision (sortBy R o).
Proof. destruct o; [done|]. intros x y. rewrite /sortBy /flip. apply _. Defined.

#[export] Instance sortBy_trans {A} (R : relation A) `{!Transitive R} o :
  Transitive (sortBy R o).
Proof. destruct o; [done|]. by intros x y z ??; simpl in *; trans y. Qed.

#[export] Instance sortBy_total {A} (R : relation A) `{!Total R} o :
  Total (sortBy R o).
Proof. destruct o; [done|]. intros x y. destruct (total R x y); auto. Qed.

#[export] Instance sortBy_refl {A} (R : relation A) `{!Reflexive R} o :
  Reflexive (sortBy R o).
Proof. by destruct o. Qed.

Class DataAccess (DB : Type) := {
  findUnique : DB → ServerFindUniqueArgs → option Server;
  db_valid : DB → Prop;
  findUnique_id db args s :
    findUnique db args = Some s → server_id s = where_id args;
  findUnique_integrity db args s :
    db_valid db → findUnique db args = Some s → ServerIntegrity s;
  findUnique_channels_ordered db args s :
    findUnique db args = Some s →
    ordered_by (sortBy Z.le (include_channels_orderBy_createdAt args))
      channel_createdAt (server_channels s);
  findUnique_members_ordered db args s :
    findUnique db args = Some s →
    ordered_by (sortBy role_le (include_members_orderBy_role args))
      member_role (server_members s);
}.
