(* ===== verification/Documents.v ===== *)
(** * Documents: the database as a collection of servers

    The specification describes the data-access layer as returning "a server
    record with nested channel and member collections" for an identifier.
    [Documents] is the database seen that way: a collection of servers, each
    with its channels and members.  [docs_findUnique] reads one by its id and
    orders its rows as the arguments ask; it implements [DataAccess].

    The component never writes, but the rest of the application does, between
    the calls of a render and between renders.  [Write] lists the writes the
    data model allows (a server created or deleted; a channel created or
    deleted; a member added, removed or given another role) and [write]
    performs one, or refuses it when it would break a constraint of the
    schema.

    The theorems: every accepted write keeps the collection valid, so it is
    valid after every sequence of writes; a write to one server does not
    change what is read of another; and what is read of the written server
    is the write applied to what was read before. *)

From S2P Require Import Prelude Schema Fixtures Effects Database.
Set Warnings "-rewrite-rw".

(** ** The collection and the read *)

Definition Documents := list Server.

(** A server with its rows in the order a query asks for. *)
Definition sortedServer (s : Server) (args : ServerFindUniqueArgs) : Server :=
  {| server_id := server_id s;
     server_name := server_name s;
     server_channels :=
       merge_sort
         (by_key (sortBy Z.le (include_channels_orderBy_createdAt args))
            channel_createdAt)
         (server_channels s);
     server_members :=
       merge_sort
         (by_key (sortBy role_le (include_members_orderBy_role args)) member_role)
         (server_members s) |}.

(** The server stored under an id, and the read of the component: the
    server of the requested id with its rows in the requested order. *)
Definition docs_lookup (id : string) (docs : Documents) : option Server :=
  array_find (λ s, server_id s = id) docs.

Definition docs_findUnique (docs : Documents) (args : ServerFindUniqueArgs) :
    option Server :=
  s ← docs_lookup (where_id args) docs;
  Some (sortedServer s args).

(** The constraints of the schema: one server per id, and the integrity of
    the rows of each. *)
Record DocumentsValid (docs : Documents) : Prop := {
  docs_pk : NoDup (server_id <$> docs);
  docs_rows : Forall ServerIntegrity docs;
}.

(** ** Writes *)

(** A change of the rows of one server. *)
Inductive RowWrite :=
  | CreateChannel (c : Channel)
  | DeleteChannel (id : string)
  | AddMember (m : Member)
  | RemoveMember (id : string)
  | SetRole (id : string) (r : MemberRole).

Inductive Write :=
  | CreateServer (id name : string)
  | DeleteServer (id : string)
  | OnServer (id : string) (w : RowWrite).

(** The server a write is about. *)
Definition target (w : Write) : string :=
  match w with
  | CreateServer id _ | DeleteServer id | OnServer id _ => id
  end.

Definition withChannels (s : Server) (cs : list Channel) : Server :=
  {| server_id := server_id s; server_name := server_name s;
     server_channels := cs; server_members := server_members s |}.

Definition withMembers (s : Server) (ms : list Member) : Server :=
  {| server_id := server_id s; server_name := server_name s;
     server_channels := server_channels s; server_members := ms |}.

Definition withRole (r : MemberRole) (m : Member) : Member :=
  {| member_id := member_id m; member_role := r;
     member_profileId := member_profileId m;
     member_serverId := member_serverId m;
     member_profile := member_profile m |}.

(** What the schema asks of a new channel and of a new member: the row
    belongs to the server, its id is new, and a member comes with the profile
    its foreign key names, which is the profile the members with that
    profile id already carry. *)
Definition channelAllowed (c : Channel) (s : Server) : Prop :=
  channel_serverId c = server_id s ∧
  (channel_id c ∉ channel_id <$> server_channels s).

Definition memberAllowed (m : Member) (s : Server) : Prop :=
  member_serverId m = server_id s ∧
  (member_id m ∉ member_id <$> server_members s) ∧
  profile_id (member_profile m) = member_profileId m ∧
  Forall (λ m', member_profileId m' = member_profileId m →
                member_profile m' = member_profile m) (server_members s).

#[export] Instance channelAllowed_dec c s : Decision (channelAllowed c s).
Proof. rewrite /channelAllowed. apply _. Defined.

#[export] Instance memberAllowed_dec m s : Decision (memberAllowed m s).
Proof. rewrite /memberAllowed. apply _. Defined.

(** A write to the rows of a server; [None] when the schema refuses it.
    Deleting a row that is not there changes nothing. *)
Definition rowWrite (w : RowWrite) (s : Server) : option Server :=
  match w with
  | CreateChannel c =>
      guard (channelAllowed c s);;
      Some (withChannels s (server_channels s ++ [c]))
  | DeleteChannel id =>
      Some (withChannels s (filter (λ c, channel_id c ≠ id) (server_channels s)))
  | AddMember m =>
      guard (memberAllowed m s);;
      Some (withMembers s (server_members s ++ [m]))
  | RemoveMember id =>
      Some (withMembers s (filter (λ m, member_id m ≠ id) (server_members s)))
  | SetRole id r =>
      Some (withMembers s
        ((λ m, if decide (member_id m = id) then withRole r m else m)
           <$> server_members s))
  end.

(** The collection with the server of the id of [s'] replaced by [s']. *)
Definition replaceServer (s' : Server) (docs : Documents) : Documents :=
  (λ s, if decide (server_id s = server_id s') then s' else s) <$> docs.

(** A write to the collection; [None] when it is refused: a server is
    created under a new id and without rows, a row is written to a server
    that exists. *)
Definition write (w : Write) (docs : Documents) : option Documents :=
  match w with
  | CreateServer id name =>
      guard (id ∉ (server_id <$> docs));;
      Some (docs ++ [mkServer id name [] []])
  | DeleteServer id => Some (filter (λ s, server_id s ≠ id) docs)
  | OnServer id w =>
      s ← docs_lookup id docs;
      s' ← rowWrite w s;
      Some (replaceServer s' docs)
  end.

(** A write as the next reader finds it: a refused write leaves the
    collection as it was. *)
Definition commit (docs : Documents) (w : Write) : Documents :=
  default docs (write w docs).

(** What a write leaves under the id it is about, from what was there. *)
Definition written (w : Write) (before : option Server) : option Server :=
  match w with
  | CreateServer id name => Some (mkServer id name [] [])
  | DeleteServer _ => None
  | OnServer _ w => before ≫= rowWrite w
  end.

(** The collection after the first [t] writes of a list. *)
Definition history (docs : Documents) (ws : list Write) (t : nat) : Documents :=
  foldl commit docs (take t ws).

(** ** Fixtures *)

(** A collection with the hub and the studio of [Fixtures], and a day of
    writes: a channel is created in the hub, a second channel under the same
    id is refused, the studio is deleted, a channel for the deleted studio is
    refused, carol is promoted and bob leaves the hub. *)
Definition sampleDocs : Documents := [hub; studio].

Definition late : Channel := mkChannel "c-late" "late" TEXT 900 "s-hub".

Definition sampleWrites : list Write :=
  [OnServer "s-hub" (CreateChannel late);
   OnServer "s-hub" (CreateChannel (mkChannel "c-late" "again" AUDIO 901 "s-hub"));
   DeleteServer "s-studio";
   OnServer "s-studio" (CreateChannel (mkChannel "c-x" "x" TEXT 902 "s-studio"));
   OnServer "s-hub" (SetRole "m-3" MODERATOR);
   OnServer "s-hub" (RemoveMember "m-2")].

(** ** The read implements the interface *)

(** Sorting changes the order of the rows of a server and nothing else. *)
Lemma sortedServer_equiv s args : sortedServer s args ≡ s.
Proof. split_and!; [done..|apply merge_sort_Permutation|apply merge_sort_Permutation]. Qed.

Lemma sortedServer_channels s args :
  server_channels (sortedServer s args) ≡ₚ server_channels s.
Proof. apply merge_sort_Permutation. Qed.

Lemma sortedServer_members s args :
  server_members (sortedServer s args) ≡ₚ server_members s.
Proof. apply merge_sort_Permutation. Qed.

Section documents.
Context (docs : Documents).
Implicit Types (args : ServerFindUniqueArgs) (s : Server) (id : string).

Lemma docs_lookup_Some id s :
  docs_lookup id docs = Some s → s ∈ docs ∧ server_id s = id.
Proof. apply: array_find_elem_of. Qed.

Lemma docs_lookup_None id :
  docs_lookup id docs = None ↔ id ∉ server_id <$> docs.
Proof.
  rewrite /docs_lookup array_find_None Forall_forall list_elem_of_fmap. split.
  - intros Hno (s & -> & Hs). by apply (Hno s).
  - intros Hno s Hs <-. apply Hno. by exists s.
Qed.

Lemma docs_findUnique_Some args s' :
  docs_findUnique docs args = Some s' ↔
  ∃ s, docs_lookup (where_id args) docs = Some s ∧ s' = sortedServer s args.
Proof.
  rewrite /docs_findUnique bind_Some.
  split; intros (s & ? & ?); exists s; by simplify_eq.
Qed.

Lemma docs_findUnique_id args s :
  docs_findUnique docs args = Some s → server_id s = where_id args.
Proof.
  by intros (s0 & [_ ?]%docs_lookup_Some & ->)%docs_findUnique_Some.
Qed.

Lemma docs_findUnique_integrity args s :
  DocumentsValid docs → docs_findUnique docs args = Some s → ServerIntegrity s.
Proof.
  intros [_ Hrows] (s0 & [Hin _]%docs_lookup_Some & ->)%docs_findUnique_Some.
  rewrite sortedServer_equiv. rewrite ->Forall_forall in Hrows. by apply Hrows.
Qed.

Lemma docs_findUnique_channels_ordered args s :
  docs_findUnique docs args = Some s →
  ordered_by (sortBy Z.le (include_channels_orderBy_createdAt args))
    channel_createdAt (server_channels s).
Proof. intros (s0 & _ & ->)%docs_findUnique_Some. apply: merge_sort_ordered_by. Qed.

Lemma docs_findUnique_members_ordered args s :
  docs_findUnique docs args = Some s →
  ordered_by (sortBy role_le (include_members_orderBy_role args))
    member_role (server_members s).
Proof. intros (s0 & _ & ->)%docs_findUnique_Some. apply: merge_sort_ordered_by. Qed.

End documents.

#[export] Instance Documents_DataAccess : DataAccess Documents := {|
  findUnique := docs_findUnique;
  db_valid := DocumentsValid;
  findUnique_id := docs_findUnique_id;
  findUnique_integrity := docs_findUnique_integrity;
  findUnique_channels_ordered := docs_findUnique_channels_ordered;
  findUnique_members_ordered := docs_findUnique_members_ordered;
|}.

#[export] Instance DocumentsValid_dec docs : Decision (DocumentsValid docs).
Proof.
  refine (cast_if (decide (NoDup (server_id <$> docs) ∧ Forall ServerIntegrity docs)));
    [abstract (by destruct_and!; split)|abstract (intros []; naive_solver)].
Defined.

(** ** Writes keep the constraints *)

(** Rows taken away from a server leave its integrity. *)
Lemma integrity_sublist s cs ms :
  ServerIntegrity s →
  cs `sublist_of` server_channels s → ms `sublist_of` server_members s →
  ServerIntegrity (withMembers (withChannels s cs) ms).
Proof.
  intros [Hc Hm Hco Hmo Hj Hf] Hcs Hms. split; simpl.
  - eapply sublist_NoDup, fmap_sublist; done.
  - eapply sublist_NoDup, fmap_sublist; done.
  - by eapply Forall_sublist.
  - by eapply Forall_sublist.
  - by eapply Forall_sublist.
  - apply profiles_functional_intro=> m1 m2 Hm1 Hm2.
    apply (same_profile _ m1 m2 Hf); by eapply elem_of_sublist.
Qed.

Lemma createChannel_integrity c s :
  ServerIntegrity s → channelAllowed c s →
  ServerIntegrity (withChannels s (server_channels s ++ [c])).
Proof.
  intros [Hc Hm Hco Hmo Hj Hf] [Hown Hfresh]. split; simpl; [|done| |done..].
  - rewrite fmap_app. apply NoDup_app. split_and!; [done| |apply NoDup_singleton].
    by intros id ? ->%list_elem_of_singleton.
  - apply Forall_app. by repeat constructor.
Qed.

Lemma addMember_integrity m s :
  ServerIntegrity s → memberAllowed m s →
  ServerIntegrity (withMembers s (server_members s ++ [m])).
Proof.
  intros [Hc Hm Hco Hmo Hj Hf] (Hown & Hfresh & Hjoin & Hprofile).
  rewrite ->Forall_forall in Hprofile.
  split; simpl; [done| |done|..].
  - rewrite fmap_app. apply NoDup_app. split_and!; [done| |apply NoDup_singleton].
    by intros id ? ->%list_elem_of_singleton.
  - apply Forall_app. by repeat constructor.
  - apply Forall_app. by repeat constructor.
  - apply profiles_functional_intro=> m1 m2.
    rewrite !elem_of_app !list_elem_of_singleton.
    intros [Hm1| ->] [Hm2| ->] Heq; [by apply (same_profile _ m1 m2 Hf)| | |done].
    + by apply Hprofile.
    + symmetry. by apply Hprofile.
Qed.

Lemma setRole_integrity id r s :
  ServerIntegrity s →
  ServerIntegrity (withMembers s
    ((λ m, if decide (member_id m = id) then withRole r m else m)
       <$> server_members s)).
Proof.
  set (f := λ m, if decide (member_id m = id) then withRole r m else m).
  assert (∀ m, member_id (f m) = member_id m ∧
    member_profileId (f m) = member_profileId m ∧
    member_serverId (f m) = member_serverId m ∧
    member_profile (f m) = member_profile m) as Hf.
  { intros m. rewrite /f. by case_decide. }
  clearbody f. intros [Hc Hm Hco Hmo Hj Hfun]. split; simpl; [done| |done|..].
  - rewrite -list_fmap_compose (list_fmap_ext _ member_id (server_members s)) //.
    intros _ m _. apply Hf.
  - apply Forall_fmap. eapply Forall_impl; [exact Hmo|].
    intros m ?. simpl. by destruct (Hf m) as (_ & _ & -> & _).
  - apply Forall_fmap. eapply Forall_impl; [exact Hj|].
    intros m ?. simpl. by destruct (Hf m) as (_ & -> & _ & ->).
  - apply profiles_functional_intro=> m1 m2.
    intros (m1' & -> & ?)%list_elem_of_fmap (m2' & -> & ?)%list_elem_of_fmap.
    destruct (Hf m1') as (_ & -> & _ & ->), (Hf m2') as (_ & -> & _ & ->).
    by apply (same_profile _ m1' m2' Hfun).
Qed.

Lemma rowWrite_id w s s' : rowWrite w s = Some s' → server_id s' = server_id s.
Proof. destruct w; intros; by simplify_option_eq. Qed.

(** An accepted write to the rows of a server leaves its integrity. *)
Lemma rowWrite_integrity w s s' :
  ServerIntegrity s → rowWrite w s = Some s' → ServerIntegrity s'.
Proof.
  intros Hs Hw. destruct w; simplify_option_eq.
  - by apply createChannel_integrity.
  - by apply (integrity_sublist s _ (server_members s)); [|apply sublist_filter|].
  - by apply addMember_integrity.
  - by apply (integrity_sublist s (server_channels s)); [| |apply sublist_filter].
  - by apply setRole_integrity.
Qed.

Section write.
Context (docs : Documents).
Implicit Types (w : Write) (s : Server) (id : string).

Lemma replaceServer_ids s' : server_id <$> replaceServer s' docs = server_id <$> docs.
Proof.
  rewrite /replaceServer -list_fmap_compose. apply list_fmap_ext=> _ s _ /=.
  by case_decide.
Qed.

(** An accepted write leaves the constraints of the schema in place. *)
Lemma write_valid w docs' :
  DocumentsValid docs → write w docs = Some docs' → DocumentsValid docs'.
Proof.
  intros [Hpk Hrows] Hw. destruct w as [id name|id|id w]; simplify_option_eq.
  - split.
    + rewrite fmap_app. apply NoDup_app. split_and!; [done| |apply NoDup_singleton].
      by intros ?? ->%list_elem_of_singleton.
    + apply Forall_app. split; [done|]. by repeat constructor.
  - split.
    + eapply sublist_NoDup, fmap_sublist, sublist_filter. done.
    + eapply Forall_sublist, Hrows. apply sublist_filter.
  - rename select (docs_lookup _ _ = _) into Hs.
    apply docs_lookup_Some in Hs as [Hs _]. split.
    + by rewrite replaceServer_ids.
    + rewrite ->Forall_forall in Hrows. apply Forall_fmap, Forall_forall=> s0 ? /=.
      case_decide; eauto using rowWrite_integrity.
Qed.

(** What a write changes: under the id it is about it leaves what [written]
    says, under every other id what was there. *)
Lemma write_lookup w docs' id :
  write w docs = Some docs' →
  docs_lookup id docs' =
    if decide (id = target w) then written w (docs_lookup id docs)
    else docs_lookup id docs.
Proof.
  rewrite /docs_lookup. destruct w as [id' name|id'|id' w]; simpl.
  - intros (Hnew & _ & [= <-])%bind_Some. rewrite -docs_lookup_None in Hnew.
    rewrite array_find_app array_find_cons. case_decide as Hid; simpl in Hid.
    + subst id. by rewrite decide_True // -/(docs_lookup _ _) Hnew.
    + rewrite decide_False; [|by intros ->]. by destruct (array_find _ docs).
  - intros [= <-]. case_decide as Hid.
    + apply array_find_filter_None. intros s Hs Hne. congruence.
    + apply array_find_filter. intros s Hs ?. congruence.
  - intros (s & Hs & (s' & Hs' & [= <-])%bind_Some)%bind_Some.
    pose proof (rowWrite_id _ _ _ Hs') as Hid'.
    pose proof Hs as [_ Hid]%docs_lookup_Some.
    rewrite /replaceServer array_find_fmap_stable;
      [|intros s0; case_decide; [split; congruence|done]].
    case_decide as Hcase.
    + by rewrite Hcase -/(docs_lookup _ _) Hs /= Hs' decide_True.
    + destruct (array_find _ docs) as [s0|] eqn:Hfind; [|done].
      apply array_find_elem_of in Hfind as [_ <-]. simpl.
      rewrite decide_False //. congruence.
Qed.

Lemma commit_valid w : DocumentsValid docs → DocumentsValid (commit docs w).
Proof.
  intros Hv. rewrite /commit.
  destruct (write w docs) as [docs'|] eqn:Hw; [|done]. by eapply write_valid.
Qed.

End write.

Lemma commits_valid docs ws :
  DocumentsValid docs → DocumentsValid (foldl commit docs ws).
Proof.
  revert docs. induction ws as [|w ws IH]; intros docs Hv; [done|].
  by apply IH, commit_valid.
Qed.

(** The constraints of the schema hold of the database at every instant of
    every history: whatever writes the application attempts, in whatever
    order, each is refused or leaves every server with unique row ids, rows
    that belong to it and one profile per profile id, under an id of its
    own. *)
Lemma history_valid docs ws t :
  DocumentsValid docs → DocumentsValid (history docs ws t).
Proof. apply commits_valid. Qed.

(** What is read after an accepted write: of the server the write is about,
    what the write made of the server that was there (the new server,
    nothing after a deletion, the server with the row written), in the order
    the query asks for; of every other server, what was read before. *)
Lemma findUnique_after_write docs w docs' args :
  write w docs = Some docs' →
  docs_findUnique docs' args =
    if decide (where_id args = target w)
    then s ← written w (docs_lookup (where_id args) docs); Some (sortedServer s args)
    else docs_findUnique docs args.
Proof.
  intros Hw. rewrite /docs_findUnique (write_lookup _ _ _ _ Hw). by case_decide.
Qed.

(** ** Witnesses *)

Lemma sampleDocs_valid : DocumentsValid sampleDocs.
Proof. decide_it. Qed.

Example sampleWrites_valid : DocumentsValid (history sampleDocs sampleWrites 6).
Proof. apply history_valid, sampleDocs_valid. Qed.

(** The second channel under the id of the first is refused, and so is a
    channel for a server that is gone. *)
Example duplicate_channel_refused :
  write (OnServer "s-hub" (CreateChannel (mkChannel "c-late" "again" AUDIO 901 "s-hub")))
    (history sampleDocs sampleWrites 1) = None.
Proof. by vm_compute. Qed.

Example orphan_channel_refused :
  write (OnServer "s-studio" (CreateChannel (mkChannel "c-x" "x" TEXT 902 "s-studio")))
    (history sampleDocs sampleWrites 3) = None.
Proof. by vm_compute. Qed.

(** After the day the hub has the new channel, carol moderates and bob is
    gone; the studio is no more. *)
Example sampleWrites_hub :
  (λ s, (channel_id <$> server_channels s,
         (λ m, (member_id m, member_role m)) <$> server_members s))
    <$> docs_lookup "s-hub" (history sampleDocs sampleWrites 6)
  = Some (["c-general"; "c-random"; "c-lounge"; "c-late"],
          [("m-1", ADMIN); ("m-3", MODERATOR)]).
Proof. by vm_compute. Qed.

Example sampleWrites_studio :
  docs_lookup "s-studio" (history sampleDocs sampleWrites 6) = None.
Proof. by vm_compute. Qed.
