(* ===== verification/Store.v ===== *)
(** * Store: the relational tables behind the documents

    The ORM reads tables: servers, channels, members and profiles.  [Store]
    holds their rows and [store_findUnique] is the read with its nested
    includes: select the server by primary key, select and sort its channels,
    select its members, join each to its profile and sort them.

    [documents] is the collection of [Documents] a store holds: a server per
    server row, with the channel rows and the joined member rows that name
    it.  The read of the store is the read of these documents, and the
    constraints of the tables ([StoreValid]) give those of the collection;
    the laws of [DataAccess] follow for the store from those of the
    documents.

    [tables] is the way back: the rows a server is stored as.  The tables of
    a server that satisfies the constraints form a valid store that holds
    that one document, and reading the server back returns it with every
    channel, member and profile, in the order the query asks for. *)

From S2P Require Import Prelude Schema Fixtures Effects Database Documents.
Set Warnings "-rewrite-rw".

(** ** A relational store *)

Record ServerRow := mkServerRow {
  srow_id : string;
  srow_name : string;
}.

Record MemberRow := mkMemberRow {
  mrow_id : string;
  mrow_role : MemberRole;
  mrow_profileId : string;
  mrow_serverId : string;
}.

Record Store := mkStore {
  store_servers : list ServerRow;
  store_channels : list Channel;
  store_members : list MemberRow;
  store_profiles : list Profile;
}.

(** The constraints of the schema: primary keys, and the foreign key from a
    member to its profile. *)
Record StoreValid (db : Store) : Prop := {
  server_pk : NoDup (srow_id <$> store_servers db);
  channel_pk : NoDup (channel_id <$> store_channels db);
  member_pk : NoDup (mrow_id <$> store_members db);
  profile_pk : NoDup (profile_id <$> store_profiles db);
  member_profile_fk :
    Forall (λ r, mrow_profileId r ∈ profile_id <$> store_profiles db)
      (store_members db);
}.

(** A member row joined to its profile; a row whose profile is missing is not
    returned. *)
Definition joinProfile (db : Store) (r : MemberRow) : option Member :=
  p ← array_find (λ p, profile_id p = mrow_profileId r) (store_profiles db);
  Some {| member_id := mrow_id r;
          member_role := mrow_role r;
          member_profileId := mrow_profileId r;
          member_serverId := mrow_serverId r;
          member_profile := p |}.

Definition selectChannels (db : Store) (id : string) (o : SortOrder) : list Channel :=
  merge_sort (by_key (sortBy Z.le o) channel_createdAt)
    (filter (λ c, channel_serverId c = id) (store_channels db)).

Definition selectMembers (db : Store) (id : string) (o : SortOrder) : list Member :=
  merge_sort (by_key (sortBy role_le o) member_role)
    (omap (joinProfile db) (filter (λ r, mrow_serverId r = id) (store_members db))).

Definition store_findUnique (db : Store) (args : ServerFindUniqueArgs) :
    option Server :=
  row ← array_find (λ row, srow_id row = where_id args) (store_servers db);
  Some {| server_id := srow_id row;
          server_name := srow_name row;
          server_channels :=
            selectChannels db (srow_id row) (include_channels_orderBy_createdAt args);
          server_members :=
            selectMembers db (srow_id row) (include_members_orderBy_role args) |}.

(** ** Storing a server *)

(** The row of a member: the member without its joined profile. *)
Definition memberRow (m : Member) : MemberRow :=
  {| mrow_id := member_id m;
     mrow_role := member_role m;
     mrow_profileId := member_profileId m;
     mrow_serverId := member_serverId m |}.

(** The tables that hold one server: its row, its channels, a row per member
    and the profiles of its members, each once. *)
Definition tables (s : Server) : Store :=
  {| store_servers := [mkServerRow (server_id s) (server_name s)];
     store_channels := server_channels s;
     store_members := memberRow <$> server_members s;
     store_profiles := remove_dups (member_profile <$> server_members s) |}.

(** ** The documents of a store *)

(** The server a row stands for, with its rows in the order of the tables. *)
Definition document (db : Store) (row : ServerRow) : Server :=
  {| server_id := srow_id row;
     server_name := srow_name row;
     server_channels :=
       filter (λ c, channel_serverId c = srow_id row) (store_channels db);
     server_members :=
       omap (joinProfile db)
         (filter (λ r, mrow_serverId r = srow_id row) (store_members db)) |}.

Definition documents (db : Store) : Documents := document db <$> store_servers db.

(** A store with the servers of [Fixtures], rows in no particular order. *)
Definition sampleStore : Store :=
  {| store_servers :=
       [mkServerRow "s-studio" "Studio"; mkServerRow "s-hub" "Hub";
        mkServerRow "s-solo" "Solo"];
     store_channels :=
       [sprint; lounge; board; general; radio; news; random; backlog; standup];
     store_members :=
       [mkMemberRow "m-13" GUEST "p-carol" "s-studio";
        mkMemberRow "m-12" GUEST "p-bob" "s-studio";
        mkMemberRow "m-3" GUEST "p-carol" "s-hub";
        mkMemberRow "m-11" MODERATOR "p-bob" "s-studio";
        mkMemberRow "m-1" ADMIN "p-alice" "s-hub";
        mkMemberRow "m-20" ADMIN "p-alice" "s-solo";
        mkMemberRow "m-2" MODERATOR "p-bob" "s-hub";
        mkMemberRow "m-10" ADMIN "p-alice" "s-studio"];
     store_profiles := [dave; carol; alice; bob] |}.

(** ** The store implements the interface *)

Section store.
Context (db : Store).
Implicit Types (args : ServerFindUniqueArgs) (s : Server) (r : MemberRow).

Lemma joinProfile_Some r m :
  joinProfile db r = Some m →
  member_id m = mrow_id r ∧ member_role m = mrow_role r ∧
  member_profileId m = mrow_profileId r ∧ member_serverId m = mrow_serverId r ∧
  profile_id (member_profile m) = mrow_profileId r.
Proof.
  rewrite /joinProfile bind_Some.
  by intros (p & [_ ?]%array_find_elem_of & [= <-]).
Qed.

(** The profile of a joined member is the one the lookup by its profile id
    finds. *)
Lemma joinProfile_profile r m id :
  joinProfile db r = Some m → member_profileId m = id →
  array_find (λ p, profile_id p = id) (store_profiles db)
    = Some (member_profile m).
Proof. rewrite /joinProfile bind_Some. by intros (p & ? & [= <-]) <-. Qed.

Lemma joinProfile_is_Some r :
  mrow_profileId r ∈ profile_id <$> store_profiles db → is_Some (joinProfile db r).
Proof.
  intros (p & Hid & Hp)%list_elem_of_fmap. rewrite /joinProfile.
  destruct (array_find_is_Some (λ p, profile_id p = mrow_profileId r)
    (store_profiles db)) as [_ [p' ->]]; [|done].
  apply Exists_exists. by exists p.
Qed.

Lemma joined_ids_sublist (rows : list MemberRow) :
  member_id <$> omap (joinProfile db) rows `sublist_of` mrow_id <$> rows.
Proof.
  induction rows as [|r rows IH]; [done|]. rewrite omap_cons fmap_cons.
  destruct (joinProfile db r) as [m|] eqn:Hm; [|by apply sublist_cons].
  apply joinProfile_Some in Hm as (<- & _). by apply sublist_skip.
Qed.

Lemma joined_Forall (P : Member → Prop) (Q : MemberRow → Prop) rows :
  (∀ r m, joinProfile db r = Some m → Q r → P m) →
  Forall Q rows → Forall P (omap (joinProfile db) rows).
Proof.
  intros HPQ Hrows. induction Hrows as [|r rows Hr Hrows IH]; [done|].
  rewrite omap_cons.
  destruct (joinProfile db r) as [m|] eqn:Hm; [|done].
  constructor; [by eapply HPQ|done].
Qed.

(** With the foreign key in place the join loses no member. *)
Lemma joined_length rows :
  Forall (λ r, mrow_profileId r ∈ profile_id <$> store_profiles db) rows →
  length (omap (joinProfile db) rows) = length rows.
Proof.
  intros Hrows. induction Hrows as [|r rows Hr Hrows IH]; [done|].
  apply joinProfile_is_Some in Hr as [m Hm]. by rewrite omap_cons Hm /= IH.
Qed.

(** The read of the store is the read of its documents. *)
Lemma store_findUnique_documents args :
  store_findUnique db args = docs_findUnique (documents db) args.
Proof.
  rewrite /store_findUnique /docs_findUnique /docs_lookup /documents.
  rewrite array_find_fmap. by destruct (array_find _ _).
Qed.

(** The document of a row satisfies the integrity of the schema when the
    tables satisfy their constraints. *)
Lemma document_integrity row : StoreValid db → ServerIntegrity (document db row).
Proof.
  intros Hv. split; simpl.
  - eapply sublist_NoDup; [apply (channel_pk _ Hv)|].
    apply fmap_sublist, sublist_filter.
  - eapply sublist_NoDup, joined_ids_sublist.
    eapply sublist_NoDup; [apply (member_pk _ Hv)|].
    apply fmap_sublist, sublist_filter.
  - apply Forall_forall=> c. by intros [? _]%list_elem_of_filter.
  - apply (joined_Forall _ (λ r, mrow_serverId r = srow_id row)).
    + by intros r m (_ & _ & _ & -> & _)%joinProfile_Some.
    + apply Forall_forall=> r. by intros [? _]%list_elem_of_filter.
  - apply (joined_Forall _ (λ _, True)); [|by apply Forall_true].
    by intros r m (_ & _ & -> & _ & ->)%joinProfile_Some.
  - apply profiles_functional_intro=> m1 m2.
    intros (r1 & _ & Hr1)%list_elem_of_omap (r2 & _ & Hr2)%list_elem_of_omap Heq.
    pose proof (joinProfile_profile _ _ _ Hr1 Heq).
    pose proof (joinProfile_profile _ _ _ Hr2 eq_refl). congruence.
Qed.

Lemma documents_ids : server_id <$> documents db = srow_id <$> store_servers db.
Proof. by rewrite /documents -list_fmap_compose. Qed.

Lemma documents_valid : StoreValid db → DocumentsValid (documents db).
Proof.
  intros Hv. split.
  - rewrite documents_ids. apply (server_pk _ Hv).
  - apply Forall_fmap, Forall_forall=> row _. by apply document_integrity.
Qed.

(** The laws of the interface, from those of the documents. *)
Lemma store_findUnique_id args s :
  store_findUnique db args = Some s → server_id s = where_id args.
Proof. rewrite store_findUnique_documents. apply docs_findUnique_id. Qed.

Lemma store_findUnique_integrity args s :
  StoreValid db → store_findUnique db args = Some s → ServerIntegrity s.
Proof.
  rewrite store_findUnique_documents=> /documents_valid.
  apply docs_findUnique_integrity.
Qed.

Lemma store_findUnique_channels_ordered args s :
  store_findUnique db args = Some s →
  ordered_by (sortBy Z.le (include_channels_orderBy_createdAt args))
    channel_createdAt (server_channels s).
Proof.
  rewrite store_findUnique_documents. apply docs_findUnique_channels_ordered.
Qed.

Lemma store_findUnique_members_ordered args s :
  store_findUnique db args = Some s →
  ordered_by (sortBy role_le (include_members_orderBy_role args))
    member_role (server_members s).
Proof.
  rewrite store_findUnique_documents. apply docs_findUnique_members_ordered.
Qed.

(** A server is found exactly when a row has the requested id. *)
Lemma store_findUnique_is_Some args :
  is_Some (store_findUnique db args) ↔ where_id args ∈ srow_id <$> store_servers db.
Proof.
  rewrite store_findUnique_documents /docs_findUnique -documents_ids.
  destruct (docs_lookup _ _) as [s|] eqn:Hs; simpl.
  - split; [intros _|by eexists].
    apply docs_lookup_Some in Hs as [? <-]. by apply list_elem_of_fmap_2.
  - apply docs_lookup_None in Hs. split; [by intros []|done].
Qed.

(** Nothing of the server is lost: its channels are the stored channels that
    belong to it, and with the foreign key in place it has a member per stored
    member row. *)
Lemma store_findUnique_complete args s :
  StoreValid db → store_findUnique db args = Some s →
  server_channels s ≡ₚ
    filter (λ c, channel_serverId c = where_id args) (store_channels db) ∧
  length (server_members s) =
    length (filter (λ r, mrow_serverId r = where_id args) (store_members db)).
Proof.
  intros Hv Hs. pose proof (store_findUnique_id _ _ Hs) as Hid.
  rewrite ->store_findUnique_documents in Hs.
  apply docs_findUnique_Some in Hs as (s0 & [Hin _]%docs_lookup_Some & ->).
  apply list_elem_of_fmap in Hin as (row & -> & _). simpl in Hid.
  rewrite sortedServer_channels sortedServer_members /= Hid. split; [done|].
  rewrite joined_length //.
  eapply Forall_sublist; [|apply (member_profile_fk _ Hv)].
  apply sublist_filter.
Qed.

End store.

#[export] Instance Store_DataAccess : DataAccess Store := {|
  findUnique := store_findUnique;
  db_valid := StoreValid;
  findUnique_id := store_findUnique_id;
  findUnique_integrity := store_findUnique_integrity;
  findUnique_channels_ordered := store_findUnique_channels_ordered;
  findUnique_members_ordered := store_findUnique_members_ordered;
|}.

Lemma sampleStore_valid : StoreValid sampleStore.
Proof. split; decide_it. Qed.

(** The relational store refines the documents.  The documents of a store
    whose tables satisfy the constraints of the schema are a valid
    collection, and every read of the store, with its selections, its join
    and its two sorts, is the read of that collection. *)
Lemma store_refines_documents (db : Store) :
  db_valid db →
  db_valid (documents db) ∧
  ∀ args, findUnique db args = findUnique (documents db) args.
Proof.
  intros Hv. split; [by apply documents_valid|]. apply store_findUnique_documents.
Qed.

(** The documents of the sample store are the servers of [Fixtures], with
    their rows in the order of the tables. *)
Example sampleStore_documents :
  (λ s, (server_id s, channel_id <$> server_channels s, member_id <$> server_members s))
    <$> documents sampleStore
  = [("s-studio", ["c-sprint"; "c-board"; "c-radio"; "c-news"; "c-backlog"; "c-standup"],
      ["m-13"; "m-12"; "m-11"; "m-10"]);
     ("s-hub", ["c-lounge"; "c-general"; "c-random"], ["m-3"; "m-1"; "m-2"]);
     ("s-solo", [], ["m-20"])].
Proof. by vm_compute. Qed.

(** ** Stored and read back *)

Section tables.
Context (s : Server) (Hs : ServerIntegrity s).
Implicit Types (m : Member) (args : ServerFindUniqueArgs).

Lemma tables_joinProfile m :
  m ∈ server_members s → joinProfile (tables s) (memberRow m) = Some m.
Proof.
  intros Hm. rewrite /joinProfile /=.
  destruct (array_find _ _) as [p|] eqn:Hp; simpl.
  - apply array_find_elem_of in Hp as [Hin Hid].
    apply elem_of_remove_dups, list_elem_of_fmap in Hin as (m' & -> & Hm').
    pose proof (members_joined _ Hs) as Hj. rewrite ->Forall_forall in Hj.
    rewrite (Hj m' Hm') in Hid.
    rewrite (same_profile _ m' m (profiles_functional _ Hs)) //. by destruct m.
  - apply array_find_None in Hp. rewrite ->Forall_forall in Hp.
    destruct (Hp (member_profile m)).
    + by apply elem_of_remove_dups, list_elem_of_fmap_2.
    + pose proof (members_joined _ Hs) as Hj. rewrite ->Forall_forall in Hj.
      by apply Hj.
Qed.

(** The tables of a server hold that one document. *)
Lemma documents_tables : documents (tables s) = [s].
Proof.
  rewrite /documents /document /=.
  rewrite (filter_all _ (server_channels s)); [|apply (channels_owned _ Hs)].
  rewrite filter_all; [|apply Forall_fmap, (members_owned _ Hs)].
  rewrite (omap_fmap_Some_on _ _ id) ?list_fmap_id; [by destruct s|].
  apply Forall_forall=> m. apply tables_joinProfile.
Qed.

(** Reading a stored server back gives the server, with its rows in the order
    asked for. *)
Lemma tables_findUnique args :
  where_id args = server_id s →
  store_findUnique (tables s) args = Some (sortedServer s args).
Proof.
  intros Hid. rewrite store_findUnique_documents documents_tables.
  by rewrite /docs_findUnique /docs_lookup array_find_cons decide_True.
Qed.

Lemma tables_valid : StoreValid (tables s).
Proof.
  pose proof (members_joined _ Hs) as Hj. rewrite ->Forall_forall in Hj.
  split; simpl.
  - apply NoDup_singleton.
  - apply (channel_ids_unique _ Hs).
  - rewrite -list_fmap_compose. apply (member_ids_unique _ Hs).
  - apply NoDup_fmap_2_strong; [|apply NoDup_remove_dups].
    intros p1 p2 (m1 & -> & Hm1)%elem_of_remove_dups%list_elem_of_fmap
      (m2 & -> & Hm2)%elem_of_remove_dups%list_elem_of_fmap Hid.
    apply (same_profile _ m1 m2 (profiles_functional _ Hs)); [done..|].
    by rewrite -(Hj m1) // -(Hj m2).
  - apply Forall_fmap, Forall_forall=> m Hm /=.
    rewrite -(Hj m Hm). apply list_elem_of_fmap_2, elem_of_remove_dups.
    by apply list_elem_of_fmap_2.
Qed.

End tables.
