(* ===== verification/Request.v ===== *)
(** * Request: the component against a database

    A request runs [ServerSidebar] in the environment made of the session's
    viewer and a database that implements [DataAccess].  The theorems of this
    file are the ones that need what the database promises: the view is that
    of the requested server, the rows of every section are in creation order,
    the role the view uses is the most privileged of the viewer's
    memberships, and the React keys are distinct.  They hold for every
    implementation of the interface; [sampleStore] instantiates them on the
    relational store of [Store], and [request_stored_server] closes the
    loop: a server written to the tables and requested is shown as it is.
    The two implementations of the interface, the tables and the documents
    they hold, answer every program the same way ([run_store_documents]).

    [requestTimeline] is the request while the session and the database
    change and the database may be unreachable; a view returned then is the
    view of the request against the database of the instant of the read, so
    the theorems above apply to it. *)

From S2P Require Import Prelude Schema Fixtures Partition Search.
From S2P Require Import View Rendered Model.
From S2P Require Import Effects Worlds Sidebar Database Documents Store.
Set Warnings "-rewrite-rw".

(** The environment of a request: the session's viewer and a database. *)
Definition requestEnv `{DataAccess DB} (viewer : option Profile) (db : DB) : Env :=
  {| env_currentProfile := viewer; env_findUnique := findUnique db |}.

(** The timeline of a request: at every instant the session's viewer and the
    database, when it can be reached. *)
Definition requestTimeline `{DataAccess DB} (viewers : nat → option Profile)
    (dbs : nat → option DB) : Timeline :=
  λ t, {| world_currentProfile := Fulfilled (viewers t);
          world_findUnique := λ args,
            match dbs t with
            | Some db => Fulfilled (findUnique db args)
            | None => Rejected "database unreachable"
            end |}.

(** A session that ends after the lookup, and a database that can be reached
    at the instant of the read only. *)
Definition sampleViewers : nat → option Profile :=
  λ t, if t is 0 then Some bob else None.

Definition sampleDbs : nat → option Store :=
  λ t, if t is 1 then Some sampleStore else None.

(** The request of the witnesses: bob asks for the studio. *)
Definition sampleProps : ServerSidebarProps := {| serverId := "s-studio" |}.

(** The server the store returns for it. *)
Definition sampleServer : Server :=
  default studio (store_findUnique sampleStore (serverQuery "s-studio")).

(** What a request shows: the labels of the section headers, the keys of the
    channel rows, the keys of the member rows and the number of progress
    widgets of the view, or nothing after a redirect. *)
Definition shown (viewer : option Profile) (db : Store) (id : string) :
    option (list string * list string * list string * nat) :=
  match outcome (requestEnv viewer db) (ServerSidebar {| serverId := id |}) with
  | Returned view =>
      Some (section_label <$> renderedSections view,
            chan_key <$> renderedChannels view,
            memb_key <$> renderedMembers view,
            renderedProgress view)
  | Redirected _ => None
  end.

Section request.
Context `{DataAccess DB} (db : DB) (viewer : option Profile).
Context (props : ServerSidebarProps).
Implicit Types (view : Element) (server : Server) (profile : Profile).

(** A render that returns a view had a viewer and found the server. *)
Lemma request_Returned view :
  outcome (requestEnv viewer db) (ServerSidebar props) = Returned view →
  ∃ server profile,
    viewer = Some profile ∧
    findUnique db (serverQuery (serverId props)) = Some server ∧
    view = sidebarView server profile.
Proof.
  rewrite /outcome /ServerSidebar. run_simpl.
  destruct viewer as [profile|]; [|done]. rewrite /=. run_simpl.
  destruct (findUnique db _) as [server|] eqn:Hs; [|done].
  intros [= <-]. by exists server, profile.
Qed.

(** C26: the view a request returns is the view of the server whose id was
    requested, for the viewer of the session. *)
Theorem request_shows_requested_server view :
  outcome (requestEnv viewer db) (ServerSidebar props) = Returned view →
  ∃ server profile,
    viewer = Some profile ∧ server_id server = serverId props ∧
    view = sidebarView server profile.
Proof.
  intros (server & profile & ? & ?%findUnique_id & ?)%request_Returned.
  by exists server, profile.
Qed.

(** C28: in the view a request returns, the channel rows of every type are in
    ascending creation time: the query asks for that order and the grouping
    keeps it. *)
Theorem request_rows_by_creation view t :
  outcome (requestEnv viewer db) (ServerSidebar props) = Returned view →
  ordered_by Z.le (channel_createdAt ∘ chan_channel)
    (filter (λ row, channel_type (chan_channel row) = t) (renderedChannels view)).
Proof.
  intros (server & profile & _ & Hs & ->)%request_Returned.
  apply findUnique_channels_ordered in Hs.
  apply (ordered_by_sublist _ _ _ _ (channelsOfType_sublist server t)) in Hs.
  rewrite rows_of_type.
  by apply (StronglySorted_fmap _ (by_key Z.le channel_createdAt)).
Qed.

(** C27: when the viewer has several memberships in the requested server, the
    role the view is rendered with is the most privileged of them (the role
    of one of them, below the role of each), because the query orders the
    members by role and the view takes the first. *)
Theorem request_role_most_privileged server profile m :
  resolveIn (requestEnv viewer db) props = Ready server profile →
  m ∈ memberships profile server →
  ∃ r, role server profile = Some r ∧
       r ∈ member_role <$> memberships profile server ∧
       role_le r (member_role m).
Proof.
  intros Hready Hm.
  pose proof (resolveIn_cases (requestEnv viewer db) props) as Hcases.
  rewrite Hready in Hcases. destruct Hcases as [_ Hs].
  apply findUnique_members_ordered in Hs.
  destruct (role server profile) as [r|] eqn:Hr.
  - exists r. split; [done|]. split; [|by eapply role_le_membership].
    apply role_Some_inv in Hr as (m' & ? & <-). by apply list_elem_of_fmap_2.
  - apply role_None in Hr. rewrite Hr in Hm. by apply elem_of_nil in Hm.
Qed.

(** C29: in the view a request on a valid database returns, the keys of the
    channel rows are distinct and so are the keys of the member rows. *)
Theorem request_keys_unique view :
  db_valid db →
  outcome (requestEnv viewer db) (ServerSidebar props) = Returned view →
  NoDup (chan_key <$> renderedChannels view) ∧
  NoDup (memb_key <$> renderedMembers view).
Proof.
  intros Hv (server & profile & _ & Hs & ->)%request_Returned.
  destruct (findUnique_integrity _ _ _ Hv Hs). split.
  - by apply rendered_channel_keys_unique.
  - by apply rendered_member_keys_unique.
Qed.

End request.

(** C30: a server that is stored and then requested is shown as it is: the
    request on the tables that hold the server returns the view of a server
    with the id and the name of the stored one; the view has a row for every
    channel that was stored and for no other, and a row for every stored
    member but the viewer, each member with the profile it was stored with;
    and it has the blocks of the server itself, in the same order and with
    the same number of rows, whatever the order of the rows when it was
    stored. *)
Theorem request_stored_server (s : Server) (profile : Profile) :
  ServerIntegrity s →
  ∃ server,
    outcome (requestEnv (Some profile) (tables s))
      (ServerSidebar {| serverId := server_id s |})
      = Returned (sidebarView server profile) ∧
    server_id server = server_id s ∧ server_name server = server_name s ∧
    chan_channel <$> renderedChannels (sidebarView server profile)
      ≡ₚ server_channels s ∧
    memb_member <$> renderedMembers (sidebarView server profile)
      ≡ₚ members s profile ∧
    outline (abstract (sidebarView server profile))
      = outline (abstract (sidebarView s profile)).
Proof.
  intros Hs. exists (sortedServer s (serverQuery (server_id s))).
  pose proof (sortedServer_equiv s (serverQuery (server_id s))) as Heq.
  split_and!; [|done..| | |by apply outline_equiv].
  - rewrite /outcome /ServerSidebar. run_simpl.
    by rewrite /= (tables_findUnique s Hs).
  - by rewrite renderedChannels_channels channels_partition Heq.
  - rewrite renderedMembers_members. by apply members_equiv.
Qed.

(** No program can tell the tables from the documents they hold: the two
    environments answer every call the same way. *)
Lemma run_store_documents {A} (db : Store) viewer (m : Prog A) :
  run (requestEnv viewer db) m = run (requestEnv viewer (documents db)) m.
Proof.
  induction m as [a|X c k IH]; [done|].
  destruct c as [|args|url]; rewrite /= ?store_findUnique_documents ?IH //.
Qed.

(** ** A request while the database changes *)

Section request_timeline.
Context `{DataAccess DB} (viewers : nat → option Profile) (dbs : nat → option DB).
Context (t : nat) (props : ServerSidebarProps).

(** C31: a view returned while the session and the database change is the
    view of a request in one environment: the viewer of the instant the
    render started at and the database of the next instant, which was
    reachable.  What is proved of requests against a database holds of it,
    and the database needs to satisfy its constraints at that instant only. *)
Theorem request_on_timeline view :
  (attemptFrom (requestTimeline viewers dbs) t (ServerSidebar props)).2
    = Completed (Returned view) →
  ∃ db, dbs (S t) = Some db ∧
    outcome (requestEnv (viewers t) db) (ServerSidebar props) = Returned view.
Proof.
  rewrite /outcome /ServerSidebar /=.
  destruct (viewers t) as [profile|]; [|done]. simpl.
  destruct (dbs (S t)) as [db|]; [|done]. intros Hview. exists db.
  split; [done|]. revert Hview.
  destruct (findUnique db _) as [server|]; [by intros [= <-]|done].
Qed.

End request_timeline.

(** ** Witnesses *)

Lemma sample_outcome :
  outcome (requestEnv (Some bob) sampleStore) (ServerSidebar sampleProps) =
  Returned (sidebarView sampleServer bob).
Proof. by vm_compute. Qed.

Lemma sample_ready :
  resolveIn (requestEnv (Some bob) sampleStore) sampleProps =
  Ready sampleServer bob.
Proof. by vm_compute. Qed.

Lemma request_shows_requested_server_witness :
  outcome (requestEnv (Some bob) sampleStore) (ServerSidebar sampleProps) =
    Returned (sidebarView sampleServer bob) ∧
  ∃ server profile,
    Some bob = Some profile ∧ server_id server = serverId sampleProps ∧
    sidebarView sampleServer bob = sidebarView server profile.
Proof.
  split; [exact sample_outcome|].
  exact (request_shows_requested_server sampleStore (Some bob) sampleProps _
    sample_outcome).
Defined.

Lemma request_rows_by_creation_witness :
  outcome (requestEnv (Some bob) sampleStore) (ServerSidebar sampleProps) =
    Returned (sidebarView sampleServer bob) ∧
  ordered_by Z.le (channel_createdAt ∘ chan_channel)
    (filter (λ row, channel_type (chan_channel row) = TODO)
      (renderedChannels (sidebarView sampleServer bob))).
Proof.
  split; [exact sample_outcome|].
  exact (request_rows_by_creation sampleStore (Some bob) sampleProps _ TODO
    sample_outcome).
Defined.

Lemma request_role_most_privileged_witness :
  resolveIn (requestEnv (Some bob) sampleStore) sampleProps =
    Ready sampleServer bob ∧
  studio_bob_guest ∈ memberships bob sampleServer ∧
  ∃ r, role sampleServer bob = Some r ∧
       r ∈ member_role <$> memberships bob sampleServer ∧
       role_le r (member_role studio_bob_guest).
Proof.
  assert (studio_bob_guest ∈ memberships bob sampleServer) as Hin by decide_it.
  split; [exact sample_ready|]. split; [exact Hin|].
  exact (request_role_most_privileged sampleStore (Some bob) sampleProps
    sampleServer bob studio_bob_guest sample_ready Hin).
Defined.

Lemma request_keys_unique_witness :
  db_valid sampleStore ∧
  outcome (requestEnv (Some bob) sampleStore) (ServerSidebar sampleProps) =
    Returned (sidebarView sampleServer bob) ∧
  NoDup (chan_key <$> renderedChannels (sidebarView sampleServer bob)) ∧
  NoDup (memb_key <$> renderedMembers (sidebarView sampleServer bob)).
Proof.
  split; [exact sampleStore_valid|]. split; [exact sample_outcome|].
  exact (request_keys_unique sampleStore (Some bob) sampleProps _
    sampleStore_valid sample_outcome).
Defined.

Lemma request_stored_server_witness :
  ServerIntegrity studioShuffled ∧
  ∃ server,
    outcome (requestEnv (Some carol) (tables studioShuffled))
      (ServerSidebar {| serverId := server_id studioShuffled |})
      = Returned (sidebarView server carol) ∧
    server_id server = server_id studioShuffled ∧
    server_name server = server_name studioShuffled ∧
    chan_channel <$> renderedChannels (sidebarView server carol)
      ≡ₚ server_channels studioShuffled ∧
    memb_member <$> renderedMembers (sidebarView server carol)
      ≡ₚ members studioShuffled carol ∧
    outline (abstract (sidebarView server carol))
      = outline (abstract (sidebarView studioShuffled carol)).
Proof.
  assert (ServerIntegrity studioShuffled) as Hs by decide_it.
  split; [exact Hs|]. exact (request_stored_server studioShuffled carol Hs).
Defined.

Lemma request_on_timeline_witness :
  ∃ db, sampleDbs 1 = Some db ∧
    outcome (requestEnv (sampleViewers 0) db) (ServerSidebar sampleProps)
      = Returned (sidebarView sampleServer bob).
Proof.
  apply (request_on_timeline sampleViewers sampleDbs 0 sampleProps).
  by vm_compute.
Defined.

(** A database that cannot be reached when it is read fails the request. *)
Example request_unreachable :
  (attemptFrom (requestTimeline sampleViewers (λ _, @None Store)) 0
     (ServerSidebar sampleProps)).2
  = Failed "database unreachable".
Proof. done. Qed.

(** ** The scenarios of the specification, evaluated *)

(** Channels TEXT, TEXT, AUDIO: one text section with two rows, one voice
    section with one row, no video, slate or todo section. *)
Example request_hub_outsider :
  shown (Some dave) sampleStore "s-hub" =
  Some (["Text Channels"; "Voice Channels"; "Members"],
        ["c-general"; "c-random"; "c-lounge"],
        ["m-1"; "m-2"; "m-3"], 0).
Proof. by vm_compute. Qed.

(** The viewer is the only member: no member section. *)
Example request_solo_alice :
  shown (Some alice) sampleStore "s-solo" = Some ([], [], [], 0).
Proof. by vm_compute. Qed.

(** A moderator with a second, guest membership sees the progress widget and
    none of the two memberships; the sections come in the fixed order although
    the store holds the channels in another. *)
Example request_studio_bob :
  shown (Some bob) sampleStore "s-studio" =
  Some (["Text Channels"; "Voice Channels"; "Video Channels";
         "Visualisation Channels"; "Todo Channels"; "Members"],
        ["c-news"; "c-radio"; "c-standup"; "c-board"; "c-backlog"; "c-sprint"],
        ["m-10"; "m-13"], 1).
Proof. by vm_compute. Qed.

(** A guest sees the todo section without the progress widget. *)
Example request_studio_carol :
  shown (Some carol) sampleStore "s-studio" =
  Some (["Text Channels"; "Voice Channels"; "Video Channels";
         "Visualisation Channels"; "Todo Channels"; "Members"],
        ["c-news"; "c-radio"; "c-standup"; "c-board"; "c-backlog"; "c-sprint"],
        ["m-10"; "m-11"; "m-12"], 0).
Proof. by vm_compute. Qed.

(** No viewer, or no such server: a redirect and nothing shown. *)
Example request_anonymous : shown None sampleStore "s-hub" = None.
Proof. by vm_compute. Qed.

Example request_unknown_server : shown (Some alice) sampleStore "s-none" = None.
Proof. by vm_compute. Qed.
