(* ===== verification/Writes.v ===== *)
(** * Writes: the component while the application writes

    The component only reads, but its reads see what the rest of the
    application wrote.  This file puts the component in front of the
    documents of [Documents] and lets the writes happen: before a render,
    and between the two calls of one.

    The theorems: a render of one server does not depend on writes to
    another; the render after a write shows the server as written (the view
    of the new rows, a redirect after a deletion); and every view returned
    among the writes of a history that starts from a valid database has
    distinct keys, whatever was written and whenever. *)

From S2P Require Import Prelude Schema Fixtures Partition Search.
From S2P Require Import View Rendered.
From S2P Require Import Effects Worlds Sidebar Database Documents Request.
Set Warnings "-rewrite-rw".

(** The timeline of a request while the application writes: the database
    holds the documents the first [t] writes left at instant [t]. *)
Definition writtenTimeline (viewers : nat → option Profile) (docs : Documents)
    (ws : list Write) : Timeline :=
  requestTimeline viewers (λ t, Some (history docs ws t)).

(** The view a render returned, if it returned one, and what it shows of
    the members and of the progress widget. *)
Definition returned (c : Completion Element) : option Element :=
  if c is Completed (Returned view) then Some view else None.

Definition shownOf (o : Outcome Element) : option (list string * nat) :=
  if o is Returned view
  then Some (memb_key <$> renderedMembers view, renderedProgress view)
  else None.

(** The hub after the first write of [sampleWrites]. *)
Definition hubLate : Server := withChannels hub (server_channels hub ++ [late]).

(** ** One write *)

Section one_write.
Context (docs docs' : Documents) (w : Write) (Hw : write w docs = Some docs').
Context (props : ServerSidebarProps).
Implicit Types (viewer : option Profile) (profile : Profile).

(** C33: the sidebar of a server does not depend on the other servers: after
    an accepted write to another server a request makes the same calls, with
    the same answers, and ends the same way as before the write. *)
Theorem request_unaffected_by_write viewer :
  target w ≠ serverId props →
  run (requestEnv viewer docs') (ServerSidebar props) =
  run (requestEnv viewer docs) (ServerSidebar props).
Proof.
  intros Hid. apply ServerSidebar_run_ext; [done|].
  rewrite /= (findUnique_after_write _ _ _ _ Hw) decide_False //.
Qed.

(** C34: the render after a write shows what was written: a request for the
    server an accepted write is about returns the view of what the write
    left under that id, with its rows in the order of the query, and
    redirects when the write left nothing. *)
Theorem request_after_write profile :
  target w = serverId props →
  outcome (requestEnv (Some profile) docs') (ServerSidebar props) =
    match written w (docs_lookup (serverId props) docs) with
    | Some s =>
        Returned (sidebarView (sortedServer s (serverQuery (serverId props))) profile)
    | None => Redirected "/"
    end.
Proof.
  intros Hid. rewrite /outcome /ServerSidebar. run_simpl. rewrite /=. run_simpl.
  rewrite /= (findUnique_after_write _ _ _ _ Hw) decide_True //=.
  destruct (written w _); by run_simpl.
Qed.

End one_write.

(** ** A history of writes *)

(** C32: a render among writes.  While the application writes to a database
    that satisfied the constraints of the schema at the start, a render that
    begins at instant [t] and returns a view read the server as the first
    [t + 1] writes left it, refused writes apart; the view is the view of
    that server for the viewer of instant [t], and its channel rows and its
    member rows have distinct keys. *)
Theorem request_among_writes viewers docs ws t props view :
  DocumentsValid docs →
  (attemptFrom (writtenTimeline viewers docs ws) t (ServerSidebar props)).2
    = Completed (Returned view) →
  ∃ server profile,
    viewers t = Some profile ∧
    docs_findUnique (history docs ws (S t)) (serverQuery (serverId props))
      = Some server ∧
    view = sidebarView server profile ∧
    NoDup (chan_key <$> renderedChannels view) ∧
    NoDup (memb_key <$> renderedMembers view).
Proof.
  intros Hv%(history_valid _ ws (S t)). rewrite /ServerSidebar /=.
  destruct (viewers t) as [profile|]; [|done]. simpl.
  destruct (docs_findUnique _ _) as [server|] eqn:Hs; [|done].
  intros [= <-]. exists server, profile.
  destruct (docs_findUnique_integrity _ _ _ Hv Hs).
  split_and!; [done..|by apply rendered_channel_keys_unique|
    by apply rendered_member_keys_unique].
Qed.

(** ** Witnesses *)

Lemma sample_write :
  write (OnServer "s-hub" (CreateChannel late)) sampleDocs
  = Some (history sampleDocs sampleWrites 1).
Proof. done. Qed.

Lemma request_unaffected_by_write_witness :
  run (requestEnv (Some carol) (history sampleDocs sampleWrites 1))
    (ServerSidebar {| serverId := "s-studio" |}) =
  run (requestEnv (Some carol) sampleDocs) (ServerSidebar {| serverId := "s-studio" |}).
Proof. by apply (request_unaffected_by_write _ _ _ sample_write). Defined.

Lemma request_after_write_witness :
  outcome (requestEnv (Some carol) (history sampleDocs sampleWrites 1))
    (ServerSidebar {| serverId := "s-hub" |}) =
  Returned (sidebarView (sortedServer hubLate (serverQuery "s-hub")) carol).
Proof.
  by apply (request_after_write _ _ _ sample_write {| serverId := "s-hub" |}).
Defined.

Lemma request_among_writes_witness :
  ∃ server profile,
    Some bob = Some profile ∧
    docs_findUnique (history sampleDocs sampleWrites 1) (serverQuery "s-hub")
      = Some server ∧
    sidebarView (sortedServer hubLate (serverQuery "s-hub")) bob
      = sidebarView server profile ∧
    NoDup (chan_key <$> renderedChannels
      (sidebarView (sortedServer hubLate (serverQuery "s-hub")) bob)) ∧
    NoDup (memb_key <$> renderedMembers
      (sidebarView (sortedServer hubLate (serverQuery "s-hub")) bob)).
Proof.
  by apply (request_among_writes (λ _, Some bob) sampleDocs sampleWrites 0
    {| serverId := "s-hub" |} _ sampleDocs_valid).
Defined.

(** A channel created while the render waits for the session lookup is
    shown; one created after the read is not, and the render of a server
    deleted before the read redirects. *)
Example written_before_read :
  (λ view, chan_key <$> renderedChannels view) <$>
    returned (attemptFrom (writtenTimeline (λ _, Some bob) sampleDocs sampleWrites)
      0 (ServerSidebar {| serverId := "s-hub" |})).2
  = Some ["c-general"; "c-random"; "c-late"; "c-lounge"].
Proof. by vm_compute. Qed.

Example written_after_read :
  (λ view, chan_key <$> renderedChannels view) <$>
    returned (attemptFrom
      (writtenTimeline (λ _, Some bob) sampleDocs (DeleteServer "s-studio" :: sampleWrites))
      0 (ServerSidebar {| serverId := "s-hub" |})).2
  = Some ["c-general"; "c-random"; "c-lounge"].
Proof. by vm_compute. Qed.

Example deleted_before_read :
  (attemptFrom (writtenTimeline (λ _, Some bob) sampleDocs sampleWrites)
     2 (ServerSidebar {| serverId := "s-studio" |})).2
  = Completed (Redirected "/").
Proof. by vm_compute. Qed.

(** A member promoted and a member removed between two renders: carol, a
    guest at first, gets the progress widget of a todo channel created in the
    meantime, and bob is no longer listed. *)
Example promoted_between_renders :
  let todo := mkChannel "c-todo" "tasks" TODO 950 "s-hub" in
  let docs := history sampleDocs (OnServer "s-hub" (CreateChannel todo) :: sampleWrites) in
  (λ i, shownOf (outcome (requestEnv (Some carol) (docs i))
     (ServerSidebar {| serverId := "s-hub" |}))) <$> [1; 7]
  = [Some (["m-1"; "m-2"], 0); Some (["m-1"], 1)].
Proof. by vm_compute. Qed.

(** A member removed from the server is still served its sidebar: bob, who
    left the hub, gets the view, as any stranger does, with every member
    listed and without the progress widget. *)
Example removed_member_still_served :
  shownOf (outcome (requestEnv (Some bob) (history sampleDocs sampleWrites 6))
    (ServerSidebar {| serverId := "s-hub" |}))
  = Some (["m-1"; "m-3"], 0).
Proof. by vm_compute. Qed.
